(** * bestmua-data: normalizer, persistence layer, orchestrator and exporter

    A shallow embedding of the crawl pipeline of [bestmua_data]:
    [normalizer.py], the price extraction of [list_parser.py] and
    [detail_parser.py], [database.py] over the tables of [models.py],
    the session handling of [crawler.py] and the category statements of
    [exporter.py]; further the validator, the page loop of
    [list_parser.py], the links of [category_discovery.py], the product
    batch of [crawler.py] and the product queries of [exporter.py].

    Conventions.
    - A Python [str] is a list of Unicode code points ([list Z]); dictionary
      keys and attribute names, which are ASCII identifiers in the source,
      are Rocq strings.
    - A Python [float] is modelled by the rational number it denotes; every
      constant that appears in a statement below is exactly representable.
    - A [dict] is a finite map from keys to dynamically typed values; an ORM
      row is the finite map from column names to the values it stores.
    - The tables of the Python runtime that the source relies on
      ([str.lower], the regular-expression classes [\w], [\s], [\d], the
      text of a float) are a parameter, see [Runtime]; so are [float],
      [str.upper] and [urlparse], see [Library]. *)

From Stdlib Require Import ZArith QArith Qround Qabs Lqa List String Ascii Bool Lia DecimalString.
From stdpp Require Import base option list gmap strings fin_maps.

Local Open Scope Z_scope.

(** * Part I: the model *)

(** ** Python values *)

Abbreviation ustring := (list Z).

(** The code points of an ASCII literal. *)
Definition u (s : string) : ustring :=
  map (fun a => Z.of_N (N_of_ascii a)) (list_ascii_of_string s).

Inductive value : Type :=
| VNone
| VBool (b : bool)
| VInt (z : Z)
| VFloat (q : Q)
| VStr (s : ustring)
| VDate (t : Z).

(** Python truthiness, as [if x:] and [not x] read it. *)
Definition truthy (v : value) : bool :=
  match v with
  | VNone => false
  | VBool b => b
  | VInt z => negb (z =? 0)
  | VFloat q => negb (Qeq_bool q 0)
  | VStr s => match s with [] => false | _ => true end
  | VDate _ => true
  end.

(** [v is not None]. *)
Definition is_not_none (v : value) : bool :=
  match v with VNone => false | _ => true end.

(** [d.get(k)] and [d.get(k, default)]. *)
Definition dict_get (d : gmap string value) (k : string) : value :=
  default VNone (d !! k).

Definition dict_get_or (d : gmap string value) (k : string) (dflt : value) : value :=
  default dflt (d !! k).

(** An exception: its class and the text [str(e)] gives. Every class
    used below derives from [Exception]. *)
Inductive exn : Type :=
| Exception (class : string) (text : ustring).

Definition exn_str (e : exn) : ustring :=
  match e with Exception _ text => text end.

Definition KeyError (key : string) : exn :=
  Exception "KeyError" (u "'" ++ u key ++ u "'").

Definition ValueError (msg : ustring) : exn := Exception "ValueError" msg.

(** Assigning a plain value to a relationship attribute. *)
Definition AttributeError (attr : string) : exn :=
  Exception "AttributeError" (u attr).

(** A constraint of [table] refused the statement. *)
Definition IntegrityError (table : string) : exn :=
  Exception "IntegrityError" (u "constraint failed: " ++ u table).

(** The outcome of a call that may raise. *)
Inductive result (A : Type) : Type :=
| Returns (a : A)
| Raises (e : exn).
Arguments Returns {A} a.
Arguments Raises {A} e.

Definition bind {A B} (r : result A) (k : A -> result B) : result B :=
  match r with
  | Returns a => k a
  | Raises e => Raises e
  end.

Notation "'try!' x <- r ; k" := (bind r (fun x => k))
  (at level 10, x name, r at level 100, k at level 200).

(** [d[k]]: a missing key raises [KeyError]. *)
Definition dict_item (d : gmap string value) (k : string) : result value :=
  match d !! k with
  | Some v => Returns v
  | None => Raises (KeyError k)
  end.

(** ** The runtime tables *)

Class Runtime := {
  (** [str.isspace], which is also the class [\s] and what [str.strip()] removes *)
  is_space : Z -> bool;
  (** the class [\w] of a [str] pattern *)
  is_word : Z -> bool;
  (** the class [\d], with the decimal value [float] reads from the digit *)
  digit_val : Z -> option Z;
  (** [str.lower] *)
  str_lower : ustring -> ustring;
  (** [str] of an [int] and of a [float] *)
  int_repr : Z -> ustring;
  float_repr : Q -> ustring;
  (** [str] of a [datetime] *)
  date_repr : Z -> ustring;
}.

(** What the proofs about slugs use of these tables; each line is a fact of
    the Unicode character database. *)
Definition lower_fixed `{Runtime} (c : Z) : Prop := str_lower [c] = [c].

(** ** normalizer.py: strings *)

Section Strings.
Context `{Runtime}.

Fixpoint lstrip (p : Z -> bool) (s : ustring) : ustring :=
  match s with
  | [] => []
  | c :: s' => if p c then lstrip p s' else s
  end.

Definition rstrip (p : Z -> bool) (s : ustring) : ustring :=
  rev (lstrip p (rev s)).

Definition strip_by (p : Z -> bool) (s : ustring) : ustring :=
  rstrip p (lstrip p s).

(** [s.strip()] *)
Definition py_strip (s : ustring) : ustring := strip_by is_space s.

Definition mem_char (cs : ustring) (c : Z) : bool :=
  existsb (Z.eqb c) cs.

(** [s.strip(chars)] *)
Definition py_strip_chars (cs : ustring) (s : ustring) : ustring :=
  strip_by (mem_char cs) s.

(** [s.replace(old, new)] for one-character [old] and [new] *)
Definition replace_char (old new : Z) (s : ustring) : ustring :=
  map (fun c => if c =? old then new else c) s.

(** [str(x)] *)
Definition py_str (v : value) : ustring :=
  match v with
  | VNone => u "None"
  | VBool true => u "True"
  | VBool false => u "False"
  | VInt z => int_repr z
  | VFloat q => float_repr q
  | VStr s => s
  | VDate t => date_repr t
  end.

End Strings.

(** ** normalizer.py: slugs *)

(** [_build_vietnamese_chars_map], in the order of the dictionary literal:
    the lowercase letters, then their uppercase versions. Every key and
    every replacement is one code point. *)
Definition vietnamese_lower_map : list (Z * Z) :=
  [ (225, 97); (224, 97); (7843, 97); (227, 97); (7841, 97);
    (259, 97); (7855, 97); (7857, 97); (7859, 97); (7861, 97); (7863, 97);
    (226, 97); (7845, 97); (7847, 97); (7849, 97); (7851, 97); (7853, 97);
    (233, 101); (232, 101); (7867, 101); (7869, 101); (7865, 101);
    (234, 101); (7871, 101); (7873, 101); (7875, 101); (7877, 101); (7879, 101);
    (237, 105); (236, 105); (7881, 105); (297, 105); (7883, 105);
    (243, 111); (242, 111); (7887, 111); (245, 111); (7885, 111);
    (244, 111); (7889, 111); (7891, 111); (7893, 111); (7895, 111); (7897, 111);
    (417, 111); (7899, 111); (7901, 111); (7903, 111); (7905, 111); (7907, 111);
    (250, 117); (249, 117); (7911, 117); (361, 117); (7909, 117);
    (432, 117); (7913, 117); (7915, 117); (7917, 117); (7919, 117); (7921, 117);
    (253, 121); (7923, 121); (7927, 121); (7929, 121); (7925, 121);
    (273, 100) ].

Definition vietnamese_upper_map : list (Z * Z) :=
  [ (193, 65); (192, 65); (7842, 65); (195, 65); (7840, 65);
    (258, 65); (7854, 65); (7856, 65); (7858, 65); (7860, 65); (7862, 65);
    (194, 65); (7844, 65); (7846, 65); (7848, 65); (7850, 65); (7852, 65);
    (201, 69); (200, 69); (7866, 69); (7868, 69); (7864, 69);
    (202, 69); (7870, 69); (7872, 69); (7874, 69); (7876, 69); (7878, 69);
    (205, 73); (204, 73); (7880, 73); (296, 73); (7882, 73);
    (211, 79); (210, 79); (7886, 79); (213, 79); (7884, 79);
    (212, 79); (7888, 79); (7890, 79); (7892, 79); (7894, 79); (7896, 79);
    (416, 79); (7898, 79); (7900, 79); (7902, 79); (7904, 79); (7906, 79);
    (218, 85); (217, 85); (7910, 85); (360, 85); (7908, 85);
    (431, 85); (7912, 85); (7914, 85); (7916, 85); (7918, 85); (7920, 85);
    (221, 89); (7922, 89); (7926, 89); (7928, 89); (7924, 89);
    (272, 68) ].

Definition vietnamese_chars_map : list (Z * Z) :=
  vietnamese_lower_map ++ vietnamese_upper_map.

Section Slug.
Context `{Runtime}.

(** [for vn_char, en_char in map.items(): s = s.replace(vn_char, en_char)] *)
Definition replace_all (table : list (Z * Z)) (s : ustring) : ustring :=
  fold_left (fun acc p => replace_char (fst p) (snd p) acc) table s.

(** [re.sub(r'[^\w\s-]', '', s)] *)
Definition slug_keep (c : Z) : bool := is_word c || is_space c || (c =? 45).

Definition drop_special (s : ustring) : ustring := List.filter slug_keep s.

(** [re.sub(r'[-\s]+', '-', s)]: every maximal run of hyphens and
    whitespace becomes one hyphen. [in_run] says that the previous
    character belonged to the run being replaced. *)
Definition slug_sep (c : Z) : bool := (c =? 45) || is_space c.

Fixpoint collapse_from (in_run : bool) (s : ustring) : ustring :=
  match s with
  | [] => []
  | c :: s' =>
      if slug_sep c
      then (if in_run then collapse_from true s' else 45 :: collapse_from true s')
      else c :: collapse_from false s'
  end.

Definition collapse_seps (s : ustring) : ustring := collapse_from false s.

(** The statements of [normalize_slug] between [str(slug)] and the final
    [or 'unknown']. *)
Definition slug_steps (slug_text : ustring) : ustring :=
  let slug_str := str_lower (py_strip slug_text) in
  let slug_str := py_strip_chars (u "/ ") slug_str in
  let slug_str := replace_all vietnamese_chars_map slug_str in
  let slug_str := drop_special slug_str in
  let slug_str := collapse_seps slug_str in
  py_strip_chars (u "-") slug_str.

(** [normalize_slug]. No step of the [try] block raises on a value of the
    model, so the [except] branch is not represented. *)
Definition normalize_slug (slug : value) : ustring :=
  if negb (truthy slug) then []
  else
    match slug_steps (py_str slug) with
    | [] => u "unknown"
    | slug_str => slug_str
    end.

(** [normalize_url] *)
Fixpoint starts_with (pre s : ustring) : bool :=
  match pre, s with
  | [], _ => true
  | _ :: _, [] => false
  | a :: pre', b :: s' => (a =? b) && starts_with pre' s'
  end.

Definition normalize_url (url : value) : ustring :=
  if negb (truthy url) then []
  else
    let url_str := py_strip (py_str url) in
    match url_str with
    | [] => url_str
    | _ =>
        if starts_with (u "http://") url_str || starts_with (u "https://") url_str
           || starts_with (u "/") url_str
        then url_str
        else 47 :: url_str
    end.

End Slug.

(** ** Prices: normalizer.py, list_parser.py, detail_parser.py *)

Section Prices.
Context `{Runtime}.

Definition is_digit (c : Z) : bool :=
  match digit_val c with Some _ => true | None => false end.

(** [s.replace(',', '')] *)
Definition remove_commas (s : ustring) : ustring :=
  List.filter (fun c => negb (c =? 44)) s.

(** [re.sub(r'[^\d.,]', '', s)] *)
Definition price_keep (c : Z) : bool := is_digit c || (c =? 46) || (c =? 44).

Definition price_clean (s : ustring) : ustring :=
  List.filter price_keep (remove_commas s).

(** The number written by a run of digits; [None] if a character is not a
    digit. *)
Fixpoint digits_value (acc : Z) (s : ustring) : option Z :=
  match s with
  | [] => Some acc
  | c :: s' =>
      match digit_val c with
      | Some d => digits_value (10 * acc + d) s'
      | None => None
      end
  end.

Fixpoint split_at_dot (s : ustring) : ustring * option ustring :=
  match s with
  | [] => ([], None)
  | c :: s' =>
      if c =? 46 then ([], Some s')
      else let '(a, b) := split_at_dot s' in (c :: a, b)
  end.

(** [float(s)] on the strings that price cleaning leaves, which hold
    digits, periods and commas only: digits with at most one period and at
    least one digit are a number, anything else is a [ValueError]
    ([None]). *)
Definition float_of_clean (s : ustring) : option Q :=
  match split_at_dot s with
  | (ip, None) =>
      match ip with
      | [] => None
      | _ => n ← digits_value 0 ip; Some (inject_Z n)
      end
  | (ip, Some fp) =>
      match ip ++ fp with
      | [] => None
      | _ =>
          n ← digits_value 0 (ip ++ fp);
          Some (Qred (n # Z.to_pos (10 ^ Z.of_nat (length fp))))
      end
  end.

(** [DataNormalizer.normalize_price]. [bool] is a subclass of [int], so a
    Boolean takes the numeric branch. *)
Definition normalize_price (price : value) : value :=
  match price with
  | VNone => VNone
  | VStr [] => VNone
  | VBool b => VFloat (if b then 1 else 0)
  | VInt z => if 0 <=? z then VFloat (inject_Z z) else VNone
  | VFloat q => if Qle_bool 0 q then VFloat q else VNone
  | VStr s =>
      match price_clean s with
      | [] => VNone
      | cleaned =>
          match float_of_clean cleaned with
          | Some q => VFloat q
          | None => VNone
          end
      end
  | VDate _ => VNone
  end.

(** [ProductListParser._parse_price]: a first attempt when the cleaned
    text holds a period, then the same conversion again. *)
Definition list_parse_price (price_text : ustring) : option Q :=
  match price_text with
  | [] => None
  | _ =>
      let cleaned := price_clean price_text in
      let second := float_of_clean cleaned in
      if mem_char cleaned 46
      then match float_of_clean cleaned with
           | Some q => Some q
           | None => second
           end
      else second
  end.

(** [ProductDetailParser._parse_price]: both branches of the test on the
    number of periods make the same conversion. *)
Definition detail_parse_price (price_text : ustring) : option Q :=
  match price_text with
  | [] => None
  | _ =>
      let cleaned := price_clean price_text in
      if mem_char cleaned 46 && (length (List.filter (Z.eqb 46) cleaned) =? 1)%nat
      then float_of_clean cleaned
      else float_of_clean cleaned
  end.












End Prices.

(** ** normalizer.py: [normalize_product]

    The per-field normalizers are the methods of [DataNormalizer]; each is
    a procedure that returns a value or raises. [normalize_product] is
    stated for any such procedures, those of the source among them. *)

Record field_normalizers := {
  nf_text : value -> result value;
  nf_slug : value -> result value;
  nf_url : value -> result value;
  nf_price : value -> result value;
  nf_percentage : value -> result value;
  nf_sku : value -> result value;
  nf_availability : value -> result value;
  nf_rating : value -> result value;
  nf_integer : value -> result value;
  nf_images : value -> result value;
  nf_boolean : value -> result value;
}.

(** The body of the [try] block. *)
Definition normalize_product_body (N : field_normalizers)
    (raw_product : gmap string value) : result (gmap string value) :=
  let normalized : gmap string value := ∅ in
  try! v <- nf_text N (dict_get_or raw_product "name" (VStr []));
  let normalized := <["name" := v]> normalized in
  try! v <- nf_slug N (dict_get_or raw_product "slug" (VStr []));
  let normalized := <["slug" := v]> normalized in
  try! v <- nf_url N (dict_get_or raw_product "url" (VStr []));
  let normalized := <["url" := v]> normalized in
  try! v <- nf_text N (dict_get_or raw_product "description" (VStr []));
  let normalized := <["description" := v]> normalized in
  try! v <- nf_price N (dict_get raw_product "price");
  let normalized := <["price" := v]> normalized in
  try! v <- nf_price N (dict_get raw_product "original_price");
  let normalized := <["original_price" := v]> normalized in
  try! v <- nf_percentage N (dict_get raw_product "discount_percentage");
  let normalized := <["discount_percentage" := v]> normalized in
  try! v <- nf_sku N (dict_get_or raw_product "sku" (VStr []));
  let normalized := <["sku" := v]> normalized in
  try! v <- nf_availability N (dict_get_or raw_product "availability" (VStr (u "unknown")));
  let normalized := <["availability" := v]> normalized in
  try! v <- nf_rating N (dict_get raw_product "rating");
  let normalized := <["rating" := v]> normalized in
  try! v <- nf_integer N (dict_get_or raw_product "review_count" (VInt 0));
  let normalized := <["review_count" := v]> normalized in
  try! v <- nf_url N (dict_get_or raw_product "image_url" (VStr []));
  let normalized := <["image_url" := v]> normalized in
  try! v <- nf_images N (dict_get raw_product "images");
  let normalized := <["images" := v]> normalized in
  try! v <- nf_text N (dict_get_or raw_product "ingredients" (VStr []));
  let normalized := <["ingredients" := v]> normalized in
  try! v <- nf_text N (dict_get_or raw_product "usage_instructions" (VStr []));
  let normalized := <["usage_instructions" := v]> normalized in
  try! v <- nf_text N (dict_get_or raw_product "brand_name" (VStr []));
  let normalized := <["brand_name" := v]> normalized in
  try! v <- nf_boolean N (dict_get_or raw_product "is_featured" (VBool false));
  let normalized := <["is_featured" := v]> normalized in
  try! v <- nf_boolean N (dict_get_or raw_product "is_bestseller" (VBool false));
  let normalized := <["is_bestseller" := v]> normalized in
  try! v <- nf_boolean N (dict_get_or raw_product "is_new" (VBool false));
  let normalized := <["is_new" := v]> normalized in
  try! v <- nf_boolean N (dict_get_or raw_product "is_sale" (VBool false));
  let normalized := <["is_sale" := v]> normalized in
  try! v <- nf_text N (dict_get_or raw_product "category_name" (VStr []));
  let normalized := <["category_name" := v]> normalized in
  Returns normalized.

(** [normalize_product]: [except Exception] answers the empty dictionary. *)
Definition normalize_product (N : field_normalizers)
    (raw_product : gmap string value) : result (gmap string value) :=
  match normalize_product_body N raw_product with
  | Returns normalized => Returns normalized
  | Raises _ => Returns ∅
  end.

Definition product_keys : list string :=
  ["name"; "slug"; "url"; "description"; "price"; "original_price";
   "discount_percentage"; "sku"; "availability"; "rating"; "review_count";
   "image_url"; "images"; "ingredients"; "usage_instructions"; "brand_name";
   "is_featured"; "is_bestseller"; "is_new"; "is_sale"; "category_name"]%string.

(** ** models.py: tables and constraints *)

Abbreviation row := (gmap string value).

Record database := {
  categories : list row;
  brands : list row;
  products : list row;
  crawl_sessions : list row;
}.

Definition empty_database : database :=
  {| categories := []; brands := []; products := []; crawl_sessions := [] |}.

Definition set_categories (db : database) (rows : list row) : database :=
  {| categories := rows; brands := brands db; products := products db;
     crawl_sessions := crawl_sessions db |}.

Definition set_brands (db : database) (rows : list row) : database :=
  {| categories := categories db; brands := rows; products := products db;
     crawl_sessions := crawl_sessions db |}.

Definition set_products (db : database) (rows : list row) : database :=
  {| categories := categories db; brands := brands db; products := rows;
     crawl_sessions := crawl_sessions db |}.

Definition set_crawl_sessions (db : database) (rows : list row) : database :=
  {| categories := categories db; brands := brands db; products := products db;
     crawl_sessions := rows |}.

(** A mapped class: its columns, its relationship attributes, and the
    columns declared [nullable=False] (or primary key) and [unique=True]
    (or primary key). *)
Record schema := {
  table_name : string;
  columns : list string;
  relationships : list string;
  not_null : list string;
  unique : list string;
}.

Definition category_schema : schema :=
  {| table_name := "categories";
     columns := ["id"; "name"; "slug"; "url"; "parent_id"; "description";
                 "created_at"; "updated_at"];
     relationships := ["parent"; "children"; "products"];
     not_null := ["id"; "name"; "slug"; "url"];
     unique := ["id"; "name"; "slug"] |}%string.

Definition brand_schema : schema :=
  {| table_name := "brands";
     columns := ["id"; "name"; "slug"; "url"; "description"; "created_at"; "updated_at"];
     relationships := ["products"];
     not_null := ["id"; "name"; "slug"];
     unique := ["id"; "name"; "slug"] |}%string.

Definition product_schema : schema :=
  {| table_name := "products";
     columns := ["id"; "name"; "slug"; "url"; "description"; "price";
                 "original_price"; "discount_percentage"; "sku"; "availability";
                 "rating"; "review_count"; "image_url"; "images"; "ingredients";
                 "usage_instructions"; "category_id"; "brand_id"; "is_featured";
                 "is_bestseller"; "is_new"; "is_sale"; "created_at"; "updated_at"];
     relationships := ["category"; "brand"];
     not_null := ["id"; "name"; "slug"; "url"; "category_id"];
     unique := ["id"; "slug"; "url"] |}%string.

(** Equality of two stored values, as a query compares them. *)
Definition value_eqb (a b : value) : bool :=
  match a, b with
  | VNone, VNone => true
  | VBool x, VBool y => Bool.eqb x y
  | VInt x, VInt y => x =? y
  | VFloat x, VFloat y => Qeq_bool x y
  | VStr x, VStr y => bool_decide (x = y)
  | VDate x, VDate y => x =? y
  | _, _ => false
  end.

(** [Model.col == v] in a filter. *)
Definition col_is (col : string) (v : value) (r : row) : bool :=
  value_eqb (dict_get r col) v.

(** [query.filter(p).first()], with the position of the row in its table.
    Rows are scanned in the order of insertion. *)
Fixpoint find_row (p : row -> bool) (rows : list row) : option (nat * row) :=
  match rows with
  | [] => None
  | r :: rest =>
      if p r then Some (0%nat, r)
      else match find_row p rest with
           | Some (i, x) => Some (S i, x)
           | None => None
           end
  end.

Definition row_id (r : row) : Z :=
  match dict_get r "id" with VInt z => z | _ => 0 end.

(** The key an [INTEGER PRIMARY KEY] column gives a new row: one more than
    the largest in the table. *)
Definition next_id (rows : list row) : Z :=
  1 + fold_right Z.max 0 (map row_id rows).

Definition mem_string (k : string) (ks : list string) : bool :=
  existsb (String.eqb k) ks.

(** No other row holds value [v] in column [col]; NULLs never collide. *)
Definition no_collision (col : string) (v : value) (others : list row) : bool :=
  negb (is_not_none v) || forallb (fun o => negb (col_is col v o)) others.

(** The constraints an INSERT of [r] is checked against. *)
Definition insert_ok (s : schema) (table : list row) (r : row) : bool :=
  forallb (fun c => is_not_none (dict_get r c)) (not_null s)
  && forallb (fun c => no_collision c (dict_get r c) table) (unique s).

(** The constraints an UPDATE turning row [i], [old], into [new] is checked
    against: the statement sets the columns whose value changed, and only
    these are checked. *)
Definition others_of (i : nat) (table : list row) : list row :=
  take i table ++ drop (S i) table.

Definition changed (col : string) (old new : row) : bool :=
  negb (value_eqb (dict_get old col) (dict_get new col)).

Definition update_ok (s : schema) (table : list row) (i : nat) (old new : row) : bool :=
  forallb (fun c => negb (changed c old new) || is_not_none (dict_get new c)) (not_null s)
  && forallb (fun c => negb (changed c old new)
                       || no_collision c (dict_get new c) (others_of i table)) (unique s).

(** ** database.py: upserts *)

(** [for key, value in data.items(): if keep(key, value): setattr(obj, key, value)].
    Setting a column stores the value; setting a relationship attribute to
    one of the plain values of the model raises; any other name is an
    attribute of the Python object only and is not stored. *)
Definition setattr_step (s : schema) (keep : string -> value -> bool)
    (key : string) (v : value) (acc : result row) : result row :=
  match acc with
  | Raises e => Raises e
  | Returns obj =>
      if keep key v then
        if mem_string key (relationships s) then Raises (AttributeError key)
        else if mem_string key (columns s) then Returns (<[key := v]> obj)
        else Returns obj
      else Returns obj
  end.

Definition setattrs (s : schema) (keep : string -> value -> bool)
    (data : gmap string value) (obj : row) : result row :=
  map_fold (setattr_step s keep) (Returns obj) data.

(** [if key != 'slug' and value] *)
Definition keep_truthy_not_slug (key : string) (v : value) : bool :=
  negb (String.eqb key "slug") && truthy v.

(** [if key not in ['slug', 'category_id', 'brand_id'] and value is not None] *)
Definition keep_product_field (key : string) (v : value) : bool :=
  negb (mem_string key ["slug"; "category_id"; "brand_id"]%string) && is_not_none v.

(** The row of [Category(name=..., slug=..., url=..., description=...,
    parent=parent)], with the defaults of the timestamps. *)
Definition new_category (id now : Z) (name slug url description parent_id : value) : row :=
  list_to_map
    [ ("id", VInt id); ("name", name); ("slug", slug); ("url", url);
      ("description", description); ("parent_id", parent_id);
      ("created_at", VDate now); ("updated_at", VDate now) ]%string.

(** The row of [Brand(name=..., slug=..., url=..., description=...)]. *)
Definition new_brand (id now : Z) (name slug url description : value) : row :=
  list_to_map
    [ ("id", VInt id); ("name", name); ("slug", slug); ("url", url);
      ("description", description);
      ("created_at", VDate now); ("updated_at", VDate now) ]%string.

(** [upsert_category]. The first component of the answer is the database
    as the call leaves it: what was committed, a failed call having rolled
    its own changes back. *)
Definition upsert_category (now : Z) (category_data : gmap string value)
    (db : database) : database * result (row * bool) :=
  match dict_item category_data "slug" with
  | Raises e => (db, Raises e)
  | Returns slug =>
      match find_row (col_is "slug" slug) (categories db) with
      | Some (i, existing_category) =>
          match setattrs category_schema keep_truthy_not_slug category_data
                         existing_category with
          | Raises e => (db, Raises e)
          | Returns updated =>
              let updated := <["updated_at" := VDate now]> updated in
              if update_ok category_schema (categories db) i existing_category updated
              then (set_categories db (<[i := updated]> (categories db)),
                    Returns (updated, false))
              else (db, Raises (IntegrityError "categories"))
          end
      | None =>
          let parent :=
            if truthy (dict_get category_data "parent_slug")
            then find_row (col_is "slug" (dict_get category_data "parent_slug"))
                          (categories db)
            else None in
          match dict_item category_data "name", dict_item category_data "url" with
          | Raises e, _ => (db, Raises e)
          | _, Raises e => (db, Raises e)
          | Returns name, Returns url =>
              let category :=
                new_category (next_id (categories db)) now name slug url
                  (dict_get_or category_data "description" (VStr []))
                  (match parent with
                   | Some (_, p) => dict_get p "id"
                   | None => VNone
                   end) in
              if insert_ok category_schema (categories db) category
              then (set_categories db (categories db ++ [category]),
                    Returns (category, true))
              else (db, Raises (IntegrityError "categories"))
          end
      end
  end.

(** [upsert_brand] *)
Definition upsert_brand (now : Z) (brand_data : gmap string value)
    (db : database) : database * result (row * bool) :=
  match dict_item brand_data "slug" with
  | Raises e => (db, Raises e)
  | Returns slug =>
      match find_row (col_is "slug" slug) (brands db) with
      | Some (i, existing_brand) =>
          match setattrs brand_schema keep_truthy_not_slug brand_data existing_brand with
          | Raises e => (db, Raises e)
          | Returns updated =>
              let updated := <["updated_at" := VDate now]> updated in
              if update_ok brand_schema (brands db) i existing_brand updated
              then (set_brands db (<[i := updated]> (brands db)),
                    Returns (updated, false))
              else (db, Raises (IntegrityError "brands"))
          end
      | None =>
          match dict_item brand_data "name" with
          | Raises e => (db, Raises e)
          | Returns name =>
              let brand :=
                new_brand (next_id (brands db)) now name slug
                  (dict_get_or brand_data "url" (VStr []))
                  (dict_get_or brand_data "description" (VStr [])) in
              if insert_ok brand_schema (brands db) brand
              then (set_brands db (brands db ++ [brand]), Returns (brand, true))
              else (db, Raises (IntegrityError "brands"))
          end
      end
  end.

Section Database.
Context `{Runtime}.

(** The dictionary that the get-or-create helpers build for a name. *)
Definition stub_data (name : value) : gmap string value :=
  list_to_map
    [ ("name", name); ("slug", VStr (normalize_slug name));
      ("url", VStr []); ("description", VStr []) ]%string.

(** [_get_or_create_category_by_name]: an exception of the upsert is
    logged and answered with [None]. *)
Definition get_or_create_category_by_name (now : Z) (category_name : value)
    (db : database) : database * option row :=
  if negb (truthy category_name) then (db, None)
  else
    match find_row (col_is "name" category_name) (categories db) with
    | Some (_, category) => (db, Some category)
    | None =>
        match upsert_category now (stub_data category_name) db with
        | (db', Returns (category, _)) => (db', Some category)
        | (db', Raises _) => (db', None)
        end
    end.

(** [_get_or_create_brand_by_name] *)
Definition get_or_create_brand_by_name (now : Z) (brand_name : value)
    (db : database) : database * option row :=
  if negb (truthy brand_name) then (db, None)
  else
    match find_row (col_is "name" brand_name) (brands db) with
    | Some (_, brand) => (db, Some brand)
    | None =>
        match upsert_brand now (stub_data brand_name) db with
        | (db', Returns (brand, _)) => (db', Some brand)
        | (db', Raises _) => (db', None)
        end
    end.

(** [if product_data.get('category_name'): category = self._get_or_create_...],
    as both paths of [upsert_product] have it, and the same for the brand. *)
Definition resolve_category (now : Z) (product_data : gmap string value) (db : database)
    : database * option row :=
  if truthy (dict_get product_data "category_name")
  then get_or_create_category_by_name now (dict_get product_data "category_name") db
  else (db, None).

Definition resolve_brand (now : Z) (product_data : gmap string value) (db : database)
    : database * option row :=
  if truthy (dict_get product_data "brand_name")
  then get_or_create_brand_by_name now (dict_get product_data "brand_name") db
  else (db, None).

(** A column with a Python-side default takes it when the attribute is
    [None] at INSERT. *)
Definition or_default (v dflt : value) : value :=
  if is_not_none v then v else dflt.

(** [x.id if x else None] *)
Definition id_or_none (x : option row) : value :=
  match x with
  | Some r => dict_get r "id"
  | None => VNone
  end.

(** The row of [Product(name=product_data['name'], ...)]. *)
Definition new_product (id now : Z) (product_data : gmap string value)
    (name slug url : value) (category brand : option row) : row :=
  list_to_map
    [ ("id", VInt id); ("name", name); ("slug", slug); ("url", url);
      ("description", dict_get_or product_data "description" (VStr []));
      ("price", dict_get product_data "price");
      ("original_price", dict_get product_data "original_price");
      ("discount_percentage", dict_get product_data "discount_percentage");
      ("sku", dict_get_or product_data "sku" (VStr []));
      ("availability", dict_get_or product_data "availability" (VStr (u "unknown")));
      ("rating", dict_get product_data "rating");
      ("review_count",
        or_default (dict_get_or product_data "review_count" (VInt 0)) (VInt 0));
      ("image_url", dict_get_or product_data "image_url" (VStr []));
      ("images", dict_get_or product_data "images" (VStr []));
      ("ingredients", dict_get_or product_data "ingredients" (VStr []));
      ("usage_instructions", dict_get_or product_data "usage_instructions" (VStr []));
      ("category_id", id_or_none category);
      ("brand_id", id_or_none brand);
      ("is_featured",
        or_default (dict_get_or product_data "is_featured" (VBool false)) (VBool false));
      ("is_bestseller",
        or_default (dict_get_or product_data "is_bestseller" (VBool false)) (VBool false));
      ("is_new",
        or_default (dict_get_or product_data "is_new" (VBool false)) (VBool false));
      ("is_sale",
        or_default (dict_get_or product_data "is_sale" (VBool false)) (VBool false));
      ("created_at", VDate now); ("updated_at", VDate now) ]%string.

(** [or_(Product.slug == slug, Product.url == url)] *)
Definition slug_or_url (slug url : value) (r : row) : bool :=
  col_is "slug" slug r || col_is "url" url r.

(** [if x: existing_product.x_id = x.id] *)
Definition set_reference (col : string) (x : option row) (obj : row) : row :=
  match x with
  | Some r => <[col := dict_get r "id"]> obj
  | None => obj
  end.

(** The update path of [upsert_product], for the row found at position [i].
    The pending changes of the loop reach the database with the first
    query or commit that follows, which is where a violated constraint
    surfaces; the categories and brands created on the way are committed
    by their own upserts. *)
Definition update_product (now : Z) (product_data : gmap string value)
    (i : nat) (existing_product : row) (db : database)
    : database * result (row * bool) :=
  match setattrs product_schema keep_product_field product_data existing_product with
  | Raises e => (db, Raises e)
  | Returns updated =>
      if negb (update_ok product_schema (products db) i existing_product updated)
      then (db, Raises (IntegrityError "products"))
      else
        let '(db, category) := resolve_category now product_data db in
        let updated := set_reference "category_id" category updated in
        let '(db, brand) := resolve_brand now product_data db in
        let updated := set_reference "brand_id" brand updated in
        let updated := <["updated_at" := VDate now]> updated in
        if update_ok product_schema (products db) i existing_product updated
        then (set_products db (<[i := updated]> (products db)), Returns (updated, false))
        else (db, Raises (IntegrityError "products"))
  end.

(** The insert path of [upsert_product]. *)
Definition create_product (now : Z) (product_data : gmap string value)
    (slug url : value) (db : database) : database * result (row * bool) :=
  let '(db, category) := resolve_category now product_data db in
  let '(db, brand) := resolve_brand now product_data db in
  match dict_item product_data "name" with
  | Raises e => (db, Raises e)
  | Returns name =>
      let product :=
        new_product (next_id (products db)) now product_data name slug url
          category brand in
      if insert_ok product_schema (products db) product
      then (set_products db (products db ++ [product]), Returns (product, true))
      else (db, Raises (IntegrityError "products"))
  end.

(** [upsert_product] *)
Definition upsert_product (now : Z) (product_data : gmap string value)
    (db : database) : database * result (row * bool) :=
  match dict_item product_data "slug", dict_item product_data "url" with
  | Raises e, _ => (db, Raises e)
  | _, Raises e => (db, Raises e)
  | Returns slug, Returns url =>
      match find_row (slug_or_url slug url) (products db) with
      | Some (i, existing_product) =>
          update_product now product_data i existing_product db
      | None => create_product now product_data slug url db
      end
  end.

(** The [stats] dictionary of [bulk_upsert_products]. *)
Record bulk_stats := {
  total : Z;
  created : Z;
  updated : Z;
  errors : Z;
}.

(** The loop of [bulk_upsert_products]; [clock n] is the time at which the
    record at position [n] of the batch is handled. *)
Fixpoint bulk_loop (clock : nat -> Z) (n : nat) (products_data : list (gmap string value))
    (stats : bulk_stats) (db : database) : database * bulk_stats :=
  match products_data with
  | [] => (db, stats)
  | product_data :: rest =>
      match upsert_product (clock n) product_data db with
      | (db', Returns (_, was_created)) =>
          let stats :=
            if was_created
            then {| total := total stats; created := created stats + 1;
                    updated := updated stats; errors := errors stats |}
            else {| total := total stats; created := created stats;
                    updated := updated stats + 1; errors := errors stats |} in
          bulk_loop clock (S n) rest stats db'
      | (db', Raises _) =>
          let stats :=
            {| total := total stats; created := created stats;
               updated := updated stats; errors := errors stats + 1 |} in
          bulk_loop clock (S n) rest stats db'
      end
  end.

Definition bulk_upsert_products (clock : nat -> Z)
    (products_data : list (gmap string value)) (db : database) : database * bulk_stats :=
  bulk_loop clock 0 products_data
    {| total := Z.of_nat (length products_data); created := 0; updated := 0; errors := 0 |}
    db.

End Database.

(** ** database.py: crawl sessions *)

(** [start_crawl_session]: a row with the column defaults of
    [CrawlSession]. *)
Definition start_crawl_session (now : Z) (db : database) : database * row :=
  let crawl_session : row :=
    list_to_map
      [ ("id", VInt (next_id (crawl_sessions db)));
        ("started_at", VDate now);
        ("finished_at", VNone);
        ("status", VStr (u "running"));
        ("categories_found", VInt 0);
        ("products_found", VInt 0);
        ("products_updated", VInt 0);
        ("products_created", VInt 0);
        ("errors", VNone) ]%string in
  (set_crawl_sessions db (crawl_sessions db ++ [crawl_session]), crawl_session).

(** [finish_crawl_session]: [stats] and [errors] are optional and are
    used only when truthy; a session that is not found is left alone. *)
Definition finish_crawl_session (now : Z) (crawl_session_id : value) (status : ustring)
    (stats : option (gmap string value)) (errors : option ustring)
    (db : database) : database :=
  match find_row (col_is "id" crawl_session_id) (crawl_sessions db) with
  | Some (i, crawl_session) =>
      let crawl_session := <["finished_at" := VDate now]> crawl_session in
      let crawl_session := <["status" := VStr status]> crawl_session in
      let crawl_session :=
        match stats with
        | Some stats =>
            if bool_decide (stats = ∅) then crawl_session
            else
              let cs := <["categories_found" :=
                            dict_get_or stats "categories_found" (VInt 0)]> crawl_session in
              let cs := <["products_found" :=
                            dict_get_or stats "products_found" (VInt 0)]> cs in
              let cs := <["products_created" :=
                            dict_get_or stats "products_created" (VInt 0)]> cs in
              <["products_updated" := dict_get_or stats "products_updated" (VInt 0)]> cs
        | None => crawl_session
        end in
      let crawl_session :=
        match errors with
        | Some (c :: text) => <["errors" := VStr (c :: text)]> crawl_session
        | _ => crawl_session
        end in
      set_crawl_sessions db (<[i := crawl_session]> (crawl_sessions db))
  | None => db
  end.

(** ** crawler.py: the three entry points *)

(** What an entry point leaves behind: the database, [self.stats], and
    what the caller gets, the statistics or the exception. *)
Record run := {
  run_db : database;
  run_stats : gmap string value;
  run_outcome : result (gmap string value);
}.

(** The statements of a [try] block up to the call that finishes the
    session: they read and write the database and [self.stats], and end
    normally or with an exception. *)
Definition crawl_steps : Type :=
  database -> gmap string value -> database * gmap string value * result unit.

(** The frame shared by [full_crawl], [incremental_crawl] and
    [crawl_category]: start a session, run the steps, finish the session as
    completed, or as failed with [str(e)] and raise again. [t_start] and
    [t_end] are the readings of the clock at the start and at the finish;
    the duration is the difference, in seconds. *)
Definition crawl_with_session (steps : crawl_steps) (t_start t_end : Z)
    (db : database) (stats : gmap string value) : run :=
  let '(db, crawl_session) := start_crawl_session t_start db in
  let crawl_session_id := dict_get crawl_session "id" in
  match steps db stats with
  | (db, stats, Returns _) =>
      let stats := <["duration_seconds" := VFloat (inject_Z (t_end - t_start))]> stats in
      let db := finish_crawl_session t_end crawl_session_id (u "completed")
                  (Some stats) None db in
      {| run_db := db; run_stats := stats; run_outcome := Returns stats |}
  | (db, stats, Raises e) =>
      let db := finish_crawl_session t_end crawl_session_id (u "failed")
                  (Some stats) (Some (exn_str e)) db in
      {| run_db := db; run_stats := stats; run_outcome := Raises e |}
  end.

(** [full_crawl]: [steps] stands for category discovery, the crawl of the
    categories and the export. *)
Definition full_crawl (steps : crawl_steps) := crawl_with_session steps.




(** ** exporter.py: the statements of a category file *)

(** [cat.parent]: the category that [parent_id] refers to. *)
Definition parent_of (db : database) (cat : row) : option row :=
  match dict_get cat "parent_id" with
  | VNone => None
  | parent_id =>
      match find_row (col_is "id" parent_id) (categories db) with
      | Some (_, p) => Some p
      | None => None
      end
  end.

(** What [_write_products_sql_file] writes, in the order of its [write]
    calls; the text of a statement is left to the formatter. *)
Inductive sql_item : Type :=
| Header (category : row) (total_products : nat)
| Comment (text : ustring)
| CreateTables
| InsertCategory (cat : row) (parent_id : value)
| InsertBrand (brand : row)
| InsertProduct (product : row).

(** The [while current:] loop of [_generate_category_insert_sql]: each
    category met on the way up is put at the front of the list. The loop
    runs as long as there is a parent; [None] is a walk that is not over
    after [fuel] steps. *)
Fixpoint collect_categories (fuel : nat) (db : database) (current : option row)
    (categories_to_insert : list row) : option (list row) :=
  match current with
  | None => Some categories_to_insert
  | Some cat =>
      match fuel with
      | O => None
      | S fuel' =>
          collect_categories fuel' db (parent_of db cat) (cat :: categories_to_insert)
      end
  end.

(** The statement for one category: [parent_id] is the key of the parent,
    or the text [NULL]. *)
Definition category_statement (db : database) (cat : row) : sql_item :=
  InsertCategory cat
    (match parent_of db cat with
     | Some p => dict_get p "id"
     | None => VStr (u "NULL")
     end).

(** [_generate_category_insert_sql] *)
Definition generate_category_insert_sql (fuel : nat) (db : database) (category : row)
    : option (list sql_item) :=
  match collect_categories fuel db (Some category) [] with
  | Some categories_to_insert => Some (map (category_statement db) categories_to_insert)
  | None => None
  end.

(** [product.brand] *)
Definition brand_of (db : database) (product : row) : option row :=
  match dict_get product "brand_id" with
  | VNone => None
  | brand_id =>
      match find_row (col_is "id" brand_id) (brands db) with
      | Some (_, b) => Some b
      | None => None
      end
  end.

(** The [set] of the brands of the products, each once; a set has no
    order of its own, the one of first occurrence is taken. *)
Fixpoint brands_of (db : database) (products : list row) (seen : list row) : list row :=
  match products with
  | [] => rev seen
  | p :: rest =>
      match brand_of db p with
      | Some b =>
          if existsb (fun x => value_eqb (dict_get x "id") (dict_get b "id")) seen
          then brands_of db rest seen
          else brands_of db rest (b :: seen)
      | None => brands_of db rest seen
      end
  end.

(** [_write_products_sql_file] *)
Definition write_products_sql_file (fuel : nat) (db : database)
    (products : list row) (category : row) : option (list sql_item) :=
  match generate_category_insert_sql fuel db category with
  | Some category_sql =>
      let brands := brands_of db products [] in
      Some ([ Header category (length products);
              Comment (u "Create tables if they don't exist"); CreateTables;
              Comment (u "Insert category data") ]
            ++ category_sql
            ++ match brands with
               | [] => []
               | _ => Comment (u "Insert brand data") :: map InsertBrand brands
               end
            ++ Comment (u "Insert product data") :: map InsertProduct products
            ++ [ Comment (u "End of export") ])
  | None => None
  end.



(** ** A runtime for the examples

    The tables restricted to Basic Latin and the Vietnamese letters of
    [vietnamese_chars_map]: enough to run the test cases of the
    repository. Whitespace is the full list of [str.isspace]. No example
    prints a float or a date; their texts are placeholders here. *)

Definition latin_space (c : Z) : bool :=
  mem_char [9; 10; 11; 12; 13; 28; 29; 30; 31; 32; 133; 160; 5760;
            8192; 8193; 8194; 8195; 8196; 8197; 8198; 8199; 8200; 8201; 8202;
            8232; 8233; 8239; 8287; 12288] c.

Definition ascii_upper (c : Z) : bool := (65 <=? c) && (c <=? 90).
Definition ascii_lower (c : Z) : bool := (97 <=? c) && (c <=? 122).
Definition ascii_digit (c : Z) : bool := (48 <=? c) && (c <=? 57).

Fixpoint assoc (c : Z) (table : list (Z * Z)) : option Z :=
  match table with
  | [] => None
  | (k, v) :: rest => if c =? k then Some v else assoc c rest
  end.

(** Each uppercase letter of the table with its lowercase letter. *)
Definition vietnamese_case_pairs : list (Z * Z) :=
  combine (map fst vietnamese_upper_map) (map fst vietnamese_lower_map).

Definition latin_lower_char (c : Z) : Z :=
  if ascii_upper c then c + 32
  else match assoc c vietnamese_case_pairs with
       | Some l => l
       | None => c
       end.

Definition latin_word (c : Z) : bool :=
  ascii_upper c || ascii_lower c || ascii_digit c || (c =? 95)
  || match assoc c vietnamese_chars_map with Some _ => true | None => false end.

Definition latin_digit (c : Z) : option Z :=
  if ascii_digit c then Some (c - 48) else None.

Definition decimal_text (z : Z) : ustring :=
  u (DecimalString.NilZero.string_of_int (Z.to_int z)).

Definition latin : Runtime :=
  {| is_space := latin_space;
     is_word := latin_word;
     digit_val := latin_digit;
     str_lower := map latin_lower_char;
     int_repr := decimal_text;
     float_repr := fun q => decimal_text (Qfloor q) ++ u ".0";
     date_repr := decimal_text |}.

(** ** The library functions *)

(** A Python float: a finite number, an infinity or a NaN. The values of
    the model hold finite floats only; the others appear as results of
    [float(s)]. *)
Inductive pyfloat : Type :=
| Finite (q : Q)
| Infinity (negative : bool)
| NaN.

(** The functions of the standard library that the remaining normalizers
    and the validator call: they are a parameter, as the runtime tables
    are. *)
Class Library := {
  (** [float(s)] of a [str]; [None] is a [ValueError] *)
  float_of_str : ustring -> option pyfloat;
  (** [str.upper] *)
  str_upper : ustring -> ustring;
  (** [urlparse(s)]: the scheme and the network location of the result;
      [None] is a [ValueError] *)
  urlparse : ustring -> option (ustring * ustring);
}.

(** ** normalizer.py: numbers *)

Section Numbers.
Context `{Runtime} `{Library}.

(** [x if 0 <= x <= hi else None]; the comparisons fail on an infinity
    and on a NaN. *)
Definition within (hi : Q) (x : pyfloat) : value :=
  match x with
  | Finite q => if Qle_bool 0 q && Qle_bool q hi then VFloat q else VNone
  | _ => VNone
  end.

(** [s.replace(c, '')] for a one-character [c] *)
Definition remove_char (c : Z) (s : ustring) : ustring :=
  List.filter (fun d => negb (d =? c)) s.

(** [normalize_percentage] *)
Definition normalize_percentage (percentage : value) : value :=
  match percentage with
  | VNone => VNone
  | VStr [] => VNone
  | VBool b => within 100 (Finite (if b then 1 else 0))
  | VInt z => within 100 (Finite (inject_Z z))
  | VFloat q => within 100 (Finite q)
  | VStr s =>
      let perc_clean := py_strip (remove_char 37 s) in
      match float_of_str perc_clean with
      | Some perc => within 100 perc
      | None => VNone
      end
  | VDate _ => VNone
  end.

(** [normalize_rating] *)
Definition normalize_rating (rating : value) : value :=
  match rating with
  | VNone => VNone
  | VStr [] => VNone
  | VBool b => within 5 (Finite (if b then 1 else 0))
  | VInt z => within 5 (Finite (inject_Z z))
  | VFloat q => within 5 (Finite q)
  | VStr s =>
      match float_of_str (py_strip s) with
      | Some rating_val => within 5 rating_val
      | None => VNone
      end
  | VDate _ => VNone
  end.

(** [int(x)] of a finite float: the fraction is dropped. *)
Definition truncate (q : Q) : Z :=
  if Qle_bool 0 q then Qfloor q else Qceiling q.

(** [normalize_integer]. [max(0, value)] answers its first argument
    unless the second is larger, so [True] is answered as it is ([val] is the
    parameter [value] of the source); [int] of
    an infinity is an [OverflowError] and of a NaN a [ValueError], and
    both end in [0]. *)
Definition normalize_integer (val : value) : value :=
  match val with
  | VNone => VInt 0
  | VStr [] => VInt 0
  | VBool b => if b then VBool true else VInt 0
  | VInt z => VInt (Z.max 0 z)
  | VFloat _ | VStr _ =>
      match float_of_str (remove_char 44 (py_str val)) with
      | Some (Finite q) => VInt (Z.max 0 (truncate q))
      | _ => VInt 0
      end
  | VDate _ => VInt 0
  end.

(** [normalize_boolean] *)
Definition true_words : list ustring :=
  [u "true"; u "1"; u "yes"; u "on"; u "active"].

Definition normalize_boolean (val : value) : bool :=
  match val with
  | VBool b => b
  | VStr s => bool_decide (str_lower s ∈ true_words)
  | VInt z => negb (z =? 0)
  | VFloat q => negb (Qeq_bool q 0)
  | _ => false
  end.

(** [re.sub(r'[^A-Z0-9\-_]', '', s)] *)
Definition sku_keep (c : Z) : bool :=
  ((65 <=? c) && (c <=? 90)) || ((48 <=? c) && (c <=? 57)) || (c =? 45) || (c =? 95).

(** [normalize_sku] *)
Definition normalize_sku (sku : value) : ustring :=
  if negb (truthy sku) then []
  else
    let sku_str := str_upper (py_strip (py_str sku)) in
    List.filter sku_keep sku_str.

(** [key in text] for two strings *)
Fixpoint is_infix (key text : ustring) : bool :=
  starts_with key text
  || match text with
     | [] => false
     | _ :: rest => is_infix key rest
     end.

(** The dictionary of [normalize_availability], in the order of the
    literal. *)
Definition availability_map : list (ustring * ustring) :=
  [ (u "in_stock", u "in_stock");
    (u "instock", u "in_stock");
    (u "available", u "in_stock");
    ([99; 243; 32; 115; 7861; 110], u "in_stock");
    ([99; 242; 110; 32; 104; 224; 110; 103], u "in_stock");
    (u "out_of_stock", u "out_of_stock");
    (u "outofstock", u "out_of_stock");
    (u "unavailable", u "out_of_stock");
    ([104; 7871; 116; 32; 104; 224; 110; 103], u "out_of_stock");
    ([110; 103; 7915; 110; 103; 32; 98; 225; 110], u "out_of_stock");
    (u "pre_order", u "pre_order");
    (u "preorder", u "pre_order");
    ([273; 7863; 116; 32; 116; 114; 432; 7899; 99], u "pre_order") ].

(** [d[k]] when [k in d], and the first item whose key is found in the
    text. *)
Fixpoint exact_match (table : list (ustring * ustring)) (text : ustring) : option ustring :=
  match table with
  | [] => None
  | (key, v) :: rest => if bool_decide (key = text) then Some v else exact_match rest text
  end.

Fixpoint partial_match (table : list (ustring * ustring)) (text : ustring) : option ustring :=
  match table with
  | [] => None
  | (key, v) :: rest => if is_infix key text then Some v else partial_match rest text
  end.

(** [normalize_availability] *)
Definition normalize_availability (availability : value) : ustring :=
  if negb (truthy availability) then u "unknown"
  else
    let avail_str := str_lower (py_strip (py_str availability)) in
    match exact_match availability_map avail_str with
    | Some v => v
    | None =>
        match partial_match availability_map avail_str with
        | Some v => v
        | None => u "unknown"
        end
    end.

(** ** normalizer.py: the validator *)

(** [_is_valid_url]. [urlparse] of a value that is not a string raises,
    and every exception is answered with [False]. *)
Definition is_valid_url (url : value) : bool :=
  match url with
  | VStr s =>
      match urlparse s with
      | Some (scheme, netloc) =>
          (bool_decide (scheme = u "http") || bool_decide (scheme = u "https")
           || starts_with (u "/") s)
          && (truthy (VStr netloc) || starts_with (u "/") s)
      | None => false
      end
  | _ => false
  end.

(** The dictionary that [validate_normalized_product] answers. *)
Record validation := {
  is_valid : bool;
  validation_errors : list ustring;
  validation_warnings : list ustring;
}.

(** [isinstance(x, (int, float))] *)
Definition is_number (v : value) : bool :=
  match v with VBool _ | VInt _ | VFloat _ => true | _ => false end.

(** The number a numeric value stands for in a comparison. *)
Definition number_of (v : value) : Q :=
  match v with
  | VBool b => if b then 1 else 0
  | VInt z => inject_Z z
  | VFloat q => q
  | _ => 0
  end.

Definition required_fields : list string := ["name"; "slug"; "url"]%string.

(** [validate_normalized_product] *)
Definition validate_normalized_product (product : gmap string value) : validation :=
  let missing :=
    List.filter (fun field => negb (truthy (dict_get product field))) required_fields in
  let errors := map (fun field => u "Missing required field: " ++ u field) missing in
  let valid := match missing with [] => true | _ => false end in
  let '(valid, errors) :=
    if truthy (dict_get product "url") && negb (is_valid_url (dict_get product "url"))
    then (false, errors ++ [u "Invalid URL: " ++ py_str (dict_get product "url")])
    else (valid, errors) in
  let warnings := [] in
  let price := dict_get product "price" in
  let warnings :=
    if is_not_none price
       && (negb (is_number price) || negb (Qle_bool 0 (number_of price)))
    then warnings ++ [u "Invalid price: " ++ py_str price]
    else warnings in
  let rating := dict_get product "rating" in
  let warnings :=
    if is_not_none rating
       && (negb (is_number rating)
           || negb (Qle_bool 0 (number_of rating) && Qle_bool (number_of rating) 5))
    then warnings ++ [u "Invalid rating: " ++ py_str rating]
    else warnings in
  {| is_valid := valid; validation_errors := errors; validation_warnings := warnings |}.

(** The methods of [DataNormalizer] as the normalizers of a record.
    [normalize_text] and [normalize_images] are left as they come: what
    follows does not depend on them. *)
Definition data_normalizer (normalize_text normalize_images : value -> result value)
    : field_normalizers :=
  {| nf_text := normalize_text;
     nf_slug := fun v => Returns (VStr (normalize_slug v));
     nf_url := fun v => Returns (VStr (normalize_url v));
     nf_price := fun v => Returns (normalize_price v);
     nf_percentage := fun v => Returns (normalize_percentage v);
     nf_sku := fun v => Returns (VStr (normalize_sku v));
     nf_availability := fun v => Returns (VStr (normalize_availability v));
     nf_rating := fun v => Returns (normalize_rating v);
     nf_integer := fun v => Returns (normalize_integer v);
     nf_images := normalize_images;
     nf_boolean := fun v => Returns (VBool (normalize_boolean v)) |}.

End Numbers.

(** ** A library for the examples

    Decimal numerals with an optional sign for [float], the letters of the
    example runtime for [str.upper], and for [urlparse] the scheme before
    the first colon and the host after [//]. *)

Definition vietnamese_upper_pairs : list (Z * Z) :=
  combine (map fst vietnamese_lower_map) (map fst vietnamese_upper_map).

Definition latin_upper_char (c : Z) : Z :=
  if ascii_lower c then c - 32
  else match assoc c vietnamese_upper_pairs with
       | Some l => l
       | None => c
       end.

Definition latin_float (s : ustring) : option pyfloat :=
  match strip_by latin_space s with
  | 45 :: digits => (fun q => Finite (- q)) <$> @float_of_clean latin digits
  | 43 :: digits => Finite <$> @float_of_clean latin digits
  | digits => Finite <$> @float_of_clean latin digits
  end.

Fixpoint split_at (stop : Z -> bool) (s : ustring) : ustring * option ustring :=
  match s with
  | [] => ([], None)
  | c :: s' =>
      if stop c then ([], Some s')
      else let '(a, b) := split_at stop s' in (c :: a, b)
  end.

Definition scheme_char (c : Z) : bool :=
  ascii_lower c || ascii_upper c || ascii_digit c || mem_char (u "+-.") c.

Definition latin_urlparse (s : ustring) : option (ustring * ustring) :=
  let '(scheme, rest) :=
    match split_at (Z.eqb 58) s with
    | (c :: pre, Some rest) =>
        if (ascii_lower c || ascii_upper c) && forallb scheme_char pre
        then (map latin_lower_char (c :: pre), rest)
        else ([], s)
    | _ => ([], s)
    end in
  let netloc :=
    match rest with
    | 47 :: 47 :: after => fst (split_at (mem_char (u "/?#")) after)
    | _ => []
    end in
  Some (scheme, netloc).

Definition latin_library : Library :=
  {| float_of_str := latin_float;
     str_upper := map latin_upper_char;
     urlparse := latin_urlparse |}.

(** ** category_discovery.py: slugs *)

Section Discovery.
Context `{Runtime}.

(** [CategoryDiscovery._generate_slug]. Its table is the lowercase half of
    the normalizer's, item for item. *)
Definition generate_slug (text : ustring) : ustring :=
  let slug := str_lower text in
  let slug := replace_all vietnamese_lower_map slug in
  let slug := drop_special slug in
  let slug := collapse_seps slug in
  let slug := py_strip_chars (u "-") slug in
  match slug with
  | [] => u "unknown"
  | _ => slug
  end.

End Discovery.

(** ** database.py: queries *)

(** [get_category_by_slug] and [get_brand_by_slug] *)
Definition get_category_by_slug (slug : ustring) (db : database) : option row :=
  snd <$> find_row (col_is "slug" (VStr slug)) (categories db).

Definition get_brand_by_slug (slug : ustring) (db : database) : option row :=
  snd <$> find_row (col_is "slug" (VStr slug)) (brands db).

(** [check_product_exists] *)
Definition check_product_exists (slug : ustring) (db : database) : bool :=
  match find_row (col_is "slug" (VStr slug)) (products db) with
  | Some _ => true
  | None => false
  end.

(** [Product.updated_at >= since_date]; a comparison with NULL selects
    nothing. *)
Definition not_before (since_date : Z) (v : value) : bool :=
  match v with
  | VDate t => since_date <=? t
  | _ => false
  end.

(** [get_products_modified_since] *)
Definition get_products_modified_since (since_date : Z) (db : database) : list row :=
  List.filter (fun r => not_before since_date (dict_get r "updated_at")) (products db).

(** ** exporter.py: string literals and the products of a category *)

(** [value.replace("'", "''")] *)
Definition double_quotes (s : ustring) : ustring :=
  flat_map (fun c => if c =? 39 then [39; 39] else [c]) s.

(** [_escape_sql_string]: a falsy value gives the empty literal; a truthy
    number has no [replace], and the [replace] of a [datetime] takes no
    strings. *)
Definition escape_sql_string (v : value) : result ustring :=
  if negb (truthy v) then Returns (u "''")
  else
    match v with
    | VStr s => Returns (39 :: double_quotes s ++ [39])
    | VDate _ => Raises (Exception "TypeError" (u "replace"))
    | _ => Raises (AttributeError "replace")
    end.

(** [category.children]: the categories whose [parent_id] is the key of
    the category. *)
Definition children_of (db : database) (category : row) : list row :=
  match dict_get category "id" with
  | VNone => []
  | id => List.filter (col_is "parent_id" id) (categories db)
  end.

(** [_get_category_products_direct] *)
Definition get_category_products_direct (db : database) (category : row) : list row :=
  List.filter (col_is "category_id" (dict_get category "id")) (products db).

(** [products.extend(sub_products)] for each subcategory in turn; a call
    that does not return stops the loop. *)
Fixpoint extend_all (products : list row) (subs : list (option (list row)))
    : option (list row) :=
  match subs with
  | [] => Some products
  | Some sub_products :: rest => extend_all (products ++ sub_products) rest
  | None :: _ => None
  end.

(** [_get_category_products_recursive]; [None] is a recursion that is not
    over at depth [fuel]. *)
Fixpoint get_category_products_recursive (fuel : nat) (db : database) (category : row)
    : option (list row) :=
  match fuel with
  | O => None
  | S fuel' =>
      extend_all (get_category_products_direct db category)
        (map (get_category_products_recursive fuel' db) (children_of db category))
  end.

(** ** crawler.py: a batch of products *)

Section Batch.
Context `{Runtime} `{Library}.

(** [product_data['category_name'] = product_data.get('category_name', '')] *)
Definition with_category_name (product_data : gmap string value) : gmap string value :=
  <["category_name" := dict_get_or product_data "category_name" (VStr [])]> product_data.

(** [_process_products_batch]. [N] is the normalizer of the crawler,
    [errors] the counter [self.stats['errors']], and [clock n] the time at
    which the record at position [n] is handled. The answer is the
    database, the counter and the list [processed_products]. *)
Fixpoint process_products_batch (N : field_normalizers) (clock : nat -> Z) (n : nat)
    (products_data : list (gmap string value)) (errors : Z) (db : database)
    : database * Z * list (row * bool) :=
  match products_data with
  | [] => (db, errors, [])
  | product_data :: rest =>
      let product_data := with_category_name product_data in
      match normalize_product N product_data with
      | Raises _ => process_products_batch N clock (S n) rest (errors + 1) db
      | Returns normalized_product =>
          let validation_result := validate_normalized_product normalized_product in
          if negb (is_valid validation_result)
          then process_products_batch N clock (S n) rest errors db
          else
            match upsert_product (clock n) normalized_product db with
            | (db', Returns (product, was_created)) =>
                let '(db'', errors', processed_products) :=
                  process_products_batch N clock (S n) rest errors db' in
                (db'', errors', (product, was_created) :: processed_products)
            | (db', Raises _) =>
                process_products_batch N clock (S n) rest (errors + 1) db'
            end
      end
  end.

End Batch.

(** ** list_parser.py: the pages of a category *)

(** What the site answers: the products that [_parse_single_page] reads
    from a page, or the exception it raises, and what [_has_next_page]
    finds there. The first argument is the number of the page being
    handled: the site may answer the same address differently later. *)
Record site := {
  parse_single_page : Z -> ustring -> result (list (gmap string value));
  has_next_page : Z -> ustring -> bool;
}.

Section Pages.
Context `{Runtime}.

(** [_get_page_url] *)
Definition get_page_url (base_url : ustring) (page : Z) : ustring :=
  if page =? 1 then base_url
  else if is_infix (u "?") base_url
       then base_url ++ u "&page=" ++ int_repr page
       else base_url ++ u "?page=" ++ int_repr page.

(** [max_pages and current_page >= max_pages] *)
Definition reached_max_pages (max_pages : option Z) (current_page : Z) : bool :=
  match max_pages with
  | Some m => negb (m =? 0) && (m <=? current_page)
  | None => false
  end.

(** The loop of [parse_category_page]; an exception ends it with the
    products read so far. [None]: the loop has not ended after [fuel]
    pages. *)
Fixpoint parse_pages (fuel : nat) (s : site) (category_url : ustring)
    (max_pages : option Z) (current_page : Z) (products : list (gmap string value))
    : option (list (gmap string value)) :=
  match fuel with
  | O => None
  | S fuel' =>
      let page_url := get_page_url category_url current_page in
      match parse_single_page s current_page page_url with
      | Raises _ => Some products
      | Returns [] => Some products
      | Returns page_products =>
          let products := products ++ page_products in
          if reached_max_pages max_pages current_page then Some products
          else if negb (has_next_page s current_page page_url) then Some products
          else parse_pages fuel' s category_url max_pages (current_page + 1) products
      end
  end.

(** [parse_category_page] *)
Definition parse_category_page (fuel : nat) (s : site) (category_url : ustring)
    (max_pages : option Z) : option (list (gmap string value)) :=
  parse_pages fuel s category_url max_pages 1 [].

End Pages.

(** ** category_discovery.py: links *)

(** A link of the page: [link.get('href', '')] and [link.get_text()]. *)
Record link := {
  href : ustring;
  get_text : ustring;
}.

Section Links.
Context `{Runtime}.
(** [urljoin(base, url)], [None] when it raises. *)
Variable urljoin : ustring -> ustring -> option ustring.

Definition skip_patterns : list ustring :=
  map u [ "javascript:"; "mailto:"; "tel:"; "#"; "/search"; "/contact";
          "/about"; "/blog"; "/news" ]%string.

(** The body of the loop of [_extract_categories_from_links]: the category
    of a link, or [None] when the link is skipped. *)
Definition category_of_link (base_url : ustring) (l : link)
    : option (gmap string value) :=
  let href := href l in
  let text := py_strip (get_text l) in
  if negb (truthy (VStr href)) || negb (truthy (VStr text))
     || (200 <? Z.of_nat (length text))
  then None
  else if existsb (fun pattern => is_infix pattern (str_lower href)) skip_patterns
  then None
  else
    let slug := generate_slug text in
    match urljoin base_url href with
    | None => None
    | Some full_url =>
        Some (list_to_map
                [ ("name", VStr text); ("slug", VStr slug); ("url", VStr href);
                  ("full_url", VStr full_url) ]%string)
    end.

(** [_extract_categories_from_links] *)
Definition extract_categories_from_links (base_url : ustring) (links : list link)
    : list (gmap string value) :=
  omap (category_of_link base_url) links.

(** The loop that removes the duplicates in
    [_get_main_navigation_categories]; [seen] is the set of the slugs
    met. A category without a slug raises [KeyError]. *)
Fixpoint unique_categories (seen : list value) (categories : list (gmap string value))
    : result (list (gmap string value)) :=
  match categories with
  | [] => Returns []
  | cat :: rest =>
      try! key <- dict_item cat "slug";
      if existsb (value_eqb key) seen
      then unique_categories seen rest
      else
        try! unique <- unique_categories (key :: seen) rest;
        Returns (cat :: unique)
  end.

End Links.

(** * Part II: the vocabulary of the statements

    What the theorems of the last part say, in terms of the model, and the
    data of the examples. *)

(** The records a batch has accounted for. *)
Definition tally (stats : bulk_stats) : Z :=
  created stats + updated stats + errors stats.

(** The parents of a category, the root first. *)
Inductive lineage (db : database) : row -> list row -> Prop :=
| lineage_root c : parent_of db c = None -> lineage db c []
| lineage_child c p l :
    parent_of db c = Some p -> lineage db p l -> lineage db c (l ++ [p]).





(** What the loop over the items of a dictionary leaves in the object. *)
Definition assigned (s : schema) (keep : string -> value -> bool)
    (data : gmap string value) (obj : row) (col : string) : option value :=
  match data !! col with
  | Some v => if keep col v && mem_string col (columns s) then Some v else obj !! col
  | None => obj !! col
  end.

(** The loop meets a relationship attribute that it would assign. *)
Definition hits_relationship (s : schema) (keep : string -> value -> bool)
    (data : gmap string value) : Prop :=
  exists k v, data !! k = Some v /\ keep k v = true
              /\ mem_string k (relationships s) = true.

(** The row a category or brand upsert stores over [old]. *)
Definition stored_over (s : schema) (now : Z) (data : gmap string value)
    (old : row) (col : string) : option value :=
  if String.eqb col "updated_at" then Some (VDate now)
  else assigned s keep_truthy_not_slug data old col.

(** The row a product upsert stores over [old]; [category] and [brand]
    are what the names of the payload resolved to. *)
Definition product_stored_over (now : Z) (data : gmap string value)
    (category brand : option row) (old : row) (col : string) : option value :=
  if String.eqb col "updated_at" then Some (VDate now)
  else if String.eqb col "brand_id" then
    match brand with Some b => Some (dict_get b "id") | None => old !! col end
  else if String.eqb col "category_id" then
    match category with Some c => Some (dict_get c "id") | None => old !! col end
  else assigned product_schema keep_product_field data old col.



(** The required fields of [validate_normalized_product]. *)
Definition has_required_fields (data : gmap string value) : Prop :=
  truthy (dict_get data "name") = true
  /\ truthy (dict_get data "slug") = true
  /\ truthy (dict_get data "url") = true.

(** The last character of a string, if any, fails [p]. *)
Fixpoint last_fails (p : Z -> bool) (s : ustring) : Prop :=
  match s with
  | [] => True
  | [c] => p c = false
  | _ :: t => last_fails p t
  end.

(** What the replacements of the table make of one character. *)
Definition translit (table : list (Z * Z)) (c : Z) : Z :=
  fold_left (fun c p => if c =? fst p then snd p else c) table c.

(** No replacement of the table is itself a key of the table. *)
Definition closed_table (table : list (Z * Z)) : Prop :=
  forall k e, In (k, e) table -> assoc e table = None.

(** The characters that [strip('-')] removes. *)
Definition is_hyphen : Z -> bool := mem_char (u "-").

Section SlugVocabulary.
Context `{Runtime}.

(** The facts of the Unicode tables that the idempotence of
    [normalize_slug] rests on. *)
Record unicode_facts : Prop := {
  (** [str.lower] answers characters that lowercasing leaves alone *)
  lower_chars_fixed : forall s c, In c (str_lower s) -> lower_fixed c;
  (** and leaves a string of such characters alone *)
  lower_of_fixed : forall s, Forall lower_fixed s -> str_lower s = s;
  (** the lowercase ASCII letters and the hyphen are such characters *)
  ascii_lower_fixed : forall c, 97 <= c <= 122 \/ c = 45 -> lower_fixed c;
  (** the uppercase letters of the table are not *)
  upper_keys_not_fixed : forall k e, In (k, e) vietnamese_upper_map -> ~ lower_fixed k;
  (** the lowercase ASCII letters are word characters and not whitespace *)
  ascii_lower_word : forall c, 97 <= c <= 122 -> is_word c = true /\ is_space c = false;
  (** the slash is not a word character, the space is whitespace *)
  slash_not_word : is_word 47 = false;
  space_is_space : is_space 32 = true;
}.

(** No two hyphens in a row, and no other separator; [after_hyphen] says
    that the string follows a hyphen. *)
Fixpoint hyphenated (after_hyphen : bool) (s : ustring) : Prop :=
  match s with
  | [] => True
  | c :: t =>
      if c =? 45 then after_hyphen = false /\ hyphenated true t
      else slug_sep c = false /\ hyphenated false t
  end.

(** A character of a finished slug other than the hyphen. *)
Definition plain (c : Z) : Prop :=
  (c =? 45) = false /\ is_space c = false /\ is_word c = true
  /\ lower_fixed c /\ assoc c vietnamese_chars_map = None.

(** A character of a finished slug. *)
Definition slug_char (c : Z) : Prop := c = 45 \/ plain c.

(** The shape of a slug: not empty, plain characters and single hyphens,
    no hyphen at either end. *)
Definition canonical (s : ustring) : Prop :=
  Forall slug_char s /\ hyphenated false s
  /\ (exists c t, s = c :: t /\ (c =? 45) = false)
  /\ last_fails (fun c => c =? 45) s.


End SlugVocabulary.

(** ** The data of the examples *)

(** "Son môi" and the currency sign of "299,000đ". *)
Definition son_moi : ustring := u "Son m" ++ [244] ++ u "i".

Definition dong : ustring := [273].

(** A step that throws in the middle of the record: the fields already
    normalized are dropped. *)
Definition echo_normalizers : field_normalizers :=
  {| nf_text := Returns; nf_slug := Returns; nf_url := Returns;
     nf_price := fun _ => Raises (ValueError (u "price"));
     nf_percentage := Returns; nf_sku := Returns; nf_availability := Returns;
     nf_rating := Returns; nf_integer := Returns; nf_images := Returns;
     nf_boolean := Returns |}.


(** A batch of two on an empty database: the first record has no slug and
    fails, the second is created. *)
Definition product_without_slug : gmap string value :=
  {[ "name" := VStr (u "Kem") ]}.

Definition product_son : gmap string value :=
  list_to_map
    [ ("name", VStr (u "Son Maybelline")); ("slug", VStr (u "son-maybelline"));
      ("url", VStr (u "/san-pham/son-maybelline"));
      ("category_name", VStr son_moi) ]%string.

(** The two categories of the database tests: "Son môi" and its child. *)
Definition category_son_moi : gmap string value :=
  list_to_map
    [ ("name", VStr son_moi); ("slug", VStr (u "son-moi"));
      ("url", VStr (u "/danh-muc/son-moi")) ]%string.

Definition category_son_li : gmap string value :=
  list_to_map
    [ ("name", VStr (u "Son l" ++ [236])); ("slug", VStr (u "son-li"));
      ("url", VStr (u "/danh-muc/son-li"));
      ("parent_slug", VStr (u "son-moi")) ]%string.

Definition two_categories : database := Eval vm_compute in
  fst (upsert_category 20 category_son_li
         (fst (upsert_category 10 category_son_moi empty_database))).

Definition row_son_moi : row := Eval vm_compute in
  default ∅ (categories two_categories !! 0%nat).

Definition row_son_li : row := Eval vm_compute in
  default ∅ (categories two_categories !! 1%nat).

(** A crawl whose page fetch fails after a category was saved. *)
Definition failing_fetch_steps : crawl_steps :=
  fun db stats =>
    (fst (upsert_category 5 category_son_moi db), stats,
     Raises (Exception "ConnectionError" (u "Network error"))).

(** A product stored with a description, then upserted again with an
    empty one. *)
Definition product_son_described : gmap string value :=
  <["description" := VStr (u "Long lasting")]> product_son.

Definition product_son_blank : gmap string value :=
  <["description" := VStr []]> product_son.

Definition one_product : database := Eval vm_compute in
  fst (@upsert_product latin 1 product_son_described empty_database).


Definition blank_upsert : database * result (row * bool) := Eval vm_compute in
  @upsert_product latin 2 product_son_blank one_product.

Definition blanked_son : row := Eval vm_compute in
  match snd blank_upsert with Returns (r, _) => r | Raises _ => ∅ end.

(** A record as [normalize_product] writes it, with all its keys. *)
Definition normalized_son (category_name : ustring) : gmap string value :=
  list_to_map
    [ ("name", VStr (u "Son Maybelline Super Stay"));
      ("slug", VStr (u "son-moi-maybelline-super-stay"));
      ("url", VStr (u "/san-pham/son-moi-maybelline-super-stay"));
      ("description", VStr []); ("price", VFloat 299000);
      ("original_price", VNone); ("discount_percentage", VNone);
      ("sku", VStr []); ("availability", VStr (u "unknown"));
      ("rating", VNone); ("review_count", VInt 0);
      ("image_url", VStr []); ("images", VStr []);
      ("ingredients", VStr []); ("usage_instructions", VStr []);
      ("brand_name", VStr []);
      ("is_featured", VBool false); ("is_bestseller", VBool false);
      ("is_new", VBool false); ("is_sale", VBool false);
      ("category_name", VStr category_name) ]%string.

(** ** The vocabulary of the further properties *)

Section LibraryVocabulary.
Context `{Runtime} `{Library}.

(** What the idempotence of [normalize_sku] uses of the tables: uppercasing
    leaves the characters of a SKU alone, and none of them is whitespace. *)
Record sku_facts : Prop := {
  upper_of_sku : forall s, Forall (fun c => sku_keep c = true) s -> str_upper s = s;
  sku_not_space : forall c, sku_keep c = true -> is_space c = false;
}.

(** The digits of the runtime stand for natural numbers. *)
Definition digits_are_naturals : Prop :=
  forall c d, digit_val c = Some d -> 0 <= d.

(** The record does not pass the validation of the batch. *)
Definition rejected (N : field_normalizers) (product_data : gmap string value) : Prop :=
  exists normalized,
    normalize_product N (with_category_name product_data) = Returns normalized
    /\ is_valid (validate_normalized_product normalized) = false.

(** The products of page [page], nothing when reading it fails. *)
Definition page_products (s : site) (category_url : ustring) (page : nat)
    : list (gmap string value) :=
  match parse_single_page s (Z.of_nat page)
          (get_page_url category_url (Z.of_nat page)) with
  | Returns products => products
  | Raises _ => []
  end.

End LibraryVocabulary.

(** The four answers of [normalize_availability]. *)
Definition availability_values : list ustring :=
  [u "in_stock"; u "out_of_stock"; u "pre_order"; u "unknown"].

(** The value raises no warning of the validator: it is [None] or a number
    that is not negative and, for a rating, at most 5. *)
Definition no_warning (lo_only : bool) (v : value) : Prop :=
  v = VNone \/ exists q, v = VFloat q /\ (0 <= q)%Q /\ (lo_only = false -> (q <= 5)%Q).

(** What an upsert of a category or a brand does to its table: nothing,
    one row more, or one row replaced by a row with the same slug. *)
Definition table_step (rows rows' : list row) : Prop :=
  rows' = rows
  \/ (exists r, rows' = rows ++ [r]
                /\ find_row (col_is "slug" (dict_get r "slug")) rows = None)
  \/ (exists i old r, rows !! i = Some old /\ rows' = <[i := r]> rows
                      /\ r !! "slug" = old !! "slug").

(** No two rows of a table hold the same value in column [col]. *)
Definition distinct_on (col : string) (rows : list row) : Prop :=
  forall i j ri rj,
    rows !! i = Some ri -> rows !! j = Some rj ->
    value_eqb (dict_get ri col) (dict_get rj col) = true -> i = j.

(** Slugs identify the rows of the three tables. *)
Definition slugs_distinct (db : database) : Prop :=
  distinct_on "slug" (categories db)
  /\ distinct_on "slug" (brands db)
  /\ distinct_on "slug" (products db).

(** How SQL reads a string literal: the characters after the opening
    quote up to the first quote that is not doubled, a doubled quote
    standing for one quote; the answer is the string and the text that
    follows the literal. *)
Fixpoint read_sql_chars (s : ustring) : option (ustring * ustring) :=
  match s with
  | [] => None
  | c :: t =>
      if c =? 39 then
        match t with
        | d :: t' =>
            if d =? 39
            then match read_sql_chars t' with
                 | Some (v, rest) => Some (39 :: v, rest)
                 | None => None
                 end
            else Some ([], t)
        | [] => Some ([], [])
        end
      else match read_sql_chars t with
           | Some (v, rest) => Some (c :: v, rest)
           | None => None
           end
  end.

Definition read_sql_string (s : ustring) : option (ustring * ustring) :=
  match s with
  | c :: t => if c =? 39 then read_sql_chars t else None
  | [] => None
  end.

(** [d] is [c] or one of the categories below it. *)
Inductive in_subtree (db : database) : row -> row -> Prop :=
| in_subtree_self c : in_subtree db c c
| in_subtree_child d sub c :
    In sub (children_of db c) -> in_subtree db d sub -> in_subtree db d c.

(** The tree below [c] has at most [n] levels. *)
Inductive levels (db : database) : row -> nat -> Prop :=
| levels_intro c n :
    (forall sub, In sub (children_of db c) -> levels db sub n) -> levels db c (S n).

(** ** The data of the further examples *)

(** The database with the root category only. *)
Definition root_category : database := Eval vm_compute in
  fst (upsert_category 10 category_son_moi empty_database).

(** A product with a brand, stored on an empty database, and the file of
    its category. *)
Definition product_son_branded : gmap string value :=
  <["brand_name" := VStr (u "Maybelline")]> product_son.

Definition branded_product : database := Eval vm_compute in
  fst (@upsert_product latin 1 product_son_branded empty_database).

Definition stored_branded : row := Eval vm_compute in
  default ∅ (products branded_product !! 0%nat).

Definition branded_category : row := Eval vm_compute in
  default ∅ (categories branded_product !! 0%nat).

Definition branded_brand : row := Eval vm_compute in
  default ∅ (brands branded_product !! 0%nat).

Definition branded_file : list sql_item := Eval vm_compute in
  default [] (write_products_sql_file 1 branded_product [stored_branded] branded_category).

(** A site on which every page holds one product and a link to the next
    page. *)
Definition endless_site : site :=
  {| parse_single_page := fun _ _ => Returns [product_son];
     has_next_page := fun _ _ => true |}.

(** Two links with the same text, and one to skip. *)
Definition navigation_links : list link :=
  [ {| href := u "/danh-muc/son-moi"; get_text := u " Son Moi " |};
    {| href := u "/c/son-moi"; get_text := u "Son moi" |};
    {| href := u "/contact"; get_text := u "Contact" |} ].

(** * Part III: properties *)

(** ** Test cases of the repository, run on the model *)

Example slug_son_moi : @normalize_slug latin (VStr son_moi) = u "son-moi".
Proof. vm_compute. reflexivity. Qed.

Example slug_extra_spaces :
  @normalize_slug latin (VStr (u "  Extra  Spaces  ")) = u "extra-spaces".
Proof. vm_compute. reflexivity. Qed.

Example slug_special_characters :
  @normalize_slug latin (VStr (u "Special!@#$%Characters")) = u "specialcharacters".
Proof. vm_compute. reflexivity. Qed.

Example price_with_comma :
  @normalize_price latin (VStr (u "299,000")) = VFloat 299000.
Proof. vm_compute. reflexivity. Qed.

Example price_invalid : @normalize_price latin (VStr (u "invalid")) = VNone.
Proof. vm_compute. reflexivity. Qed.

(** ** normalize_product *)

Lemma Returns_inj {A} (a b : A) : Returns a = Returns b -> a = b.
Proof. congruence. Qed.

Lemma bind_returns {A B} (r : result A) (k : A -> result B) (b : B) :
  bind r k = Returns b -> exists a, r = Returns a /\ k a = Returns b.
Proof. destruct r as [a|e]; simpl; [eauto | discriminate]. Qed.

Lemma normalize_product_body_keys (N : field_normalizers) (raw d : gmap string value) :
  normalize_product_body N raw = Returns d ->
  Forall (fun k => is_Some (d !! k)) product_keys.
Proof.
  unfold normalize_product_body. intros Hbody.
  repeat match type of Hbody with
         | bind _ _ = Returns _ =>
             apply bind_returns in Hbody; destruct Hbody as (? & _ & Hbody)
         end.
  apply Returns_inj in Hbody. subst d.
  unfold product_keys.
  repeat constructor;
    repeat first [ rewrite lookup_insert_eq | rewrite lookup_insert_ne by discriminate ];
    eauto.
Qed.

(** C10. [normalize_product] never raises, whatever the per-field
    normalizers do: when one of them throws, the answer is the empty
    dictionary, and otherwise it is the record built by the [try] block,
    with every one of its keys; no partial record is ever answered. *)
Theorem normalize_product_never_raises (N : field_normalizers) (raw : gmap string value) :
  exists d : gmap string value,
    normalize_product N raw = Returns d
    /\ ((exists e, normalize_product_body N raw = Raises e) /\ d = ∅
        \/ normalize_product_body N raw = Returns d
           /\ Forall (fun k => is_Some (d !! k)) product_keys).
Proof.
  unfold normalize_product.
  destruct (normalize_product_body N raw) as [d|e] eqn:Hbody.
  - exists d. split; [reflexivity|]. right. split; [reflexivity|].
    eapply normalize_product_body_keys; eassumption.
  - exists ∅. split; [reflexivity|]. left. eauto.
Qed.

Example normalize_product_throwing_step :
  normalize_product echo_normalizers {[ "name" := VStr (u "Son") ]} = Returns ∅.
Proof. reflexivity. Qed.

(** ** Prices *)

Section PriceFacts.
Context `{Runtime}.

Lemma normalize_price_negative_int (z : Z) :
  z < 0 -> normalize_price (VInt z) = VNone.
Proof.
  intros Hz. simpl. destruct (0 <=? z) eqn:E; [|reflexivity].
  apply Z.leb_le in E. lia.
Qed.

Lemma normalize_price_negative_float (q : Q) :
  (q < 0)%Q -> normalize_price (VFloat q) = VNone.
Proof.
  intros Hq. simpl. destruct (Qle_bool 0 q) eqn:E; [|reflexivity].
  apply Qle_bool_iff in E. exfalso. exact (Qlt_not_le _ _ Hq E).
Qed.

(** Without a digit, cleaning leaves periods only. *)
Lemma price_clean_no_digit (s : ustring) :
  Forall (fun c => is_digit c = false) s ->
  Forall (fun c => c = 46 /\ is_digit c = false) (price_clean s).
Proof.
  unfold price_clean, remove_commas. induction 1 as [|c s Hc Hs IH]; simpl.
  - constructor.
  - destruct (c =? 44) eqn:E44; simpl; [exact IH|].
    unfold price_keep at 1. rewrite Hc, E44. simpl.
    destruct (c =? 46) eqn:E46; simpl; [|exact IH].
    constructor; [|exact IH]. apply Z.eqb_eq in E46. auto.
Qed.

Lemma float_of_clean_periods (s : ustring) :
  Forall (fun c => c = 46 /\ is_digit c = false) s -> float_of_clean s = None.
Proof.
  intros Hs. unfold float_of_clean.
  destruct Hs as [|c s [-> Hc] Hs]; [reflexivity|]. simpl.
  destruct Hs as [|d s [-> Hd] Hs]; [reflexivity|]. simpl.
  unfold is_digit in Hd. destruct (digit_val 46); [discriminate|]. reflexivity.
Qed.

(** A string without any digit is not a price. *)
Lemma normalize_price_no_digit (s : ustring) :
  Forall (fun c => is_digit c = false) s -> normalize_price (VStr s) = VNone.
Proof.
  intros Hs. destruct s as [|c s]; [reflexivity|].
  unfold normalize_price.
  pose proof (price_clean_no_digit _ Hs) as Hclean.
  destruct (price_clean (c :: s)) as [|d cleaned]; [reflexivity|].
  rewrite (float_of_clean_periods _ Hclean). reflexivity.
Qed.

(** The price parsers of the two page parsers agree with each other. *)
Lemma list_parse_price_eq (s : ustring) :
  list_parse_price s = match s with [] => None | _ => float_of_clean (price_clean s) end.
Proof.
  unfold list_parse_price. destruct s; [reflexivity|].
  destruct (mem_char _ 46); [|reflexivity].
  destruct (float_of_clean _); reflexivity.
Qed.

Lemma detail_parse_price_eq (s : ustring) :
  detail_parse_price s = list_parse_price s.
Proof.
  rewrite list_parse_price_eq. unfold detail_parse_price. destruct s; [reflexivity|].
  destruct (_ && _); reflexivity.
Qed.

End PriceFacts.

Example price_dong :
  @normalize_price latin (VStr (u "299,000" ++ dong)) = VFloat 299000.
Proof. vm_compute. reflexivity. Qed.

Example price_negative : @normalize_price latin (VInt (-100)) = VNone.
Proof. reflexivity. Qed.

(** C3. A period is read as the decimal point: where the claim and the
    tests of the repository expect 450000.0 for "450.000 VND" (and
    299000.0 for "299.000"), [normalize_price] and the price parsers of
    both page parsers answer 450.0 (and 299.0). *)
Theorem normalize_price_period_is_decimal_point :
  @normalize_price latin (VStr (u "450.000 VND")) = VFloat 450
  /\ @list_parse_price latin (u "450.000 VND") = Some 450%Q
  /\ @detail_parse_price latin (u "450.000 VND") = Some 450%Q
  /\ @normalize_price latin (VStr (u "299.000")) = VFloat 299
  /\ ~ (450 == 450000)%Q.
Proof.
  repeat split; try (vm_compute; reflexivity).
  intros Heq. vm_compute in Heq. discriminate.
Qed.

(** ** Discounts *)







(** ** Bulk upsert *)

Section BulkFacts.
Context `{Runtime}.

Lemma bulk_loop_tally (clock : nat -> Z) (data : list (gmap string value)) :
  forall n stats db,
    let '(_, stats') := bulk_loop clock n data stats db in
    total stats' = total stats
    /\ tally stats' = tally stats + Z.of_nat (length data).
Proof.
  induction data as [|pd rest IH]; intros n stats db; simpl.
  - unfold tally. lia.
  - destruct (upsert_product (clock n) pd db) as [db' [[r [|]]|e]];
      match goal with
      | |- context [bulk_loop clock (S n) rest ?st ?d] =>
          specialize (IH (S n) st d);
          destruct (bulk_loop clock (S n) rest st d) as [db'' stats'']
      end;
      unfold tally in *; simpl in *; lia.
Qed.



End BulkFacts.

Example bulk_of_two :
  snd (@bulk_upsert_products latin (fun _ => 0) [product_without_slug; product_son]
         empty_database)
  = {| total := 2; created := 1; updated := 0; errors := 1 |}.
Proof. vm_compute. reflexivity. Qed.


(** ** The category statements of an export file *)


Lemma collect_categories_done (fuel : nat) (db : database) (acc : list row) :
  collect_categories fuel db None acc = Some acc.
Proof. destruct fuel; reflexivity. Qed.


Lemma collect_inv (db : database) (fuel : nat) :
  forall c acc r,
    collect_categories fuel db (Some c) acc = Some r ->
    exists l, lineage db c l /\ r = l ++ c :: acc.
Proof.
  induction fuel as [|fuel IH]; intros c acc r Hr; [discriminate|].
  simpl in Hr. destruct (parent_of db c) as [p|] eqn:Hp.
  - apply IH in Hr as (l & Hl & ->).
    exists (l ++ [p]). split; [econstructor; eassumption|].
    rewrite <- app_assoc. reflexivity.
  - rewrite collect_categories_done in Hr. injection Hr as <-.
    exists []. split; [constructor; exact Hp | reflexivity].
Qed.


(** A category that is its own parent keeps the loop going for ever: no
    amount of fuel ends the walk, and no file is written. *)
Lemma collect_categories_cycle (db : database) (c : row) :
  parent_of db c = Some c ->
  forall fuel acc, collect_categories fuel db (Some c) acc = None.
Proof.
  intros Hself. induction fuel as [|fuel IH]; intros acc; [reflexivity|].
  simpl. rewrite Hself. apply IH.
Qed.





(** ** Rows and keys *)

Ltac row_lookup :=
  cbn [list_to_map foldr fst snd];
  repeat first
    [ rewrite lookup_insert_eq
    | rewrite lookup_insert_ne by discriminate
    | rewrite lookup_empty ].

Lemma row_id_le_max (rows : list row) (r : row) :
  In r rows -> row_id r <= fold_right Z.max 0 (map row_id rows).
Proof.
  induction rows as [|x rows IH]; simpl; [tauto|].
  intros [->|Hin]; [lia|]. specialize (IH Hin). lia.
Qed.

(** The key given to a new row is not in the table yet. *)
Lemma next_id_fresh (rows : list row) (r : row) :
  In r rows -> col_is "id" (VInt (next_id rows)) r = false.
Proof.
  intros Hin. pose proof (row_id_le_max _ _ Hin) as Hle.
  unfold col_is, next_id, row_id in *.
  destruct (dict_get r "id"); simpl; try reflexivity.
  apply Z.eqb_neq. lia.
Qed.

Lemma find_row_none (p : row -> bool) (rows : list row) :
  find_row p rows = None <-> forall r, In r rows -> p r = false.
Proof.
  induction rows as [|x rows IH]; simpl.
  - split; [intros _ r []| reflexivity].
  - destruct (p x) eqn:Hx.
    + split; [discriminate|]. intros Hall. rewrite (Hall x) in Hx by auto. discriminate.
    + destruct (find_row p rows) as [[i y]|].
      * split; [discriminate|]. intros Hall.
        assert (Some (i, y) = None) by (apply IH; auto). discriminate.
      * split; [|reflexivity]. intros _ r [<-|Hin]; [exact Hx|].
        apply IH; [reflexivity | exact Hin].
Qed.

Lemma find_row_app_new (p : row -> bool) (rows : list row) (new : row) :
  find_row p rows = None -> p new = true ->
  find_row p (rows ++ [new]) = Some (length rows, new).
Proof.
  induction rows as [|x rows IH]; simpl; intros Hnone Hnew.
  - rewrite Hnew. reflexivity.
  - destruct (p x); [discriminate|].
    destruct (find_row p rows) as [[i y]|]; [discriminate|].
    rewrite IH by auto. reflexivity.
Qed.

Lemma find_row_some (p : row -> bool) (rows : list row) (i : nat) (r : row) :
  find_row p rows = Some (i, r) -> rows !! i = Some r /\ p r = true.
Proof.
  revert i. induction rows as [|x rows IH]; simpl; intros i Hfind; [discriminate|].
  destruct (p x) eqn:Hx.
  - injection Hfind as <- <-. auto.
  - destruct (find_row p rows) as [[j y]|]; [|discriminate].
    injection Hfind as <- <-. apply IH. reflexivity.
Qed.


(** ** Crawl sessions *)





(** ** What the upserts leave alone *)

Lemma upsert_category_frame (now : Z) (data : gmap string value) (db : database) :
  crawl_sessions (fst (upsert_category now data db)) = crawl_sessions db
  /\ products (fst (upsert_category now data db)) = products db
  /\ brands (fst (upsert_category now data db)) = brands db.
Proof. unfold upsert_category. repeat case_match; auto. Qed.

Lemma upsert_brand_frame (now : Z) (data : gmap string value) (db : database) :
  crawl_sessions (fst (upsert_brand now data db)) = crawl_sessions db
  /\ products (fst (upsert_brand now data db)) = products db
  /\ categories (fst (upsert_brand now data db)) = categories db.
Proof. unfold upsert_brand. repeat case_match; auto. Qed.

Section Frames.
Context `{Runtime}.

Lemma resolve_category_frame (now : Z) (data : gmap string value) (db : database) :
  crawl_sessions (fst (resolve_category now data db)) = crawl_sessions db
  /\ products (fst (resolve_category now data db)) = products db
  /\ brands (fst (resolve_category now data db)) = brands db.
Proof.
  unfold resolve_category, get_or_create_category_by_name.
  destruct (truthy _); [|auto].
  destruct (negb _); [auto|].
  destruct (find_row _ _) as [[i c]|]; [auto|].
  pose proof (upsert_category_frame now (stub_data (dict_get data "category_name")) db) as Hs.
  destruct (upsert_category _ _ db) as [db' [[c b]|e]]; exact Hs.
Qed.

Lemma resolve_brand_frame (now : Z) (data : gmap string value) (db : database) :
  crawl_sessions (fst (resolve_brand now data db)) = crawl_sessions db
  /\ products (fst (resolve_brand now data db)) = products db
  /\ categories (fst (resolve_brand now data db)) = categories db.
Proof.
  unfold resolve_brand, get_or_create_brand_by_name.
  destruct (truthy _); [|auto].
  destruct (negb _); [auto|].
  destruct (find_row _ _) as [[i c]|]; [auto|].
  pose proof (upsert_brand_frame now (stub_data (dict_get data "brand_name")) db) as Hs.
  destruct (upsert_brand _ _ db) as [db' [[c b]|e]]; exact Hs.
Qed.

(** The resolution of the category and of the brand leaves products and
    sessions as they are. *)
Lemma resolve_both_frame (now : Z) (data : gmap string value) (db : database) :
  let db2 := fst (resolve_brand now data (fst (resolve_category now data db))) in
  crawl_sessions db2 = crawl_sessions db /\ products db2 = products db.
Proof.
  simpl.
  destruct (resolve_category_frame now data db) as (Hc1 & Hc2 & _).
  destruct (resolve_brand_frame now data (fst (resolve_category now data db)))
    as (Hb1 & Hb2 & _).
  split; congruence.
Qed.

Lemma upsert_product_sessions (now : Z) (data : gmap string value) (db : database) :
  crawl_sessions (fst (upsert_product now data db)) = crawl_sessions db.
Proof.
  pose proof (resolve_both_frame now data db) as [Hs _]. cbv zeta in Hs.
  unfold upsert_product, update_product, create_product.
  destruct (resolve_category now data db) as [db1 category] eqn:Hc.
  cbn [fst] in Hs.
  destruct (resolve_brand now data db1) as [db2 brand] eqn:Hb.
  cbn [fst] in Hs.
  repeat case_match; cbn [fst crawl_sessions set_products]; congruence.
Qed.
End Frames.


Example failed_run_session :
  (fun r => (r !! "status", r !! "finished_at", r !! "errors"))
    <$> crawl_sessions (run_db (full_crawl failing_fetch_steps 0 9 empty_database ∅)) !! 0%nat
  = Some (Some (VStr (u "failed")), Some (VDate 9), Some (VStr (u "Network error"))).
Proof. vm_compute. reflexivity. Qed.

(** ** Attribute assignment *)

Lemma setattrs_spec (s : schema) (keep : string -> value -> bool)
    (data : gmap string value) (obj : row) :
  match setattrs s keep data obj with
  | Returns r =>
      ~ hits_relationship s keep data /\ forall col, r !! col = assigned s keep data obj col
  | Raises _ => hits_relationship s keep data
  end.
Proof.
  unfold setattrs.
  apply (map_fold_weak_ind
           (fun (acc : result row) (m : gmap string value) =>
              match acc with
              | Returns r =>
                  ~ hits_relationship s keep m
                  /\ forall col, r !! col = assigned s keep m obj col
              | Raises _ => hits_relationship s keep m
              end)).
  - split.
    + intros (k & v & Hk & _). rewrite lookup_empty in Hk. discriminate.
    + intros col. unfold assigned. rewrite lookup_empty. reflexivity.
  - intros k v m acc Hfresh IH. destruct acc as [r|e]; simpl.
    + destruct IH as [Hno Hlook].
      assert (Hkeep_m : ~ hits_relationship s keep (<[k:=v]> m) \/
                        (keep k v = true /\ mem_string k (relationships s) = true)).
      { destruct (keep k v) eqn:Hkeep, (mem_string k (relationships s)) eqn:Hrel;
          auto; left; intros (k' & v' & Hk' & Hkeep' & Hrel');
          (destruct (decide (k = k')) as [<-|Hne];
           [ rewrite lookup_insert_eq in Hk'; injection Hk' as <-; congruence
           | rewrite lookup_insert_ne in Hk' by done; apply Hno; exists k', v'; auto ]). }
      destruct (keep k v) eqn:Hkeep.
      * destruct (mem_string k (relationships s)) eqn:Hrel.
        { exists k, v. rewrite lookup_insert_eq. auto. }
        destruct Hkeep_m as [Hno'|[_ ?]]; [|discriminate].
        destruct (mem_string k (columns s)) eqn:Hcol.
        -- split; [exact Hno'|]. intros col. unfold assigned.
           destruct (decide (k = col)) as [<-|Hne].
           ++ rewrite !lookup_insert_eq, Hkeep, Hcol. reflexivity.
           ++ rewrite !lookup_insert_ne by done. apply Hlook.
        -- split; [exact Hno'|]. intros col. unfold assigned.
           destruct (decide (k = col)) as [<-|Hne].
           ++ rewrite lookup_insert_eq, Hkeep, Hcol. simpl.
              rewrite Hlook. unfold assigned. rewrite Hfresh. reflexivity.
           ++ rewrite lookup_insert_ne by done. apply Hlook.
      * destruct Hkeep_m as [Hno'|[? _]]; [|discriminate].
        split; [exact Hno'|]. intros col. unfold assigned.
        destruct (decide (k = col)) as [<-|Hne].
        -- rewrite lookup_insert_eq, Hkeep. simpl.
           rewrite Hlook. unfold assigned. rewrite Hfresh. reflexivity.
        -- rewrite lookup_insert_ne by done. apply Hlook.
    + destruct IH as (k' & v' & Hk' & Hkeep' & Hrel').
      exists k', v'. split; [|auto].
      rewrite lookup_insert_ne; [exact Hk'|]. intros <-. congruence.
Qed.

(** ** Upserts that find a row *)

Lemma lookup_updated_at (now : Z) (r : row) (col : string) :
  <["updated_at" := VDate now]> r !! col
  = if String.eqb col "updated_at" then Some (VDate now) else r !! col.
Proof.
  destruct (String.eqb_spec col "updated_at") as [->|Hne].
  - apply lookup_insert_eq.
  - apply lookup_insert_ne. congruence.
Qed.

Lemma upsert_category_found (now : Z) (data : gmap string value)
    (db db' : database) (new : row) :
  upsert_category now data db = (db', Returns (new, false)) ->
  exists i old slug,
    data !! "slug" = Some slug
    /\ find_row (col_is "slug" slug) (categories db) = Some (i, old)
    /\ categories db' = <[i := new]> (categories db)
    /\ forall col, new !! col = stored_over category_schema now data old col.
Proof.
  unfold upsert_category, dict_item. intros Hup.
  destruct (data !! "slug") as [slug|] eqn:Hslug; [|discriminate].
  destruct (find_row _ _) as [[i old]|] eqn:Hfind.
  - pose proof (setattrs_spec category_schema keep_truthy_not_slug data old) as Hset.
    destruct (setattrs _ _ _ _) as [r|e]; [|discriminate].
    destruct (update_ok _ _ _ _ _); [|discriminate].
    injection Hup as <- <-. destruct Hset as [_ Hlook].
    exists i, old, slug. repeat split; auto.
    intros col. unfold stored_over. rewrite lookup_updated_at, Hlook. reflexivity.
  - repeat case_match; discriminate.
Qed.

Lemma upsert_brand_found (now : Z) (data : gmap string value)
    (db db' : database) (new : row) :
  upsert_brand now data db = (db', Returns (new, false)) ->
  exists i old slug,
    data !! "slug" = Some slug
    /\ find_row (col_is "slug" slug) (brands db) = Some (i, old)
    /\ brands db' = <[i := new]> (brands db)
    /\ forall col, new !! col = stored_over brand_schema now data old col.
Proof.
  unfold upsert_brand, dict_item. intros Hup.
  destruct (data !! "slug") as [slug|] eqn:Hslug; [|discriminate].
  destruct (find_row _ _) as [[i old]|] eqn:Hfind.
  - pose proof (setattrs_spec brand_schema keep_truthy_not_slug data old) as Hset.
    destruct (setattrs _ _ _ _) as [r|e]; [|discriminate].
    destruct (update_ok _ _ _ _ _); [|discriminate].
    injection Hup as <- <-. destruct Hset as [_ Hlook].
    exists i, old, slug. repeat split; auto.
    intros col. unfold stored_over. rewrite lookup_updated_at, Hlook. reflexivity.
  - repeat case_match; discriminate.
Qed.

Section ProductUpdate.
Context `{Runtime}.

Lemma lookup_set_reference (ref : string) (x : option row) (r : row) (col : string) :
  set_reference ref x r !! col
  = if String.eqb col ref
    then match x with Some b => Some (dict_get b "id") | None => r !! col end
    else r !! col.
Proof.
  unfold set_reference. destruct (String.eqb_spec col ref) as [->|Hne]; destruct x; auto.
  - apply lookup_insert_eq.
  - apply lookup_insert_ne. congruence.
Qed.

Lemma assigned_product_reference (data : gmap string value) (old : row) (col : string) :
  col = "category_id"%string \/ col = "brand_id"%string ->
  assigned product_schema keep_product_field data old col = old !! col.
Proof.
  intros Hcol. unfold assigned. destruct (data !! col); [|reflexivity].
  destruct Hcol as [-> | ->]; reflexivity.
Qed.

Lemma upsert_product_found (now : Z) (data : gmap string value)
    (db db' : database) (new : row) :
  upsert_product now data db = (db', Returns (new, false)) ->
  exists i old slug url,
    data !! "slug" = Some slug /\ data !! "url" = Some url
    /\ find_row (slug_or_url slug url) (products db) = Some (i, old)
    /\ products db' = <[i := new]> (products db)
    /\ forall col,
         new !! col =
           product_stored_over now data
             (snd (resolve_category now data db))
             (snd (resolve_brand now data (fst (resolve_category now data db))))
             old col.
Proof.
  unfold upsert_product, dict_item. intros Hup.
  destruct (data !! "slug") as [slug|] eqn:Hslug; [|discriminate].
  destruct (data !! "url") as [url|] eqn:Hurl; [|discriminate].
  pose proof (resolve_both_frame now data db) as [_ Hprod]. cbv zeta in Hprod.
  destruct (find_row _ _) as [[i old]|] eqn:Hfind.
  - unfold update_product in Hup.
    pose proof (setattrs_spec product_schema keep_product_field data old) as Hset.
    destruct (setattrs _ _ _ _) as [r|e]; [|discriminate].
    destruct (negb _); [discriminate|].
    destruct (resolve_category now data db) as [db1 category] eqn:Hc.
    cbn [fst snd] in *.
    destruct (resolve_brand now data db1) as [db2 brand] eqn:Hb.
    cbn [fst snd] in *.
    destruct (update_ok _ _ _ _ _); [|discriminate].
    injection Hup as <- <-. destruct Hset as [_ Hlook].
    exists i, old, slug, url. repeat split; auto.
    { cbn [products set_products]. rewrite Hprod. reflexivity. }
    intros col. unfold product_stored_over.
    rewrite lookup_updated_at, !lookup_set_reference.
    destruct (String.eqb col "updated_at"); [reflexivity|].
    destruct (String.eqb_spec col "brand_id") as [->|Hnb].
    + destruct brand; [reflexivity|]. simpl.
      destruct category; rewrite Hlook; apply assigned_product_reference; auto.
    + destruct (String.eqb_spec col "category_id") as [->|Hnc].
      * destruct category; [reflexivity|].
        rewrite Hlook. apply assigned_product_reference; auto.
      * apply Hlook.
  - unfold create_product in Hup.
    destruct (resolve_category now data db) as [db1 category].
    destruct (resolve_brand now data db1) as [db2 brand].
    repeat case_match; discriminate.
Qed.

End ProductUpdate.


Lemma blank_upsert_eq :
  @upsert_product latin 2 product_son_blank one_product
  = (fst blank_upsert, Returns (blanked_son, false)).
Proof. vm_cast_no_check (eq_refl blank_upsert). Qed.



(** ** Stored values and constraints *)

Lemma value_eqb_refl (v : value) : value_eqb v v = true.
Proof.
  destruct v; simpl; auto using Z.eqb_refl, Qeq_bool_refl.
  - destruct b; reflexivity.
  - apply bool_decide_eq_true. reflexivity.
Qed.

Lemma truthy_not_none (v : value) : truthy v = true -> is_not_none v = true.
Proof. destruct v; simpl; auto. Qed.

Lemma unchanged (col : string) (old new : row) :
  new !! col = old !! col -> changed col old new = false.
Proof.
  intros Heq. unfold changed, dict_get. rewrite Heq, value_eqb_refl. reflexivity.
Qed.

Lemma no_collision_intro (col : string) (v : value) (table : list row) :
  find_row (col_is col v) table = None -> no_collision col v table = true.
Proof.
  intros Hnone. unfold no_collision. apply orb_true_iff. right.
  apply forallb_forall. intros r Hin.
  rewrite (proj1 (find_row_none _ _) Hnone r Hin). reflexivity.
Qed.

Lemma others_of_In (i : nat) (table : list row) (r : row) :
  In r (others_of i table) -> In r table.
Proof.
  unfold others_of. revert i. induction table as [|x table IH]; intros i Hin.
  - destruct i; simpl in Hin; exact Hin.
  - destruct i as [|i]; simpl in Hin.
    + rewrite drop_0 in Hin. right. exact Hin.
    + destruct Hin as [<-|Hin]; [left; reflexivity|]. right. apply (IH i Hin).
Qed.

Lemma no_collision_others (col : string) (v : value) (table : list row) (i : nat) :
  find_row (col_is col v) table = None -> no_collision col v (others_of i table) = true.
Proof.
  intros Hnone. unfold no_collision. apply orb_true_iff. right.
  apply forallb_forall. intros r Hin. apply negb_true_iff.
  apply (proj1 (find_row_none _ _) Hnone r). eapply others_of_In. exact Hin.
Qed.

Lemma no_collision_fresh_id (table : list row) :
  no_collision "id" (VInt (next_id table)) table = true.
Proof.
  apply no_collision_intro. apply find_row_none. apply next_id_fresh.
Qed.

Lemma stub_data_lookup `{Runtime} (name : value) :
  stub_data name !! "name" = Some name
  /\ stub_data name !! "slug" = Some (VStr (normalize_slug name))
  /\ stub_data name !! "url" = Some (VStr [])
  /\ stub_data name !! "description" = Some (VStr [])
  /\ stub_data name !! "id" = None
  /\ stub_data name !! "parent_slug" = None.
Proof. unfold stub_data. repeat split; row_lookup; reflexivity. Qed.

Lemma stub_data_no_relationship `{Runtime} (s : schema) (name : value) :
  (forall k, In k (relationships s) ->
     k <> "name" /\ k <> "slug" /\ k <> "url" /\ k <> "description")%string ->
  ~ hits_relationship s keep_truthy_not_slug (stub_data name).
Proof.
  intros Hrel (k & v & Hk & _ & Hmem).
  unfold mem_string in Hmem. apply existsb_exists in Hmem as (k' & Hin & Heq).
  apply String.eqb_eq in Heq. subst k'.
  destruct (Hrel k Hin) as (H1 & H2 & H3 & H4).
  unfold stub_data in Hk. cbn [list_to_map foldr fst snd] in Hk.
  rewrite !lookup_insert_ne, lookup_empty in Hk by congruence. discriminate.
Qed.

Lemma new_category_lookup (id now : Z) (name slug url description parent_id : value) :
  let c := new_category id now name slug url description parent_id in
  dict_get c "id" = VInt id /\ dict_get c "name" = name
  /\ dict_get c "slug" = slug /\ dict_get c "url" = url.
Proof. unfold new_category, dict_get. repeat split; row_lookup; reflexivity. Qed.

Lemma new_brand_lookup (id now : Z) (name slug url description : value) :
  let b := new_brand id now name slug url description in
  dict_get b "id" = VInt id /\ dict_get b "name" = name /\ dict_get b "slug" = slug.
Proof. unfold new_brand, dict_get. repeat split; row_lookup; reflexivity. Qed.

Section Stubs.
Context `{Runtime}.



End Stubs.

(** ** Upserting a product twice *)


Lemma dict_get_lookup (r : gmap string value) (k : string) (v : value) :
  r !! k = Some v -> dict_get r k = v.
Proof. unfold dict_get. intros ->. reflexivity. Qed.



Section Twice.
Context `{Runtime}.

Lemma new_product_lookup (id now : Z) (data : gmap string value)
    (name slug url : value) (category brand : option row) :
  let p := new_product id now data name slug url category brand in
  p !! "id" = Some (VInt id) /\ p !! "name" = Some name /\ p !! "slug" = Some slug
  /\ p !! "url" = Some url /\ p !! "category_id" = Some (id_or_none category).
Proof. unfold new_product. repeat split; row_lookup; reflexivity. Qed.




End Twice.




(** ** Stripping *)

Lemma lstrip_head (p : Z -> bool) (s : ustring) :
  lstrip p s = [] \/ exists c t, lstrip p s = c :: t /\ p c = false.
Proof.
  induction s as [|c s IH]; simpl; [auto|].
  destruct (p c) eqn:Hc; [exact IH|]. right. eauto.
Qed.

Lemma lstrip_id (p : Z -> bool) (c : Z) (s : ustring) :
  p c = false -> lstrip p (c :: s) = c :: s.
Proof. intros Hc. simpl. rewrite Hc. reflexivity. Qed.

Lemma lstrip_Forall (P : Z -> Prop) (p : Z -> bool) (s : ustring) :
  Forall P s -> Forall P (lstrip p s).
Proof.
  induction 1 as [|c s Hc Hs IH]; simpl; [constructor|].
  destruct (p c); [exact IH | constructor; assumption].
Qed.

Lemma lstrip_app (p : Z -> bool) (a b : ustring) :
  lstrip p (a ++ b) = match lstrip p a with [] => lstrip p b | r => r ++ b end.
Proof.
  induction a as [|c a IH]; simpl; [reflexivity|].
  destruct (p c); [exact IH | reflexivity].
Qed.

(** [rstrip], read from the left. *)
Lemma rstrip_cons (p : Z -> bool) (c : Z) (s : ustring) :
  rstrip p (c :: s) =
    match rstrip p s with
    | [] => if p c then [] else [c]
    | r => c :: r
    end.
Proof.
  unfold rstrip. simpl. rewrite lstrip_app.
  destruct (lstrip p (rev s)) as [|d r] eqn:Hr; simpl.
  - destruct (p c); reflexivity.
  - rewrite rev_app_distr. simpl.
    destruct (rev r ++ [d]) eqn:Hd; [destruct (rev r); discriminate | reflexivity].
Qed.

Lemma rstrip_nil (p : Z -> bool) : rstrip p [] = [].
Proof. reflexivity. Qed.

Lemma rstrip_Forall (P : Z -> Prop) (p : Z -> bool) (s : ustring) :
  Forall P s -> Forall P (rstrip p s).
Proof.
  induction 1 as [|c s Hc Hs IH]; [constructor|].
  rewrite rstrip_cons. destruct (rstrip p s) as [|d r].
  - destruct (p c); constructor; [assumption | constructor].
  - constructor; assumption.
Qed.

Lemma rstrip_last (p : Z -> bool) (s : ustring) : last_fails p (rstrip p s).
Proof.
  induction s as [|c s IH]; [exact I|].
  rewrite rstrip_cons. destruct (rstrip p s) as [|d r].
  - destruct (p c) eqn:Hc; simpl; auto.
  - exact IH.
Qed.

Lemma rstrip_id (p : Z -> bool) (s : ustring) :
  s <> [] -> last_fails p s -> rstrip p s = s.
Proof.
  induction s as [|c s IH]; [congruence|]. intros _ Hlast.
  rewrite rstrip_cons. destruct s as [|d s].
  - simpl in Hlast. rewrite rstrip_nil, Hlast. reflexivity.
  - rewrite IH; [reflexivity | discriminate | exact Hlast].
Qed.

Lemma rstrip_head (p : Z -> bool) (c : Z) (s : ustring) :
  p c = false -> exists t, rstrip p (c :: s) = c :: t.
Proof.
  intros Hc. rewrite rstrip_cons. destruct (rstrip p s); rewrite ?Hc; eauto.
Qed.

(** What [strip_by] leaves: nothing, or a string whose ends fail [p]. *)
Lemma strip_by_ends (p : Z -> bool) (s : ustring) :
  strip_by p s = []
  \/ (exists c t, strip_by p s = c :: t /\ p c = false) /\ last_fails p (strip_by p s).
Proof.
  unfold strip_by. destruct (lstrip_head p s) as [->|(c & t & -> & Hc)].
  - left. reflexivity.
  - right. split; [|apply rstrip_last].
    destruct (rstrip_head p c t Hc) as [t' ->]. eauto.
Qed.

Lemma strip_by_id (p : Z -> bool) (c : Z) (s : ustring) :
  p c = false -> last_fails p (c :: s) -> strip_by p (c :: s) = c :: s.
Proof.
  intros Hc Hlast. unfold strip_by. rewrite lstrip_id by exact Hc.
  apply rstrip_id; [discriminate | exact Hlast].
Qed.

Lemma strip_by_Forall (P : Z -> Prop) (p : Z -> bool) (s : ustring) :
  Forall P s -> Forall P (strip_by p s).
Proof. intros Hs. apply rstrip_Forall, lstrip_Forall, Hs. Qed.

Lemma last_fails_weaken (p q : Z -> bool) (s : ustring) :
  (forall c, In c s -> p c = false -> q c = false) ->
  last_fails p s -> last_fails q s.
Proof.
  induction s as [|c s IH]; [auto|]. intros Himp Hlast.
  destruct s as [|d s].
  - simpl in *. apply Himp; auto.
  - apply IH; [|exact Hlast]. intros x Hx. apply Himp. right. exact Hx.
Qed.

(** ** Transliteration *)

Lemma replace_all_map (table : list (Z * Z)) (s : ustring) :
  replace_all table s = map (translit table) s.
Proof.
  unfold replace_all. revert s. induction table as [|p table IH]; intros s; simpl.
  - symmetry. apply map_id.
  - rewrite IH. unfold replace_char. rewrite map_map. reflexivity.
Qed.

Lemma translit_not_key (table : list (Z * Z)) (c : Z) :
  assoc c table = None -> translit table c = c.
Proof.
  unfold translit. induction table as [|[k e] table IH]; simpl; [reflexivity|].
  destruct (c =? k); [discriminate | exact IH].
Qed.

Lemma assoc_In (table : list (Z * Z)) (c e : Z) :
  assoc c table = Some e -> In (c, e) table.
Proof.
  induction table as [|[k v] table IH]; simpl; [discriminate|].
  destruct (c =? k) eqn:Hck; intros Heq.
  - apply Z.eqb_eq in Hck. left. congruence.
  - right. apply IH. exact Heq.
Qed.

Lemma translit_assoc (table : list (Z * Z)) (c : Z) :
  closed_table table -> translit table c = default c (assoc c table).
Proof.
  revert c. induction table as [|[k e] table IH]; intros c Hclosed; [reflexivity|].
  assert (Htail : closed_table table).
  { intros k' e' Hin. specialize (Hclosed k' e' (or_intror Hin)).
    simpl in Hclosed. destruct (e' =? k); [discriminate | exact Hclosed]. }
  assert (He : assoc e table = None).
  { specialize (Hclosed k e (or_introl eq_refl)).
    simpl in Hclosed. destruct (e =? k); [discriminate | exact Hclosed]. }
  unfold translit in *. simpl. destruct (c =? k).
  - apply (translit_not_key table e He).
  - apply IH. exact Htail.
Qed.

Lemma vietnamese_table_closed : closed_table vietnamese_chars_map.
Proof.
  assert (Hall : forallb (fun p => match assoc (snd p) vietnamese_chars_map with
                                   | None => true | Some _ => false end)
                   vietnamese_chars_map = true) by (vm_compute; reflexivity).
  intros k e Hin. rewrite forallb_forall in Hall. specialize (Hall _ Hin).
  cbn [snd] in Hall.
  destruct (assoc e vietnamese_chars_map); [discriminate | reflexivity].
Qed.

Lemma vietnamese_lower_values (k e : Z) :
  In (k, e) vietnamese_lower_map -> 97 <= e <= 122.
Proof.
  assert (Hall : forallb (fun p => (97 <=? snd p) && (snd p <=? 122))
                   vietnamese_lower_map = true) by (vm_compute; reflexivity).
  intros Hin. rewrite forallb_forall in Hall. specialize (Hall _ Hin).
  cbn [snd] in Hall. lia.
Qed.

(** ** Hyphens *)

Section SlugFacts.
Context `{Runtime}.

Lemma slug_sep_false (c : Z) :
  slug_sep c = false -> (c =? 45) = false /\ is_space c = false.
Proof. unfold slug_sep. apply orb_false_iff. Qed.

Lemma collapse_hyphenated (s : ustring) :
  forall b, hyphenated b (collapse_from b s).
Proof.
  induction s as [|c s IH]; intros b; simpl; [exact I|].
  destruct (slug_sep c) eqn:Hsep.
  - destruct b; [apply IH|]. simpl. split; [reflexivity | apply IH].
  - simpl. destruct (slug_sep_false c Hsep) as [-> _]. split; [exact Hsep | apply IH].
Qed.

Lemma collapse_id (s : ustring) :
  forall b, hyphenated b s -> collapse_from b s = s.
Proof.
  induction s as [|c s IH]; intros b Hs; simpl in *; [reflexivity|].
  destruct (c =? 45) eqn:Hc.
  - apply Z.eqb_eq in Hc. subst c. destruct Hs as [-> Hs].
    unfold slug_sep. simpl. rewrite (IH true Hs). reflexivity.
  - destruct Hs as [Hsep Hs]. rewrite Hsep, (IH false Hs). reflexivity.
Qed.

Lemma collapse_chars (s : ustring) (c : Z) :
  forall b, In c (collapse_from b s) -> c = 45 \/ (In c s /\ slug_sep c = false).
Proof.
  induction s as [|d s IH]; intros b Hin; simpl in *; [tauto|].
  destruct (slug_sep d) eqn:Hsep.
  - destruct b.
    + destruct (IH _ Hin) as [?|[? ?]]; auto.
    + destruct Hin as [<-|Hin]; [auto|]. destruct (IH _ Hin) as [?|[? ?]]; auto.
  - destruct Hin as [<-|Hin]; [auto|]. destruct (IH _ Hin) as [?|[? ?]]; auto.
Qed.

Lemma is_hyphen_eqb (c : Z) : is_hyphen c = (c =? 45).
Proof.
  unfold is_hyphen. change (u "-") with [45]. unfold mem_char. cbn [existsb].
  apply orb_false_r.
Qed.

Lemma hyphenated_any (b b' : bool) (c : Z) (s : ustring) :
  (c =? 45) = false -> hyphenated b (c :: s) -> hyphenated b' (c :: s).
Proof. simpl. intros ->. auto. Qed.

Lemma hyphenated_lstrip (s : ustring) :
  forall b, hyphenated b s -> hyphenated false (lstrip is_hyphen s).
Proof.
  induction s as [|c s IH]; intros b Hs; [exact I|].
  simpl lstrip. rewrite is_hyphen_eqb. destruct (c =? 45) eqn:Hc.
  - simpl in Hs. rewrite Hc in Hs. apply (IH true). apply Hs.
  - eapply hyphenated_any; eassumption.
Qed.

Lemma hyphenated_rstrip (p : Z -> bool) (s : ustring) :
  forall b, hyphenated b s -> hyphenated b (rstrip p s).
Proof.
  induction s as [|c s IH]; intros b Hs; [exact I|].
  rewrite rstrip_cons. simpl in Hs.
  destruct (rstrip p s) as [|d r] eqn:Hr.
  - destruct (p c); [exact I|]. simpl. destruct (c =? 45); tauto.
  - simpl. destruct (c =? 45).
    + destruct Hs as [Hb Hs]. split; [exact Hb|]. apply (IH true Hs).
    + destruct Hs as [Hb Hs]. split; [exact Hb|]. apply (IH false Hs).
Qed.

End SlugFacts.

(** ** Slugs *)

Section SlugTheorems.
Context `{Runtime}.

Lemma plain_not_stripped (F : unicode_facts) (c : Z) :
  slug_char c -> (c =? 45) = false ->
  is_space c = false /\ mem_char (u "/ ") c = false /\ is_hyphen c = false.
Proof.
  intros [->|(_ & Hsp & Hw & _)] Hc; [discriminate|].
  split; [exact Hsp|]. split; [|rewrite is_hyphen_eqb; exact Hc].
  change (u "/ ") with [47; 32]. unfold mem_char. cbn [existsb].
  rewrite orb_false_r. apply orb_false_iff. split.
  - apply Z.eqb_neq. intros ->. rewrite (slash_not_word F) in Hw. discriminate.
  - apply Z.eqb_neq. intros ->. rewrite (space_is_space F) in Hsp. discriminate.
Qed.

Lemma slug_char_fixed (F : unicode_facts) (c : Z) : slug_char c -> lower_fixed c.
Proof.
  intros [->|(_ & _ & _ & Hfix & _)]; [|exact Hfix].
  apply (ascii_lower_fixed F). auto.
Qed.

Lemma slug_char_not_key (c : Z) : slug_char c -> assoc c vietnamese_chars_map = None.
Proof. intros [->|(_ & _ & _ & _ & Hkey)]; [reflexivity | exact Hkey]. Qed.

Lemma slug_char_kept (c : Z) : slug_char c -> slug_keep c = true.
Proof.
  unfold slug_keep. intros [->|(_ & _ & Hw & _)]; [apply orb_true_r|].
  rewrite Hw. reflexivity.
Qed.

Lemma map_fixed {A} (f : A -> A) (s : list A) :
  Forall (fun c => f c = c) s -> map f s = s.
Proof. induction 1 as [|c s Hc Hs IH]; simpl; congruence. Qed.

Lemma filter_all (p : Z -> bool) (s : ustring) :
  Forall (fun c => p c = true) s -> List.filter p s = s.
Proof. induction 1 as [|c s Hc Hs IH]; simpl; [|rewrite Hc, IH]; reflexivity. Qed.

(** A slug is a fixed point of [normalize_slug]. *)
Lemma normalize_slug_canonical (F : unicode_facts) (s : ustring) :
  canonical s -> normalize_slug (VStr s) = s.
Proof.
  intros (Hchars & Hhyph & (c & t & -> & Hc) & Hlast).
  assert (Hhead : slug_char c) by (inversion Hchars; assumption).
  destruct (plain_not_stripped F c Hhead Hc) as (Hsp & Hslash & Hhy).
  assert (Hweak : forall q : Z -> bool,
            (forall d, slug_char d -> (d =? 45) = false -> q d = false) ->
            last_fails q (c :: t)).
  { intros q Hq. eapply last_fails_weaken; [|exact Hlast].
    intros d Hd Hd45. apply Hq; [|exact Hd45].
    rewrite Forall_forall in Hchars. apply Hchars. apply list_elem_of_In. exact Hd. }
  unfold normalize_slug, slug_steps. cbn [truthy negb py_str].
  unfold py_strip, py_strip_chars.
  rewrite (strip_by_id is_space c t Hsp)
    by (apply Hweak; intros d Hd Hd45; apply (plain_not_stripped F d Hd Hd45)).
  rewrite (lower_of_fixed F)
    by (eapply Forall_impl; [exact Hchars | apply (slug_char_fixed F)]).
  rewrite (strip_by_id (mem_char (u "/ ")) c t Hslash)
    by (apply Hweak; intros d Hd Hd45; apply (plain_not_stripped F d Hd Hd45)).
  rewrite replace_all_map.
  rewrite (map_fixed (translit vietnamese_chars_map))
    by (eapply Forall_impl; [exact Hchars|];
        intros d Hd; apply translit_not_key, slug_char_not_key, Hd).
  unfold drop_special.
  rewrite filter_all by (eapply Forall_impl; [exact Hchars | apply slug_char_kept]).
  unfold collapse_seps. rewrite (collapse_id _ _ Hhyph).
  fold is_hyphen.
  rewrite (strip_by_id is_hyphen c t Hhy)
    by (apply Hweak; intros d Hd Hd45; apply (plain_not_stripped F d Hd Hd45)).
  reflexivity.
Qed.

Lemma plain_hyphenated (s : ustring) :
  Forall plain s -> forall b, hyphenated b s.
Proof.
  induction 1 as [|c s (Hc & Hsp & _) Hs IH]; intros b; simpl; [exact I|].
  rewrite Hc. split; [|apply IH]. unfold slug_sep. rewrite Hc, Hsp. reflexivity.
Qed.

Lemma unknown_canonical (F : unicode_facts) : canonical (u "unknown").
Proof.
  assert (Hplain : forall c, 97 <= c <= 122 -> assoc c vietnamese_chars_map = None ->
                     plain c).
  { intros c Hc Hkey. destruct (ascii_lower_word F c Hc) as [Hw Hsp].
    split; [apply Z.eqb_neq; lia|]. split; [exact Hsp|]. split; [exact Hw|].
    split; [apply (ascii_lower_fixed F); auto | exact Hkey]. }
  change (u "unknown") with [117; 110; 107; 110; 111; 119; 110].
  assert (Hchars : Forall plain [117; 110; 107; 110; 111; 119; 110]).
  { repeat (apply List.Forall_cons; [apply Hplain; [lia | vm_compute; reflexivity]|]).
    apply List.Forall_nil. }
  split; [eapply Forall_impl; [exact Hchars | intros c Hc; right; exact Hc]|].
  split; [apply plain_hyphenated; exact Hchars|].
  split; [|reflexivity]. exists 117, [110; 107; 110; 111; 119; 110].
  split; reflexivity.
Qed.

(** The slug of a truthy value is the text "unknown" or has the shape of
    a slug. *)
Lemma normalize_slug_shape (F : unicode_facts) (x : value) :
  truthy x = true ->
  normalize_slug x = u "unknown" \/ canonical (normalize_slug x).
Proof.
  intros Hx. unfold normalize_slug, slug_steps. rewrite Hx. cbn [negb].
  set (s1 := str_lower (py_strip (py_str x))).
  set (s3 := replace_all vietnamese_chars_map (py_strip_chars (u "/ ") s1)).
  assert (H3 : Forall (fun c => lower_fixed c /\ assoc c vietnamese_chars_map = None) s3).
  { unfold s3. rewrite replace_all_map. apply Forall_map.
    apply strip_by_Forall. apply Forall_forall. intros c Hc.
    apply list_elem_of_In in Hc. apply (lower_chars_fixed F) in Hc.
    rewrite (translit_assoc _ _ vietnamese_table_closed).
    destruct (assoc c vietnamese_chars_map) as [e|] eqn:He; [|auto].
    pose proof (assoc_In _ _ _ He) as Hin.
    simpl. split; [|apply (vietnamese_table_closed _ _ Hin)].
    unfold vietnamese_chars_map in Hin. apply in_app_or in Hin as [Hin|Hin].
    - apply (ascii_lower_fixed F). left. eapply vietnamese_lower_values. exact Hin.
    - exfalso. exact (upper_keys_not_fixed F _ _ Hin Hc). }
  set (s5 := collapse_seps (drop_special s3)).
  assert (H5 : Forall slug_char s5).
  { apply Forall_forall. intros c Hc. apply list_elem_of_In in Hc.
    apply collapse_chars in Hc as [->|[Hc Hsep]]; [left; reflexivity|].
    unfold drop_special in Hc. apply filter_In in Hc as [Hc Hkeep].
    rewrite Forall_forall in H3. destruct (H3 c) as [Hfix Hkey];
      [apply list_elem_of_In; exact Hc|].
    destruct (slug_sep_false c Hsep) as [H45 Hsp].
    right. split; [exact H45|]. split; [exact Hsp|]. split; [|split; assumption].
    unfold slug_keep in Hkeep. rewrite Hsp, H45 in Hkeep.
    rewrite !orb_false_r in Hkeep. exact Hkeep. }
  fold is_hyphen. unfold py_strip_chars. fold is_hyphen.
  destruct (strip_by_ends is_hyphen s5) as [->|[(c & t & Heq & Hc) Hlast]];
    [left; reflexivity|].
  right. rewrite Heq. rewrite <- Heq.
  assert (Hcan : canonical (strip_by is_hyphen s5)).
  { split; [apply strip_by_Forall; exact H5|]. split.
    - unfold strip_by. apply hyphenated_rstrip. eapply hyphenated_lstrip.
      apply collapse_hyphenated.
    - split.
      + exists c, t. split; [exact Heq|]. rewrite <- is_hyphen_eqb. exact Hc.
      + eapply last_fails_weaken; [|exact Hlast].
        intros d _ Hd. rewrite <- is_hyphen_eqb. exact Hd. }
  rewrite Heq in *. exact Hcan.
Qed.

(** C4. [normalize_slug] is idempotent. *)
Theorem normalize_slug_idempotent (F : unicode_facts) (x : value) :
  normalize_slug (VStr (normalize_slug x)) = normalize_slug x.
Proof.
  destruct (truthy x) eqn:Hx.
  - destruct (normalize_slug_shape F x Hx) as [-> | Hcan].
    + apply (normalize_slug_canonical F). apply (unknown_canonical F).
    + apply (normalize_slug_canonical F). exact Hcan.
  - assert (Hempty : normalize_slug x = [])
      by (unfold normalize_slug; rewrite Hx; reflexivity).
    rewrite Hempty. reflexivity.
Qed.

End SlugTheorems.

(** ** Empty and unmappable input *)

Section Unknown.
Context `{Runtime}.




End Unknown.



(** ** The runtime of the examples has the facts *)

Lemma assoc_none_below (bound c : Z) (table : list (Z * Z)) :
  forallb (fun p => bound <=? fst p) table = true -> c < bound -> assoc c table = None.
Proof.
  intros Hall Hc. induction table as [|[k v] table IH]; [reflexivity|].
  simpl in *. apply andb_true_iff in Hall as [Hk Hall].
  destruct (c =? k) eqn:Hck; [|apply IH; exact Hall].
  apply Z.eqb_eq in Hck. apply Z.leb_le in Hk. lia.
Qed.

Lemma case_pairs_above : forallb (fun p => 128 <=? fst p) vietnamese_case_pairs = true.
Proof. vm_compute. reflexivity. Qed.

Lemma chars_map_above : forallb (fun p => 128 <=? fst p) vietnamese_chars_map = true.
Proof. vm_compute. reflexivity. Qed.

Lemma latin_lower_char_ascii (c : Z) :
  c < 128 -> ascii_upper c = false -> latin_lower_char c = c.
Proof.
  intros Hc Hup. unfold latin_lower_char.
  rewrite Hup, (assoc_none_below 128 c _ case_pairs_above Hc). reflexivity.
Qed.

Lemma latin_lower_char_idem (c : Z) :
  latin_lower_char (latin_lower_char c) = latin_lower_char c.
Proof.
  destruct (ascii_upper c) eqn:Hup.
  - assert (E : latin_lower_char c = c + 32)
      by (unfold latin_lower_char; rewrite Hup; reflexivity).
    rewrite E. unfold ascii_upper in Hup. apply latin_lower_char_ascii; [lia|].
    unfold ascii_upper. lia.
  - destruct (assoc c vietnamese_case_pairs) as [l|] eqn:Hl.
    + assert (E : latin_lower_char c = l)
        by (unfold latin_lower_char; rewrite Hup, Hl; reflexivity).
      rewrite E.
      assert (Hall : forallb (fun p => Z.eqb (latin_lower_char (snd p)) (snd p))
                       vietnamese_case_pairs = true) by (vm_compute; reflexivity).
      rewrite forallb_forall in Hall. specialize (Hall _ (assoc_In _ _ _ Hl)).
      cbn [snd] in Hall. apply Z.eqb_eq. exact Hall.
    + assert (E : latin_lower_char c = c)
        by (unfold latin_lower_char; rewrite Hup, Hl; reflexivity).
      rewrite !E. reflexivity.
Qed.

Lemma latin_space_letter (c : Z) : 97 <= c <= 122 -> latin_space c = false.
Proof.
  intros Hc. unfold latin_space, mem_char. cbn [existsb].
  repeat (apply orb_false_iff; split; [apply Z.eqb_neq; lia|]). reflexivity.
Qed.

Lemma latin_facts : @unicode_facts latin.
Proof.
  constructor; cbn [str_lower is_word is_space latin]; unfold lower_fixed;
    cbn [str_lower latin].
  - intros s c Hin. apply in_map_iff in Hin as (d & <- & _).
    simpl. rewrite latin_lower_char_idem. reflexivity.
  - intros s Hs. apply map_fixed. eapply Forall_impl; [exact Hs|].
    intros c Hc. simpl in Hc. congruence.
  - intros c Hc. simpl. rewrite latin_lower_char_ascii; [reflexivity | lia |].
    unfold ascii_upper. lia.
  - intros k e Hin Hfix. simpl in Hfix.
    assert (Hall : forallb (fun p => negb (Z.eqb (latin_lower_char (fst p)) (fst p)))
                     vietnamese_upper_map = true) by (vm_compute; reflexivity).
    rewrite forallb_forall in Hall. specialize (Hall _ Hin). cbn [fst] in Hall.
    apply negb_true_iff, Z.eqb_neq in Hall. congruence.
  - intros c Hc. split; [|apply latin_space_letter; exact Hc].
    unfold latin_word, ascii_lower.
    replace (97 <=? c) with true by (symmetry; apply Z.leb_le; lia).
    replace (c <=? 122) with true by (symmetry; apply Z.leb_le; lia).
    cbn [andb]. rewrite orb_true_r. reflexivity.
  - vm_compute. reflexivity.
  - vm_compute. reflexivity.
Qed.

Lemma normalize_slug_idempotent_witness :
  @normalize_slug latin (VStr (@normalize_slug latin (VStr son_moi)))
  = @normalize_slug latin (VStr son_moi).
Proof. exact (@normalize_slug_idempotent latin latin_facts (VStr son_moi)). Defined.

(** * Part IV: further properties of the code *)

(** ** URLs *)

Lemma Forall_last_fails (p : Z -> bool) (s : ustring) :
  Forall (fun c => p c = false) s -> last_fails p s.
Proof.
  induction 1 as [|c s Hc Hs IH]; [exact I|].
  destruct s as [|d s]; [exact Hc | exact IH].
Qed.

Section UrlFacts.
Context `{Runtime}.

Lemma strip_by_idem (p : Z -> bool) (s : ustring) :
  strip_by p (strip_by p s) = strip_by p s.
Proof.
  destruct (strip_by_ends p s) as [->|[(c & t & Heq & Hc) Hlast]]; [reflexivity|].
  rewrite Heq in *. apply strip_by_id; assumption.
Qed.

Lemma normalize_url_cases (x : value) :
  normalize_url x = []
  \/ (normalize_url x = py_strip (py_str x)
      /\ (starts_with (u "http://") (normalize_url x)
          || starts_with (u "https://") (normalize_url x)
          || starts_with (u "/") (normalize_url x)) = true)
  \/ (normalize_url x = 47 :: py_strip (py_str x) /\ py_strip (py_str x) <> []).
Proof.
  unfold normalize_url. destruct (negb (truthy x)); [auto|].
  destruct (py_strip (py_str x)) as [|c t] eqn:Hs; [auto|].
  destruct (starts_with (u "http://") (c :: t) || starts_with (u "https://") (c :: t)
            || starts_with (u "/") (c :: t)) eqn:Hp.
  - right. left. auto.
  - right. right. split; [reflexivity | discriminate].
Qed.

End UrlFacts.

(** X1. Every URL that [normalize_url] answers is empty, absolute
    ([http://], [https://]) or rooted at [/], and a normalized URL is left
    as it is when normalized again; the slash is assumed not to be a
    whitespace character of the runtime. *)
Theorem normalize_url_idempotent `{Runtime} (x : value) :
  is_space 47 = false ->
  (normalize_url x = []
   \/ starts_with (u "http://") (normalize_url x) = true
   \/ starts_with (u "https://") (normalize_url x) = true
   \/ starts_with (u "/") (normalize_url x) = true)
  /\ normalize_url (VStr (normalize_url x)) = normalize_url x.
Proof.
  intros Hslash.
  assert (Hfix : forall c t, is_space c = false -> last_fails is_space (c :: t) ->
            (starts_with (u "http://") (c :: t) || starts_with (u "https://") (c :: t)
             || starts_with (u "/") (c :: t)) = true ->
            normalize_url (VStr (c :: t)) = c :: t).
  { intros c t Hc Hlast Hp. unfold normalize_url. cbn [truthy negb py_str].
    unfold py_strip. rewrite (strip_by_id is_space c t Hc Hlast). rewrite Hp. reflexivity. }
  destruct (normalize_url_cases x) as [Hnil | [[Heq Hp] | [Heq Hne]]].
  - rewrite Hnil. split; [auto | reflexivity].
  - split.
    + apply orb_true_iff in Hp as [Hp|Hp]; [apply orb_true_iff in Hp as [Hp|Hp]|]; auto.
    + destruct (normalize_url x) as [|c t] eqn:Hr; [reflexivity|].
      unfold py_strip in Heq.
      destruct (strip_by_ends is_space (py_str x)) as [Hnil|[(c' & t' & Heq' & Hc) Hlast]];
        [congruence|].
      rewrite <- Heq in Heq', Hlast. injection Heq' as <- <-.
      apply Hfix; assumption.
  - split.
    + rewrite Heq. right. right. right. change (u "/") with [47]. cbn [starts_with].
      rewrite Z.eqb_refl. reflexivity.
    + rewrite Heq. unfold py_strip in *.
      destruct (strip_by_ends is_space (py_str x)) as [Hnil|[(c' & t' & Heq' & Hc) Hlast]];
        [congruence|].
      apply Hfix; [exact Hslash | |].
      * rewrite Heq'. rewrite Heq' in Hlast. exact Hlast.
      * change (u "/") with [47]. cbn [starts_with]. rewrite Z.eqb_refl.
        apply orb_true_r.
Qed.

Lemma normalize_url_idempotent_witness :
  @normalize_url latin (VStr (@normalize_url latin (VStr (u "  san-pham/test "))))
  = @normalize_url latin (VStr (u "  san-pham/test ")).
Proof.
  exact (proj2 (@normalize_url_idempotent latin (VStr (u "  san-pham/test ")) eq_refl)).
Defined.

(** ** Numbers *)

Section NumberFacts.
Context `{Runtime} `{Library}.

Lemma within_range (hi : Q) (x : pyfloat) :
  within hi x = VNone
  \/ exists q, within hi x = VFloat q /\ x = Finite q /\ (0 <= q <= hi)%Q.
Proof.
  destruct x as [q| |]; simpl; auto.
  destruct (Qle_bool 0 q) eqn:Hlo; simpl; auto.
  destruct (Qle_bool q hi) eqn:Hhi; simpl; auto.
  right. exists q. apply Qle_bool_iff in Hlo, Hhi. auto.
Qed.

Lemma within_weak (hi : Q) (x : pyfloat) :
  within hi x = VNone \/ exists q, within hi x = VFloat q /\ (0 <= q <= hi)%Q.
Proof.
  destruct (within_range hi x) as [?|(q & ? & _ & ?)]; eauto.
Qed.

Lemma normalize_percentage_cases (x : value) :
  normalize_percentage x = VNone
  \/ exists q, normalize_percentage x = VFloat q /\ (0 <= q <= 100)%Q.
Proof.
  destruct x as [ |b|z|q|[|c s]|t]; cbn [normalize_percentage]; auto using within_weak.
  destruct (float_of_str _); auto using within_weak.
Qed.

Lemma normalize_rating_cases (x : value) :
  normalize_rating x = VNone
  \/ exists q, normalize_rating x = VFloat q /\ (0 <= q <= 5)%Q.
Proof.
  destruct x as [ |b|z|q|[|c s]|t]; cbn [normalize_rating]; auto using within_weak.
  destruct (float_of_str _); auto using within_weak.
Qed.

(** X2. Whatever the input and whatever [float] reads from a string,
    [normalize_percentage] answers [None] or a number from 0 to 100, and
    [normalize_rating] answers [None] or a number from 0 to 5. *)
Theorem normalized_ratio_in_range (x : value) :
  (normalize_percentage x = VNone
   \/ exists q, normalize_percentage x = VFloat q /\ (0 <= q <= 100)%Q)
  /\ (normalize_rating x = VNone
      \/ exists q, normalize_rating x = VFloat q /\ (0 <= q <= 5)%Q).
Proof. split; [apply normalize_percentage_cases | apply normalize_rating_cases]. Qed.

Lemma truncate_nonneg (q : Q) : 0 <= Z.max 0 (truncate q).
Proof. lia. Qed.

(** X3. [normalize_integer] never answers a negative number: its answer
    is an integer that is at least 0, except for the input [True], which
    [max(0, True)] gives back as it is. *)
Theorem normalize_integer_not_negative (x : value) :
  (exists n, normalize_integer x = VInt n /\ 0 <= n)
  \/ (x = VBool true /\ normalize_integer x = VBool true).
Proof.
  destruct x as [ |[|]|z|q|[|c s]|t]; simpl; eauto using Z.le_refl, Z.le_max_l.
  - left. destruct (float_of_str _) as [[q'| |]|]; eauto using Z.le_refl, Z.le_max_l.
  - left. destruct (float_of_str _) as [[q'| |]|]; eauto using Z.le_refl, Z.le_max_l.
Qed.

End NumberFacts.

(** ** Test cases of the repository *)

Example percentage_with_sign :
  @normalize_percentage latin latin_library (VStr (u "25.5%")) = VFloat (51 # 2).
Proof. vm_compute. reflexivity. Qed.

Example percentage_too_large :
  @normalize_percentage latin latin_library (VInt 150) = VNone.
Proof. vm_compute. reflexivity. Qed.

Example rating_text : @normalize_rating latin latin_library (VStr (u "4.5")) = VFloat (9 # 2).
Proof. vm_compute. reflexivity. Qed.

Example integer_with_comma :
  @normalize_integer latin latin_library (VStr (u "1,234")) = VInt 1234.
Proof. vm_compute. reflexivity. Qed.

Example integer_negative : @normalize_integer latin latin_library (VInt (-10)) = VInt 0.
Proof. reflexivity. Qed.

Example sku_lowercase :
  @normalize_sku latin latin_library (VStr (u "mlb-ss-001")) = u "MLB-SS-001".
Proof. vm_compute. reflexivity. Qed.

Example sku_special :
  @normalize_sku latin latin_library (VStr (u "MLB@SS#001")) = u "MLBSS001".
Proof. vm_compute. reflexivity. Qed.

Example availability_con_hang :
  @normalize_availability latin (VStr [99; 242; 110; 32; 104; 224; 110; 103]) = u "in_stock".
Proof. vm_compute. reflexivity. Qed.

Example valid_url_cases :
  map (@is_valid_url latin_library)
    [VStr (u "https://example.com"); VStr (u "http://example.com/path");
     VStr (u "/relative/path"); VStr (u "ftp://example.com"); VStr (u "invalid-url");
     VStr []]
  = [true; true; true; false; false; false].
Proof. vm_compute. reflexivity. Qed.

(** ** SKUs *)

Section SkuFacts.
Context `{Runtime} `{Library}.

Lemma normalize_sku_chars (x : value) :
  Forall (fun c => sku_keep c = true) (normalize_sku x).
Proof.
  unfold normalize_sku. destruct (negb (truthy x)); [constructor|].
  apply Forall_forall. intros c Hc. apply list_elem_of_In, filter_In in Hc. apply Hc.
Qed.

(** X4. A SKU that [normalize_sku] answers holds capital letters, digits,
    hyphens and underscores only, and normalizing it again changes nothing,
    given that [str.upper] leaves such characters alone and that none of
    them is whitespace. *)
Theorem normalize_sku_idempotent (F : sku_facts) (x : value) :
  Forall (fun c => sku_keep c = true) (normalize_sku x)
  /\ normalize_sku (VStr (normalize_sku x)) = normalize_sku x.
Proof.
  pose proof (normalize_sku_chars x) as Hchars. split; [exact Hchars|].
  destruct (normalize_sku x) as [|c t] eqn:Hr; [reflexivity|].
  unfold normalize_sku. cbn [truthy negb py_str]. unfold py_strip.
  assert (Hsp : Forall (fun d => is_space d = false) (c :: t)).
  { eapply Forall_impl; [exact Hchars|]. intros d Hd. apply (sku_not_space F), Hd. }
  rewrite strip_by_id;
    [| inversion Hsp; assumption | apply Forall_last_fails; exact Hsp].
  rewrite (upper_of_sku F _ Hchars). apply filter_all. exact Hchars.
Qed.

End SkuFacts.

Lemma latin_upper_char_sku (c : Z) : sku_keep c = true -> latin_upper_char c = c.
Proof.
  intros Hc. unfold latin_upper_char, ascii_lower.
  assert (Hlt : c < 97) by (unfold sku_keep in Hc; lia).
  replace (97 <=? c) with false by (symmetry; apply Z.leb_gt; lia).
  cbn [andb].
  rewrite (assoc_none_below 128 c); [reflexivity | vm_compute; reflexivity | lia].
Qed.

Lemma latin_sku_facts : @sku_facts latin latin_library.
Proof.
  constructor.
  - intros s Hs. cbn [str_upper latin_library]. apply map_fixed.
    eapply Forall_impl; [exact Hs|]. intros c Hc. apply latin_upper_char_sku, Hc.
  - intros c Hc. cbn [is_space latin]. unfold latin_space, mem_char. cbn [existsb].
    unfold sku_keep in Hc.
    repeat (apply orb_false_iff; split; [apply Z.eqb_neq; lia|]). reflexivity.
Qed.

Lemma normalize_sku_idempotent_witness :
  @normalize_sku latin latin_library
    (VStr (@normalize_sku latin latin_library (VStr (u " mlb ss-001 "))))
  = @normalize_sku latin latin_library (VStr (u " mlb ss-001 ")).
Proof.
  exact (proj2 (@normalize_sku_idempotent latin latin_library latin_sku_facts
                  (VStr (u " mlb ss-001 ")))).
Defined.

(** ** Availability *)

Lemma exact_match_In (table : list (ustring * ustring)) (text v : ustring) :
  exact_match table text = Some v -> In (text, v) table.
Proof.
  induction table as [|[k w] table IH]; simpl; [discriminate|].
  destruct (bool_decide (k = text)) eqn:Hk.
  - apply bool_decide_eq_true in Hk. intros [= <-]. left. congruence.
  - intros Hv. right. apply IH, Hv.
Qed.

Lemma partial_match_In (table : list (ustring * ustring)) (text v : ustring) :
  partial_match table text = Some v -> exists k, In (k, v) table /\ is_infix k text = true.
Proof.
  induction table as [|[k w] table IH]; simpl; [discriminate|].
  destruct (is_infix k text) eqn:Hk.
  - intros [= <-]. eauto.
  - intros Hv. destruct (IH Hv) as (k' & Hin & Hk'). eauto.
Qed.

Lemma availability_map_values (k v : ustring) :
  In (k, v) availability_map -> In v availability_values.
Proof.
  intros Hin.
  assert (Hall : forallb (fun p => bool_decide (In (snd p) availability_values))
                   availability_map = true) by (vm_compute; reflexivity).
  rewrite forallb_forall in Hall. specialize (Hall _ Hin).
  apply bool_decide_eq_true in Hall. exact Hall.
Qed.

(** X5. [normalize_availability] answers one of [in_stock],
    [out_of_stock], [pre_order] and [unknown], whatever the input. *)
Theorem normalize_availability_values `{Runtime} (x : value) :
  In (normalize_availability x) availability_values.
Proof.
  unfold normalize_availability. destruct (negb (truthy x)).
  { right. right. right. left. reflexivity. }
  destruct (exact_match _ _) as [v|] eqn:He.
  { eapply availability_map_values, exact_match_In, He. }
  destruct (partial_match _ _) as [v|] eqn:Hp.
  { destruct (partial_match_In _ _ _ Hp) as (k & Hin & _).
    eapply availability_map_values, Hin. }
  right. right. right. left. reflexivity.
Qed.

(** X6. The partial match of [normalize_availability] follows the order
    of its dictionary: a text that contains [available] and is not exactly
    [unavailable] is answered [in_stock], also when it says that the
    product is unavailable. *)
Theorem availability_text_with_available `{Runtime} (x : value) :
  truthy x = true ->
  is_infix (u "available") (str_lower (py_strip (py_str x))) = true ->
  str_lower (py_strip (py_str x)) <> u "unavailable" ->
  normalize_availability x = u "in_stock".
Proof.
  intros Hx Hin Hne. unfold normalize_availability. rewrite Hx. cbn [negb].
  set (text := str_lower (py_strip (py_str x))) in *.
  destruct (exact_match availability_map text) as [v|] eqn:He.
  - apply exact_match_In in He.
    assert (Hall : forallb (fun p => negb (is_infix (u "available") (fst p))
                                     || bool_decide (fst p = u "unavailable")
                                     || bool_decide (snd p = u "in_stock"))
                     availability_map = true) by (vm_compute; reflexivity).
    rewrite forallb_forall in Hall. specialize (Hall _ He). cbn [fst snd] in Hall.
    rewrite Hin in Hall. cbn [negb orb] in Hall.
    apply orb_true_iff in Hall as [Hall|Hall]; apply bool_decide_eq_true in Hall;
      [contradiction | exact Hall].
  - unfold availability_map. cbn [partial_match].
    destruct (is_infix (u "in_stock") text); [reflexivity|].
    destruct (is_infix (u "instock") text); [reflexivity|].
    rewrite Hin. reflexivity.
Qed.

Lemma availability_text_with_available_witness :
  @normalize_availability latin (VStr (u "Currently unavailable")) = u "in_stock".
Proof.
  apply (@availability_text_with_available latin (VStr (u "Currently unavailable"))).
  - reflexivity.
  - vm_compute. reflexivity.
  - vm_compute. discriminate.
Defined.

(** ** The validator *)

Section Validator.
Context `{Runtime} `{Library}.

(** X7. The verdict of [validate_normalized_product]: a product is valid
    exactly when the list of errors is empty, that is exactly when its
    name, slug and url are non-empty and the url passes [_is_valid_url];
    a valid product has its three required fields. *)
Theorem validation_verdict (product : gmap string value) :
  let v := validate_normalized_product product in
  is_valid v = bool_decide (validation_errors v = [])
  /\ is_valid v = truthy (dict_get product "name") && truthy (dict_get product "slug")
                  && truthy (dict_get product "url")
                  && is_valid_url (dict_get product "url")
  /\ (is_valid v = true -> has_required_fields product).
Proof.
  cbv zeta. unfold validate_normalized_product, required_fields, has_required_fields.
  cbn [List.filter].
  destruct (truthy (dict_get product "name")), (truthy (dict_get product "slug")),
    (truthy (dict_get product "url")), (is_valid_url (dict_get product "url"));
    cbn [negb andb map app is_valid validation_errors];
    repeat split; try reflexivity; try discriminate;
    symmetry; apply bool_decide_eq_false; discriminate.
Qed.

Lemma digits_value_nonneg (D : digits_are_naturals) (s : ustring) :
  forall acc n, 0 <= acc -> digits_value acc s = Some n -> 0 <= n.
Proof.
  induction s as [|c s IH]; simpl; intros acc n Hacc Hn.
  - injection Hn as <-. exact Hacc.
  - destruct (digit_val c) as [d|] eqn:Hd; [|discriminate].
    apply (IH (10 * acc + d)); [|exact Hn]. specialize (D c d Hd). lia.
Qed.

Lemma float_of_clean_nonneg (D : digits_are_naturals) (s : ustring) (q : Q) :
  float_of_clean s = Some q -> (0 <= q)%Q.
Proof.
  unfold float_of_clean. destruct (split_at_dot s) as [ip [fp|]].
  - destruct (ip ++ fp) as [|c t] eqn:Hs; [discriminate|].
    destruct (digits_value 0 (c :: t)) as [n|] eqn:Hn; [|discriminate].
    cbn [mbind option_bind]. intros [= <-].
    rewrite Qred_correct. unfold Qle. cbn [Qnum Qden].
    pose proof (digits_value_nonneg D _ _ _ (Z.le_refl 0) Hn). lia.
  - destruct ip as [|c t]; [discriminate|].
    destruct (digits_value 0 (c :: t)) as [n|] eqn:Hn; [|discriminate].
    cbn [mbind option_bind]. intros [= <-].
    unfold Qle. cbn [Qnum Qden inject_Z].
    pose proof (digits_value_nonneg D _ _ _ (Z.le_refl 0) Hn). lia.
Qed.

(** A price that [normalize_price] answers is never negative. *)
Lemma normalize_price_nonneg (D : digits_are_naturals) (x : value) :
  normalize_price x = VNone \/ exists q, normalize_price x = VFloat q /\ (0 <= q)%Q.
Proof.
  destruct x as [ |b|z|q|s|t]; cbn [normalize_price]; auto.
  - right. destruct b; eexists; split; try reflexivity; discriminate.
  - destruct (0 <=? z) eqn:Hz; [|auto]. right. eexists. split; [reflexivity|].
    apply Z.leb_le in Hz. unfold Qle. cbn. lia.
  - destruct (Qle_bool 0 q) eqn:Hq; [|auto]. right. exists q. split; [reflexivity|].
    apply Qle_bool_iff, Hq.
  - destruct s as [|c s]; [auto|].
    destruct (price_clean (c :: s)) as [|d cleaned]; [auto|].
    destruct (float_of_clean (d :: cleaned)) as [q|] eqn:Hq; [|auto].
    right. exists q. split; [reflexivity|]. eapply float_of_clean_nonneg; eassumption.
Qed.

Lemma warnings_of (product : gmap string value) :
  no_warning true (dict_get product "price") ->
  no_warning false (dict_get product "rating") ->
  validation_warnings (validate_normalized_product product) = [].
Proof.
  intros Hp Hr. unfold validate_normalized_product.
  destruct (truthy (dict_get product "url") && _); cbn [validation_warnings].
  - destruct Hp as [-> | (p & -> & Hp & _)], Hr as [-> | (r & -> & Hr & Hr5)];
      cbn [is_not_none is_number number_of negb andb orb];
      rewrite ?(proj2 (Qle_bool_iff _ _) Hp), ?(proj2 (Qle_bool_iff _ _) Hr),
        ?(proj2 (Qle_bool_iff _ _) (Hr5 eq_refl)); reflexivity.
  - destruct Hp as [-> | (p & -> & Hp & _)], Hr as [-> | (r & -> & Hr & Hr5)];
      cbn [is_not_none is_number number_of negb andb orb];
      rewrite ?(proj2 (Qle_bool_iff _ _) Hp), ?(proj2 (Qle_bool_iff _ _) Hr),
        ?(proj2 (Qle_bool_iff _ _) (Hr5 eq_refl)); reflexivity.
Qed.

Lemma normalized_price_and_rating (T I : value -> result value)
    (raw d : gmap string value) :
  normalize_product_body (data_normalizer T I) raw = Returns d ->
  (exists x, dict_get d "price" = normalize_price x)
  /\ (exists x, dict_get d "rating" = normalize_rating x).
Proof.
  unfold normalize_product_body. intros Hbody.
  repeat match type of Hbody with
         | bind _ _ = Returns _ =>
             apply bind_returns in Hbody;
             let v := fresh "v" in let Hv := fresh "Hv" in
             destruct Hbody as (v & Hv & Hbody)
         end.
  apply Returns_inj in Hbody. subst d. unfold dict_get.
  repeat first [ rewrite lookup_insert_eq | rewrite lookup_insert_ne by discriminate ].
  cbn [data_normalizer nf_price nf_rating] in *.
  split; eexists; cbn [default];
    match goal with
    | Hx : Returns (normalize_price ?x) = Returns ?v |- ?v = normalize_price _ =>
        apply Returns_inj in Hx; symmetry; exact Hx
    | Hx : Returns (normalize_rating ?x) = Returns ?v |- ?v = normalize_rating _ =>
        apply Returns_inj in Hx; symmetry; exact Hx
    end.
Qed.

(** X8. What [normalize_product] of a [DataNormalizer] answers never
    draws a warning from [validate_normalized_product]: its price is [None]
    or not negative and its rating is [None] or from 0 to 5, also when the
    normalization fails and answers the empty dictionary. The digits of the
    runtime are assumed to stand for natural numbers. *)
Theorem normalized_product_has_no_warnings (T I : value -> result value)
    (raw : gmap string value) :
  digits_are_naturals ->
  exists d,
    normalize_product (data_normalizer T I) raw = Returns d
    /\ validation_warnings (validate_normalized_product d) = [].
Proof.
  intros D. unfold normalize_product.
  destruct (normalize_product_body (data_normalizer T I) raw) as [d|e] eqn:Hbody.
  - exists d. split; [reflexivity|].
    destruct (normalized_price_and_rating T I raw d Hbody) as [[x Hp] [y Hr]].
    apply warnings_of.
    + rewrite Hp. destruct (normalize_price_nonneg D x) as [->|(q & -> & Hq)];
        [left; reflexivity|]. right. exists q. repeat split; auto. discriminate.
    + rewrite Hr. destruct (normalize_rating_cases y) as [->|(q & -> & Hq)];
        [left; reflexivity|]. right. exists q. repeat split; tauto.
  - exists ∅. split; [reflexivity|]. apply warnings_of; left; reflexivity.
Qed.

End Validator.

(** ** Slugs of discovered categories *)

Lemma assoc_app (c : Z) (a b : list (Z * Z)) :
  assoc c (a ++ b) = match assoc c a with Some e => Some e | None => assoc c b end.
Proof.
  induction a as [|[k e] a IH]; simpl; [reflexivity|].
  destruct (c =? k); [reflexivity | exact IH].
Qed.

Lemma vietnamese_lower_closed : closed_table vietnamese_lower_map.
Proof.
  intros k e Hin. apply (assoc_none_below 128).
  - vm_compute. reflexivity.
  - pose proof (vietnamese_lower_values k e Hin). lia.
Qed.

Section DiscoveryFacts.
Context `{Runtime}.

(** What the last three steps of both slug functions make of a lowercase
    text without letters of the table: nothing, or a slug. *)
Lemma finished_slug_shape (s : ustring) :
  Forall (fun c => lower_fixed c /\ assoc c vietnamese_chars_map = None) s ->
  py_strip_chars (u "-") (collapse_seps (drop_special s)) = []
  \/ canonical (py_strip_chars (u "-") (collapse_seps (drop_special s))).
Proof.
  intros H3.
  set (s5 := collapse_seps (drop_special s)).
  assert (H5 : Forall slug_char s5).
  { apply Forall_forall. intros c Hc. apply list_elem_of_In in Hc.
    apply collapse_chars in Hc as [->|[Hc Hsep]]; [left; reflexivity|].
    unfold drop_special in Hc. apply filter_In in Hc as [Hc Hkeep].
    rewrite Forall_forall in H3. destruct (H3 c) as [Hfix Hkey];
      [apply list_elem_of_In; exact Hc|].
    destruct (slug_sep_false c Hsep) as [H45 Hsp].
    right. split; [exact H45|]. split; [exact Hsp|]. split; [|split; assumption].
    unfold slug_keep in Hkeep. rewrite Hsp, H45 in Hkeep.
    rewrite !orb_false_r in Hkeep. exact Hkeep. }
  unfold py_strip_chars. fold is_hyphen.
  destruct (strip_by_ends is_hyphen s5) as [->|[(c & t & Heq & Hc) Hlast]];
    [left; reflexivity|].
  right. split; [apply strip_by_Forall; exact H5|]. split.
  - unfold strip_by. apply hyphenated_rstrip. eapply hyphenated_lstrip.
    apply collapse_hyphenated.
  - split.
    + exists c, t. split; [exact Heq|]. rewrite <- is_hyphen_eqb. exact Hc.
    + eapply last_fails_weaken; [|exact Hlast].
      intros d _ Hd. rewrite <- is_hyphen_eqb. exact Hd.
Qed.

Lemma generate_slug_shape (F : unicode_facts) (text : ustring) :
  generate_slug text = u "unknown" \/ canonical (generate_slug text).
Proof.
  unfold generate_slug.
  set (s3 := replace_all vietnamese_lower_map (str_lower text)).
  assert (H3 : Forall (fun c => lower_fixed c /\ assoc c vietnamese_chars_map = None) s3).
  { unfold s3. rewrite replace_all_map. apply Forall_map.
    apply Forall_forall. intros c Hc.
    apply list_elem_of_In in Hc. apply (lower_chars_fixed F) in Hc.
    rewrite (translit_assoc _ _ vietnamese_lower_closed).
    destruct (assoc c vietnamese_lower_map) as [e|] eqn:He.
    - pose proof (vietnamese_lower_values _ _ (assoc_In _ _ _ He)) as Hrange.
      change (default c (Some e)) with e. split; [apply (ascii_lower_fixed F); auto|].
      apply (assoc_none_below 128); [exact chars_map_above | lia].
    - change (default c None) with c. split; [exact Hc|].
      unfold vietnamese_chars_map. rewrite assoc_app, He.
      destruct (assoc c vietnamese_upper_map) as [e|] eqn:Hu; [|reflexivity].
      exfalso. exact (upper_keys_not_fixed F _ _ (assoc_In _ _ _ Hu) Hc). }
  destruct (finished_slug_shape s3 H3) as [-> | Hcan]; [left; reflexivity|].
  right. destruct (py_strip_chars _ _) as [|c t] eqn:Hs; [|exact Hcan].
  destruct Hcan as (_ & _ & (c & t & Hct & _) & _). discriminate.
Qed.

(** X9. A slug that [CategoryDiscovery._generate_slug] makes is never
    empty and is a fixed point of [DataNormalizer.normalize_slug]: the
    normalizer stores the slug of a discovered category as the discovery
    made it. *)
Theorem generated_slug_is_normalized (F : unicode_facts) (text : ustring) :
  normalize_slug (VStr (generate_slug text)) = generate_slug text
  /\ generate_slug text <> [].
Proof.
  destruct (generate_slug_shape F text) as [Hu | Hcan].
  - rewrite Hu. split; [|discriminate].
    apply (normalize_slug_canonical F), (unknown_canonical F).
  - split; [apply (normalize_slug_canonical F), Hcan|].
    destruct Hcan as (_ & _ & (c & t & -> & _) & _). discriminate.
Qed.

End DiscoveryFacts.

Lemma generated_slug_is_normalized_witness :
  @normalize_slug latin (VStr (@generate_slug latin son_moi)) = @generate_slug latin son_moi.
Proof. exact (proj1 (@generated_slug_is_normalized latin latin_facts son_moi)). Defined.

Example generate_slug_son_moi : @generate_slug latin son_moi = u "son-moi".
Proof. vm_compute. reflexivity. Qed.

(** ** Rows found again *)

Lemma find_row_insert (p : row -> bool) (rows : list row) (i : nat) (old new : row) :
  find_row p rows = Some (i, old) -> p new = true ->
  find_row p (<[i := new]> rows) = Some (i, new).
Proof.
  revert i. induction rows as [|x rows IH]; simpl; intros i Hfind Hnew; [discriminate|].
  destruct (p x) eqn:Hx.
  - injection Hfind as <- <-. simpl. rewrite Hnew. reflexivity.
  - destruct (find_row p rows) as [[j y]|] eqn:Hrest; [|discriminate].
    injection Hfind as <- <-. simpl. rewrite Hx, (IH j eq_refl Hnew). reflexivity.
Qed.

Lemma find_row_insert_none (p : row -> bool) (rows : list row) (i : nat) (old new : row) :
  find_row p rows = None -> rows !! i = Some old -> p new = true ->
  find_row p (<[i := new]> rows) = Some (i, new).
Proof.
  revert i. induction rows as [|x rows IH]; simpl; intros i Hnone Hi Hnew; [discriminate|].
  destruct (p x) eqn:Hx; [discriminate|].
  destruct (find_row p rows) as [[j y]|] eqn:Hrest; [discriminate|].
  destruct i as [|i]; simpl in *.
  - rewrite Hnew. reflexivity.
  - rewrite Hx, (IH i eq_refl Hi Hnew). reflexivity.
Qed.

Lemma find_row_lt (p : row -> bool) (rows : list row) (i : nat) (r : row) :
  find_row p rows = Some (i, r) -> (i < length rows)%nat.
Proof.
  intros Hfind. apply find_row_some in Hfind as [Hi _].
  eapply lookup_lt_Some. exact Hi.
Qed.

(** ** The shape of an upsert *)

Lemma upsert_category_created (now : Z) (data : gmap string value)
    (db db' : database) (c : row) :
  upsert_category now data db = (db', Returns (c, true)) ->
  exists slug name,
    data !! "slug" = Some slug /\ data !! "name" = Some name
    /\ find_row (col_is "slug" slug) (categories db) = None
    /\ categories db' = categories db ++ [c]
    /\ dict_get c "slug" = slug /\ dict_get c "name" = name.
Proof.
  unfold upsert_category, dict_item. intros Hup.
  destruct (data !! "slug") as [slug|] eqn:Hslug; [|discriminate].
  destruct (find_row _ _) as [[i old]|] eqn:Hfind.
  - destruct (setattrs _ _ _ _); [|discriminate].
    destruct (update_ok _ _ _ _ _); discriminate.
  - destruct (data !! "name") as [name|] eqn:Hname; [|discriminate].
    destruct (data !! "url") as [url|] eqn:Hurl; [|discriminate].
    destruct (insert_ok _ _ _); [|discriminate].
    injection Hup as <- <-. exists slug, name.
    destruct (new_category_lookup (next_id (categories db)) now name slug url
                (dict_get_or data "description" (VStr []))
                (match (if truthy (dict_get data "parent_slug")
                        then find_row (col_is "slug" (dict_get data "parent_slug"))
                               (categories db)
                        else None) with
                 | Some (_, p) => dict_get p "id"
                 | None => VNone
                 end)) as (_ & Hn & Hs & _).
    repeat split; auto.
Qed.

Lemma upsert_brand_created (now : Z) (data : gmap string value)
    (db db' : database) (b : row) :
  upsert_brand now data db = (db', Returns (b, true)) ->
  exists slug name,
    data !! "slug" = Some slug /\ data !! "name" = Some name
    /\ find_row (col_is "slug" slug) (brands db) = None
    /\ brands db' = brands db ++ [b]
    /\ dict_get b "slug" = slug /\ dict_get b "name" = name.
Proof.
  unfold upsert_brand, dict_item. intros Hup.
  destruct (data !! "slug") as [slug|] eqn:Hslug; [|discriminate].
  destruct (find_row _ _) as [[i old]|] eqn:Hfind.
  - destruct (setattrs _ _ _ _); [|discriminate].
    destruct (update_ok _ _ _ _ _); discriminate.
  - destruct (data !! "name") as [name|] eqn:Hname; [|discriminate].
    destruct (insert_ok _ _ _); [|discriminate].
    injection Hup as <- <-. exists slug, name.
    destruct (new_brand_lookup (next_id (brands db)) now name slug
                (dict_get_or data "url" (VStr []))
                (dict_get_or data "description" (VStr []))) as (_ & Hn & Hs).
    repeat split; auto.
Qed.

Lemma upsert_category_raises (now : Z) (data : gmap string value)
    (db db' : database) (e : exn) :
  upsert_category now data db = (db', Raises e) -> db' = db.
Proof.
  unfold upsert_category. intros Hup.
  repeat case_match; injection Hup as <-; try discriminate; reflexivity.
Qed.

Lemma upsert_brand_raises (now : Z) (data : gmap string value)
    (db db' : database) (e : exn) :
  upsert_brand now data db = (db', Raises e) -> db' = db.
Proof.
  unfold upsert_brand. intros Hup.
  repeat case_match; injection Hup as <-; try discriminate; reflexivity.
Qed.

Lemma upsert_category_step (now : Z) (data : gmap string value) (db : database) :
  table_step (categories db) (categories (fst (upsert_category now data db))).
Proof.
  destruct (upsert_category now data db) as [db' [[c [|]]|e]] eqn:Hup; cbn [fst].
  - destruct (upsert_category_created _ _ _ _ _ Hup)
      as (slug & name & _ & _ & Hfind & Hrows & Hs & _).
    right. left. exists c. rewrite Hs. auto.
  - destruct (upsert_category_found _ _ _ _ _ Hup)
      as (i & old & slug & Hslug & Hfind & Hrows & Hlook).
    right. right. exists i, old, c. apply find_row_some in Hfind as [Hi _].
    repeat split; auto.
    rewrite Hlook. unfold stored_over, assigned. rewrite Hslug. reflexivity.
  - left. rewrite (upsert_category_raises _ _ _ _ _ Hup). reflexivity.
Qed.

Lemma upsert_brand_step (now : Z) (data : gmap string value) (db : database) :
  table_step (brands db) (brands (fst (upsert_brand now data db))).
Proof.
  destruct (upsert_brand now data db) as [db' [[c [|]]|e]] eqn:Hup; cbn [fst].
  - destruct (upsert_brand_created _ _ _ _ _ Hup)
      as (slug & name & _ & _ & Hfind & Hrows & Hs & _).
    right. left. exists c. rewrite Hs. auto.
  - destruct (upsert_brand_found _ _ _ _ _ Hup)
      as (i & old & slug & Hslug & Hfind & Hrows & Hlook).
    right. right. exists i, old, c. apply find_row_some in Hfind as [Hi _].
    repeat split; auto.
    rewrite Hlook. unfold stored_over, assigned. rewrite Hslug. reflexivity.
  - left. rewrite (upsert_brand_raises _ _ _ _ _ Hup). reflexivity.
Qed.


Section ProductShape.
Context `{Runtime}.

Lemma resolve_category_step (now : Z) (data : gmap string value) (db : database) :
  table_step (categories db) (categories (fst (resolve_category now data db))).
Proof.
  unfold resolve_category, get_or_create_category_by_name.
  destruct (truthy _); [|left; reflexivity].
  destruct (negb _); [left; reflexivity|].
  destruct (find_row _ _) as [[i c]|]; [left; reflexivity|].
  pose proof (upsert_category_step now (stub_data (dict_get data "category_name")) db) as Hs.
  destruct (upsert_category _ _ db) as [db' [[c b]|e]]; exact Hs.
Qed.

Lemma resolve_brand_step (now : Z) (data : gmap string value) (db : database) :
  table_step (brands db) (brands (fst (resolve_brand now data db))).
Proof.
  unfold resolve_brand, get_or_create_brand_by_name.
  destruct (truthy _); [|left; reflexivity].
  destruct (negb _); [left; reflexivity|].
  destruct (find_row _ _) as [[i c]|]; [left; reflexivity|].
  pose proof (upsert_brand_step now (stub_data (dict_get data "brand_name")) db) as Hs.
  destruct (upsert_brand _ _ db) as [db' [[c b]|e]]; exact Hs.
Qed.

(** The categories and the brands after [upsert_product] are the ones
    that the resolution of the two names leaves. *)
Lemma upsert_product_references (now : Z) (data : gmap string value) (db : database) :
  let db1 := fst (resolve_category now data db) in
  let db2 := fst (resolve_brand now data db1) in
  let db' := fst (upsert_product now data db) in
  (categories db' = categories db /\ brands db' = brands db)
  \/ (categories db' = categories db1 /\ brands db' = brands db2).
Proof.
  cbv zeta.
  pose proof (resolve_category_frame now data db) as (_ & _ & Hb1).
  pose proof (resolve_brand_frame now data (fst (resolve_category now data db)))
    as (_ & _ & Hc2).
  unfold upsert_product, update_product, create_product.
  destruct (resolve_category now data db) as [db1 category] eqn:Hc.
  cbn [fst] in *.
  destruct (resolve_brand now data db1) as [db2 brand] eqn:Hb.
  cbn [fst] in *.
  repeat case_match; cbn [fst categories brands set_products]; auto.
Qed.

Lemma upsert_product_created (now : Z) (data : gmap string value)
    (db db' : database) (r : row) :
  upsert_product now data db = (db', Returns (r, true)) ->
  exists slug url,
    data !! "slug" = Some slug /\ data !! "url" = Some url
    /\ find_row (slug_or_url slug url) (products db) = None
    /\ products db' = products db ++ [r]
    /\ r !! "slug" = Some slug /\ r !! "url" = Some url
    /\ r !! "updated_at" = Some (VDate now).
Proof.
  unfold upsert_product, dict_item. intros Hup.
  destruct (data !! "slug") as [slug|] eqn:Hslug; [|discriminate].
  destruct (data !! "url") as [url|] eqn:Hurl; [|discriminate].
  pose proof (resolve_both_frame now data db) as [_ Hprod]. cbv zeta in Hprod.
  destruct (find_row _ _) as [[i old]|] eqn:Hfind.
  - unfold update_product in Hup.
    destruct (setattrs _ _ _ _) as [x|e]; [|discriminate].
    destruct (negb _); [discriminate|].
    destruct (resolve_category now data db) as [db1 category].
    destruct (resolve_brand now data db1) as [db2 brand].
    destruct (update_ok _ _ _ _ _); discriminate.
  - unfold create_product, dict_item in Hup.
    destruct (resolve_category now data db) as [db1 category].
    cbn [fst] in Hprod.
    destruct (resolve_brand now data db1) as [db2 brand].
    cbn [fst] in Hprod.
    destruct (data !! "name") as [name|]; [|discriminate].
    destruct (insert_ok _ _ _); [|discriminate].
    injection Hup as <- <-. exists slug, url.
    destruct (new_product_lookup (next_id (products db2)) now data name slug url
                category brand) as (_ & _ & Ls & Lu & _).
    repeat split; auto.
    cbn [products set_products]. rewrite Hprod. reflexivity.
Qed.

Lemma upsert_product_raises (now : Z) (data : gmap string value)
    (db db' : database) (e : exn) :
  upsert_product now data db = (db', Raises e) -> products db' = products db.
Proof.
  pose proof (resolve_both_frame now data db) as [_ Hprod]. cbv zeta in Hprod.
  unfold upsert_product, update_product, create_product. intros Hup.
  destruct (resolve_category now data db) as [db1 category].
  cbn [fst] in Hprod.
  destruct (resolve_brand now data db1) as [db2 brand].
  cbn [fst] in Hprod.
  repeat case_match; injection Hup as <-; try discriminate;
    cbn [products set_products]; congruence.
Qed.

End ProductShape.


(** ** Upsert, then look up *)

Lemma col_is_refl (col : string) (r : row) : col_is col (dict_get r col) r = true.
Proof. unfold col_is. apply value_eqb_refl. Qed.

Lemma col_is_same (col : string) (v : value) (old new : row) :
  new !! col = old !! col -> col_is col v new = col_is col v old.
Proof. unfold col_is, dict_get. intros ->. reflexivity. Qed.

Lemma upsert_category_lookup (now : Z) (data : gmap string value)
    (db db' : database) (c : row) (created : bool) (slug : value) :
  upsert_category now data db = (db', Returns (c, created)) ->
  data !! "slug" = Some slug ->
  exists i, find_row (col_is "slug" slug) (categories db') = Some (i, c).
Proof.
  intros Hup Hslug. destruct created.
  - destruct (upsert_category_created _ _ _ _ _ Hup)
      as (slug' & name & Hslug' & _ & Hfind & Hrows & Hs & _).
    assert (E : slug' = slug) by congruence. rewrite E in *. clear E.
    exists (length (categories db)). rewrite Hrows.
    apply find_row_app_new; [exact Hfind|]. rewrite <- Hs. apply col_is_refl.
  - destruct (upsert_category_found _ _ _ _ _ Hup)
      as (i & old & slug' & Hslug' & Hfind & Hrows & Hlook).
    assert (E : slug' = slug) by congruence. rewrite E in *. clear E.
    exists i. rewrite Hrows. eapply find_row_insert; [exact Hfind|].
    rewrite (col_is_same "slug" slug old c).
    + apply find_row_some in Hfind. apply Hfind.
    + rewrite Hlook. unfold stored_over, assigned. rewrite Hslug. reflexivity.
Qed.

Lemma upsert_brand_lookup (now : Z) (data : gmap string value)
    (db db' : database) (b : row) (created : bool) (slug : value) :
  upsert_brand now data db = (db', Returns (b, created)) ->
  data !! "slug" = Some slug ->
  exists i, find_row (col_is "slug" slug) (brands db') = Some (i, b).
Proof.
  intros Hup Hslug. destruct created.
  - destruct (upsert_brand_created _ _ _ _ _ Hup)
      as (slug' & name & Hslug' & _ & Hfind & Hrows & Hs & _).
    assert (E : slug' = slug) by congruence. rewrite E in *. clear E.
    exists (length (brands db)). rewrite Hrows.
    apply find_row_app_new; [exact Hfind|]. rewrite <- Hs. apply col_is_refl.
  - destruct (upsert_brand_found _ _ _ _ _ Hup)
      as (i & old & slug' & Hslug' & Hfind & Hrows & Hlook).
    assert (E : slug' = slug) by congruence. rewrite E in *. clear E.
    exists i. rewrite Hrows. eapply find_row_insert; [exact Hfind|].
    rewrite (col_is_same "slug" slug old b).
    + apply find_row_some in Hfind. apply Hfind.
    + rewrite Hlook. unfold stored_over, assigned. rewrite Hslug. reflexivity.
Qed.

Section Lookup.
Context `{Runtime}.

Lemma upsert_product_lookup (now : Z) (data : gmap string value)
    (db db' : database) (r : row) (created : bool) (slug url : value) :
  upsert_product now data db = (db', Returns (r, created)) ->
  data !! "slug" = Some slug -> data !! "url" = Some url ->
  exists i, find_row (slug_or_url slug url) (products db') = Some (i, r).
Proof.
  intros Hup Hslug Hurl. destruct created.
  - destruct (upsert_product_created _ _ _ _ _ Hup)
      as (slug' & url' & Hslug' & Hurl' & Hfind & Hrows & Ls & _).
    assert (E : slug' = slug) by congruence. rewrite E in *. clear E.
    assert (E : url' = url) by congruence. rewrite E in *. clear E.
    exists (length (products db)). rewrite Hrows.
    apply find_row_app_new; [exact Hfind|].
    unfold slug_or_url, col_is. rewrite (dict_get_lookup _ _ _ Ls), value_eqb_refl.
    reflexivity.
  - destruct (upsert_product_found _ _ _ _ _ Hup)
      as (i & old & slug' & url' & Hslug' & Hurl' & Hfind & Hrows & Hlook).
    assert (E : slug' = slug) by congruence. rewrite E in *. clear E.
    assert (E : url' = url) by congruence. rewrite E in *. clear E.
    exists i. rewrite Hrows. eapply find_row_insert; [exact Hfind|].
    apply find_row_some in Hfind as [_ Hold].
    unfold slug_or_url in *. apply orb_true_iff in Hold. apply orb_true_iff.
    destruct Hold as [Hold|Hold].
    + left. rewrite (col_is_same "slug" slug old r); [exact Hold|].
      rewrite Hlook. unfold product_stored_over, assigned. cbn [String.eqb Ascii.eqb Bool.eqb].
      rewrite Hslug. reflexivity.
    + right. unfold col_is, dict_get. rewrite Hlook.
      unfold product_stored_over, assigned. cbn [String.eqb Ascii.eqb Bool.eqb].
      rewrite Hurl. unfold keep_product_field.
      destruct (is_not_none url) eqn:Hn; cbn.
      * apply value_eqb_refl.
      * exact Hold.
Qed.

End Lookup.

(** X11. A row that an upsert answers is found again by its slug:
    [get_category_by_slug] and [get_brand_by_slug] answer the row that
    [upsert_category] and [upsert_brand] returned, the lookup of
    [upsert_product] by slug or url finds the product it returned, and
    [check_product_exists] holds for a product just created. *)
Theorem upsert_then_lookup `{Runtime} (now : Z) (data : gmap string value)
    (db db' : database) (r : row) (created : bool) (slug : ustring) :
  data !! "slug" = Some (VStr slug) ->
  (upsert_category now data db = (db', Returns (r, created)) ->
   get_category_by_slug slug db' = Some r)
  /\ (upsert_brand now data db = (db', Returns (r, created)) ->
      get_brand_by_slug slug db' = Some r)
  /\ (upsert_product now data db = (db', Returns (r, created)) ->
      (forall url, data !! "url" = Some url ->
         exists i, find_row (slug_or_url (VStr slug) url) (products db') = Some (i, r))
      /\ (created = true -> check_product_exists slug db' = true)).
Proof.
  intros Hslug. split; [|split].
  - intros Hup. destruct (upsert_category_lookup _ _ _ _ _ _ _ Hup Hslug) as [i Hi].
    unfold get_category_by_slug. rewrite Hi. reflexivity.
  - intros Hup. destruct (upsert_brand_lookup _ _ _ _ _ _ _ Hup Hslug) as [i Hi].
    unfold get_brand_by_slug. rewrite Hi. reflexivity.
  - intros Hup. split.
    + intros url Hurl. eapply upsert_product_lookup; eassumption.
    + intros ->. destruct (upsert_product_created _ _ _ _ _ Hup)
        as (slug' & url' & Hslug' & _ & Hfind & Hrows & Ls & _).
      assert (E : slug' = VStr slug) by congruence. rewrite E in *. clear E.
      unfold check_product_exists. rewrite Hrows.
      rewrite (find_row_app_new _ _ r); [reflexivity| |].
      * apply find_row_none. intros x Hx.
        pose proof (proj1 (find_row_none _ _) Hfind x Hx) as Hno.
        unfold slug_or_url in Hno. apply orb_false_iff in Hno. apply Hno.
      * unfold col_is. rewrite (dict_get_lookup _ _ _ Ls). apply value_eqb_refl.
Qed.

(** ** Products seen by the incremental crawl *)

Lemma In_insert {A} (l : list A) (i : nat) (x : A) :
  (i < length l)%nat -> In x (<[i := x]> l).
Proof.
  revert i. induction l as [|a l IH]; intros i Hi; simpl in Hi; [lia|].
  destruct i as [|i]; simpl; [auto|]. right. apply IH. lia.
Qed.

(** X12. A product that [upsert_product] returns, created or updated, is
    among the answers of [get_products_modified_since] for every date up
    to the time of the upsert. *)
Theorem upserted_product_is_modified `{Runtime} (now since : Z)
    (data : gmap string value) (db db' : database) (r : row) (created : bool) :
  upsert_product now data db = (db', Returns (r, created)) ->
  since <= now ->
  In r (get_products_modified_since since db').
Proof.
  intros Hup Hsince. unfold get_products_modified_since. apply filter_In.
  destruct created.
  - destruct (upsert_product_created _ _ _ _ _ Hup)
      as (? & ? & _ & _ & _ & Hrows & _ & _ & Hat).
    split.
    + rewrite Hrows. apply in_or_app. right. left. reflexivity.
    + rewrite (dict_get_lookup _ _ _ Hat). apply Z.leb_le. exact Hsince.
  - destruct (upsert_product_found _ _ _ _ _ Hup)
      as (i & old & ? & ? & _ & _ & Hfind & Hrows & Hlook).
    split.
    + rewrite Hrows. apply In_insert. eapply find_row_lt. exact Hfind.
    + unfold dict_get. rewrite Hlook. unfold product_stored_over.
      cbn [String.eqb Ascii.eqb Bool.eqb default]. apply Z.leb_le. exact Hsince.
Qed.

(** ** Rows added by a batch *)

Section BulkRows.
Context `{Runtime}.

Lemma upsert_product_rows (now : Z) (data : gmap string value) (db : database) :
  let '(db', outcome) := upsert_product now data db in
  length (products db') =
    match outcome with
    | Returns (_, true) => S (length (products db))
    | _ => length (products db)
    end.
Proof.
  destruct (upsert_product now data db) as [db' [[r [|]]|e]] eqn:Hup.
  - destruct (upsert_product_created _ _ _ _ _ Hup) as (? & ? & _ & _ & _ & -> & _).
    rewrite length_app. simpl. lia.
  - destruct (upsert_product_found _ _ _ _ _ Hup) as (i & old & ? & ? & _ & _ & _ & -> & _).
    apply length_insert.
  - rewrite (upsert_product_raises _ _ _ _ _ Hup). reflexivity.
Qed.

Lemma bulk_loop_rows (clock : nat -> Z) (data : list (gmap string value)) :
  forall n stats db,
    let '(db', stats') := bulk_loop clock n data stats db in
    Z.of_nat (length (products db')) - created stats'
    = Z.of_nat (length (products db)) - created stats.
Proof.
  induction data as [|pd rest IH]; intros n stats db; simpl; [reflexivity|].
  pose proof (upsert_product_rows (clock n) pd db) as Hrows.
  destruct (upsert_product (clock n) pd db) as [db1 [[r [|]]|e]];
    match goal with
    | |- context [bulk_loop clock (S n) rest ?st ?d] =>
        specialize (IH (S n) st d);
        destruct (bulk_loop clock (S n) rest st d) as [db2 stats2]
    end;
    simpl in *; lia.
Qed.

(** X13. [bulk_upsert_products] adds to the products table exactly as
    many rows as its [created] counter says, and that counter lies between
    0 and the size of the batch. *)
Theorem bulk_upsert_adds_created_rows (clock : nat -> Z)
    (data : list (gmap string value)) (db : database) :
  let '(db', stats) := bulk_upsert_products clock data db in
  Z.of_nat (length (products db')) = Z.of_nat (length (products db)) + created stats
  /\ 0 <= created stats <= Z.of_nat (length data).
Proof.
  unfold bulk_upsert_products.
  pose proof (bulk_loop_rows clock data 0
                {| total := Z.of_nat (length data); created := 0;
                   updated := 0; errors := 0 |} db) as Hrows.
  pose proof (bulk_loop_tally clock data 0
                {| total := Z.of_nat (length data); created := 0;
                   updated := 0; errors := 0 |} db) as Ht.
  assert (Hpos : forall d n st db0,
            0 <= created st -> 0 <= updated st -> 0 <= errors st ->
            let '(_, st') := bulk_loop clock n d st db0 in
            0 <= created st' /\ 0 <= updated st' /\ 0 <= errors st').
  { induction d as [|pd rest IH]; intros n st db0 H1 H2 H3; simpl; [auto|].
    destruct (upsert_product (clock n) pd db0) as [db1 [[r [|]]|e]];
      apply IH; simpl; lia. }
  specialize (Hpos data 0%nat
                {| total := Z.of_nat (length data); created := 0;
                   updated := 0; errors := 0 |} db).
  destruct (bulk_loop clock 0 data _ db) as [db' stats'].
  unfold tally in Ht. simpl in *.
  destruct Hpos as (? & ? & ?); lia.
Qed.

End BulkRows.

(** ** Get or create *)

Section GetOrCreate.
Context `{Runtime}.

(** The upsert of the get-or-create helpers cannot fail: the name is new,
    and the slug is either new or the slug of the row that takes the
    name. *)
Lemma upsert_category_stub_returns (now : Z) (name : value) (db : database) :
  truthy name = true ->
  find_row (col_is "name" name) (categories db) = None ->
  exists db' c created,
    upsert_category now (stub_data name) db = (db', Returns (c, created)).
Proof.
  intros Hname Hfresh.
  destruct (stub_data_lookup name) as (Hn & Hs & Hu & Hd & Hi & Hp).
  unfold upsert_category, dict_item. rewrite Hs.
  destruct (find_row (col_is "slug" _) _) as [[i existing]|] eqn:Hfind.
  - pose proof (setattrs_spec category_schema keep_truthy_not_slug (stub_data name)
                  existing) as Hset.
    destruct (setattrs _ _ _ _) as [r|e].
    2:{ exfalso. revert Hset. apply stub_data_no_relationship.
        intros k [<-|[<-|[<-|[]]]]; repeat split; discriminate. }
    destruct Hset as [_ Hlook].
    set (updated := <["updated_at" := VDate now]> r).
    assert (Hid : updated !! "id" = existing !! "id").
    { unfold updated. rewrite lookup_insert_ne by discriminate.
      rewrite Hlook. unfold assigned. rewrite Hi. reflexivity. }
    assert (Hsl : updated !! "slug" = existing !! "slug").
    { unfold updated. rewrite lookup_insert_ne by discriminate.
      rewrite Hlook. unfold assigned. rewrite Hs. reflexivity. }
    assert (Hur : updated !! "url" = existing !! "url").
    { unfold updated. rewrite lookup_insert_ne by discriminate.
      rewrite Hlook. unfold assigned. rewrite Hu. reflexivity. }
    assert (Hna : dict_get updated "name" = name).
    { unfold dict_get, updated. rewrite lookup_insert_ne by discriminate.
      rewrite Hlook. unfold assigned. rewrite Hn.
      unfold keep_truthy_not_slug. rewrite Hname. reflexivity. }
    assert (Hok : update_ok category_schema (categories db) i existing updated = true).
    { unfold update_ok. cbn [not_null unique category_schema forallb].
      rewrite (unchanged "id" _ _ Hid), (unchanged "slug" _ _ Hsl),
        (unchanged "url" _ _ Hur), Hna.
      rewrite (truthy_not_none _ Hname), (no_collision_others _ _ _ i Hfresh).
      rewrite !orb_true_r. reflexivity. }
    rewrite Hok. eauto.
  - assert (Hps : dict_get (stub_data name) "parent_slug" = VNone)
      by (unfold dict_get; rewrite Hp; reflexivity).
    rewrite Hps, Hn, Hu. cbn [truthy].
    set (c := new_category _ _ _ _ _ _ _).
    destruct (new_category_lookup (next_id (categories db)) now name
                (VStr (normalize_slug name)) (VStr [])
                (dict_get_or (stub_data name) "description" (VStr [])) VNone)
      as (Hcid & Hcn & Hcs & Hcu).
    fold c in Hcid, Hcn, Hcs, Hcu.
    assert (Hok : insert_ok category_schema (categories db) c = true).
    { unfold insert_ok. cbn [not_null unique category_schema forallb].
      rewrite Hcid, Hcn, Hcs, Hcu.
      rewrite (truthy_not_none _ Hname), no_collision_fresh_id,
        (no_collision_intro _ _ _ Hfresh), (no_collision_intro _ _ _ Hfind).
      reflexivity. }
    rewrite Hok. eauto.
Qed.

Lemma upsert_brand_stub_returns (now : Z) (name : value) (db : database) :
  truthy name = true ->
  find_row (col_is "name" name) (brands db) = None ->
  exists db' b created,
    upsert_brand now (stub_data name) db = (db', Returns (b, created)).
Proof.
  intros Hname Hfresh.
  destruct (stub_data_lookup name) as (Hn & Hs & Hu & Hd & Hi & Hp).
  unfold upsert_brand, dict_item. rewrite Hs.
  destruct (find_row (col_is "slug" _) _) as [[i existing]|] eqn:Hfind.
  - pose proof (setattrs_spec brand_schema keep_truthy_not_slug (stub_data name)
                  existing) as Hset.
    destruct (setattrs _ _ _ _) as [r|e].
    2:{ exfalso. revert Hset. apply stub_data_no_relationship.
        intros k [<-|[]]; repeat split; discriminate. }
    destruct Hset as [_ Hlook].
    set (updated := <["updated_at" := VDate now]> r).
    assert (Hid : updated !! "id" = existing !! "id").
    { unfold updated. rewrite lookup_insert_ne by discriminate.
      rewrite Hlook. unfold assigned. rewrite Hi. reflexivity. }
    assert (Hsl : updated !! "slug" = existing !! "slug").
    { unfold updated. rewrite lookup_insert_ne by discriminate.
      rewrite Hlook. unfold assigned. rewrite Hs. reflexivity. }
    assert (Hna : dict_get updated "name" = name).
    { unfold dict_get, updated. rewrite lookup_insert_ne by discriminate.
      rewrite Hlook. unfold assigned. rewrite Hn.
      unfold keep_truthy_not_slug. rewrite Hname. reflexivity. }
    assert (Hok : update_ok brand_schema (brands db) i existing updated = true).
    { unfold update_ok. cbn [not_null unique brand_schema forallb].
      rewrite (unchanged "id" _ _ Hid), (unchanged "slug" _ _ Hsl), Hna.
      rewrite (truthy_not_none _ Hname), (no_collision_others _ _ _ i Hfresh).
      rewrite !orb_true_r. reflexivity. }
    rewrite Hok. eauto.
  - rewrite Hn.
    set (b := new_brand _ _ _ _ _ _).
    destruct (new_brand_lookup (next_id (brands db)) now name
                (VStr (normalize_slug name))
                (dict_get_or (stub_data name) "url" (VStr []))
                (dict_get_or (stub_data name) "description" (VStr [])))
      as (Hbid & Hbn & Hbs).
    fold b in Hbid, Hbn, Hbs.
    assert (Hok : insert_ok brand_schema (brands db) b = true).
    { unfold insert_ok. cbn [not_null unique brand_schema forallb].
      rewrite Hbid, Hbn, Hbs.
      rewrite (truthy_not_none _ Hname), no_collision_fresh_id,
        (no_collision_intro _ _ _ Hfresh), (no_collision_intro _ _ _ Hfind).
      reflexivity. }
    rewrite Hok. eauto.
Qed.

Lemma stored_name (s : schema) (now : Z) (name : value) (old : row) :
  truthy name = true -> mem_string "name" (columns s) = true ->
  stored_over s now (stub_data name) old "name" = Some name.
Proof.
  intros Hname Hcol. unfold stored_over, assigned.
  destruct (stub_data_lookup name) as (-> & _).
  cbn [String.eqb Ascii.eqb Bool.eqb]. unfold keep_truthy_not_slug.
  rewrite Hname, Hcol. reflexivity.
Qed.

Lemma get_or_create_category_stable (now now' : Z) (name : value) (db : database) :
  truthy name = true ->
  exists db' c,
    get_or_create_category_by_name now name db = (db', Some c)
    /\ col_is "name" name c = true
    /\ get_or_create_category_by_name now' name db' = (db', Some c).
Proof.
  intros Hname. unfold get_or_create_category_by_name. rewrite Hname. cbn [negb].
  destruct (find_row (col_is "name" name) (categories db)) as [[i c]|] eqn:Hfind.
  - exists db, c. rewrite Hfind. repeat split.
    apply find_row_some in Hfind. apply Hfind.
  - destruct (upsert_category_stub_returns now name db Hname Hfind)
      as (db' & c & created & Hup).
    rewrite Hup. exists db', c.
    assert (Hc : col_is "name" name c = true
                 /\ exists j, find_row (col_is "name" name) (categories db') = Some (j, c)).
    { destruct created.
      - destruct (upsert_category_created _ _ _ _ _ Hup)
          as (slug & name' & _ & Hn & _ & Hrows & _ & Hcn).
        destruct (stub_data_lookup name) as (Hn' & _).
        assert (E : name' = name) by congruence. rewrite E in *. clear E.
        assert (Hcol : col_is "name" name c = true)
          by (rewrite <- Hcn; apply col_is_refl).
        split; [exact Hcol|]. exists (length (categories db)). rewrite Hrows.
        apply find_row_app_new; assumption.
      - destruct (upsert_category_found _ _ _ _ _ Hup)
          as (i & old & slug & _ & Hslug & Hrows & Hlook).
        assert (Hcol : col_is "name" name c = true).
        { unfold col_is, dict_get.
          rewrite Hlook, (stored_name category_schema _ _ _ Hname eq_refl).
          apply value_eqb_refl. }
        split; [exact Hcol|]. exists i. rewrite Hrows.
        apply find_row_some in Hslug as [Hi _].
        eapply find_row_insert_none; eassumption. }
    destruct Hc as [Hcol [j Hj]]. rewrite Hj. auto.
Qed.

Lemma get_or_create_brand_stable (now now' : Z) (name : value) (db : database) :
  truthy name = true ->
  exists db' b,
    get_or_create_brand_by_name now name db = (db', Some b)
    /\ col_is "name" name b = true
    /\ get_or_create_brand_by_name now' name db' = (db', Some b).
Proof.
  intros Hname. unfold get_or_create_brand_by_name. rewrite Hname. cbn [negb].
  destruct (find_row (col_is "name" name) (brands db)) as [[i c]|] eqn:Hfind.
  - exists db, c. rewrite Hfind. repeat split.
    apply find_row_some in Hfind. apply Hfind.
  - destruct (upsert_brand_stub_returns now name db Hname Hfind)
      as (db' & c & created & Hup).
    rewrite Hup. exists db', c.
    assert (Hc : col_is "name" name c = true
                 /\ exists j, find_row (col_is "name" name) (brands db') = Some (j, c)).
    { destruct created.
      - destruct (upsert_brand_created _ _ _ _ _ Hup)
          as (slug & name' & _ & Hn & _ & Hrows & _ & Hcn).
        destruct (stub_data_lookup name) as (Hn' & _).
        assert (E : name' = name) by congruence. rewrite E in *. clear E.
        assert (Hcol : col_is "name" name c = true)
          by (rewrite <- Hcn; apply col_is_refl).
        split; [exact Hcol|]. exists (length (brands db)). rewrite Hrows.
        apply find_row_app_new; assumption.
      - destruct (upsert_brand_found _ _ _ _ _ Hup)
          as (i & old & slug & _ & Hslug & Hrows & Hlook).
        assert (Hcol : col_is "name" name c = true).
        { unfold col_is, dict_get.
          rewrite Hlook, (stored_name brand_schema _ _ _ Hname eq_refl).
          apply value_eqb_refl. }
        split; [exact Hcol|]. exists i. rewrite Hrows.
        apply find_row_some in Hslug as [Hi _].
        eapply find_row_insert_none; eassumption. }
    destruct Hc as [Hcol [j Hj]]. rewrite Hj. auto.
Qed.

End GetOrCreate.

(** X14. [_get_or_create_category_by_name] and
    [_get_or_create_brand_by_name] answer, for a non-empty name, a row
    with that name, and asking again for the same name answers the same
    row and leaves the database as it is. *)
Theorem get_or_create_by_name_is_stable `{Runtime} (now now' : Z) (name : value)
    (db : database) :
  truthy name = true ->
  (exists db' c,
     get_or_create_category_by_name now name db = (db', Some c)
     /\ col_is "name" name c = true
     /\ get_or_create_category_by_name now' name db' = (db', Some c))
  /\ (exists db' b,
        get_or_create_brand_by_name now name db = (db', Some b)
        /\ col_is "name" name b = true
        /\ get_or_create_brand_by_name now' name db' = (db', Some b)).
Proof.
  intros Hname. split.
  - apply get_or_create_category_stable. exact Hname.
  - apply get_or_create_brand_stable. exact Hname.
Qed.

(** ** Distinct slugs *)

Lemma value_eqb_sym (a b : value) : value_eqb a b = value_eqb b a.
Proof.
  destruct a, b; simpl; try reflexivity.
  - destruct b0, b; reflexivity.
  - apply Z.eqb_sym.
  - unfold Qeq_bool. apply Z.eqb_sym.
  - apply bool_decide_ext. split; congruence.
  - apply Z.eqb_sym.
Qed.

Lemma distinct_on_app (col : string) (rows : list row) (r : row) :
  distinct_on col rows ->
  find_row (col_is col (dict_get r col)) rows = None ->
  distinct_on col (rows ++ [r]).
Proof.
  intros Hd Hnone i j ri rj Hi Hj Heq.
  pose proof (proj1 (find_row_none _ _) Hnone) as Hno.
  assert (Hold : forall k x, rows !! k = Some x ->
            value_eqb (dict_get x col) (dict_get r col) = false).
  { intros k x Hk. apply (Hno x). apply list_elem_of_In.
    eapply list_elem_of_lookup_2. exact Hk. }
  destruct (decide (i < length rows)%nat) as [Hil|Hil],
           (decide (j < length rows)%nat) as [Hjl|Hjl].
  - rewrite lookup_app_l in Hi, Hj by assumption. eapply Hd; eassumption.
  - rewrite lookup_app_l in Hi by assumption.
    rewrite lookup_app_r in Hj by lia.
    destruct (j - length rows)%nat as [|k] eqn:Hk; [|destruct k; discriminate].
    injection Hj as <-. rewrite (Hold _ _ Hi) in Heq. discriminate.
  - rewrite lookup_app_l in Hj by assumption.
    rewrite lookup_app_r in Hi by lia.
    destruct (i - length rows)%nat as [|k] eqn:Hk; [|destruct k; discriminate].
    injection Hi as <-. rewrite value_eqb_sym, (Hold _ _ Hj) in Heq. discriminate.
  - rewrite lookup_app_r in Hi, Hj by lia.
    destruct (i - length rows)%nat as [|k] eqn:Hk; [|destruct k; discriminate].
    destruct (j - length rows)%nat as [|k'] eqn:Hk'; [|destruct k'; discriminate].
    lia.
Qed.

Lemma distinct_on_insert (col : string) (rows : list row) (i : nat) (old r : row) :
  distinct_on col rows -> rows !! i = Some old -> r !! col = old !! col ->
  distinct_on col (<[i := r]> rows).
Proof.
  intros Hd Hi Hsame j k rj rk Hj Hk Heq.
  assert (Hget : forall n x, <[i := r]> rows !! n = Some x ->
            exists y, rows !! n = Some y /\ dict_get x col = dict_get y col).
  { intros n x Hn. destruct (decide (n = i)) as [->|Hne].
    - rewrite list_lookup_insert_eq in Hn by (eapply lookup_lt_Some; exact Hi).
      injection Hn as <-. exists old. split; [exact Hi|].
      unfold dict_get. rewrite Hsame. reflexivity.
    - rewrite list_lookup_insert_ne in Hn by congruence. eauto. }
  destruct (Hget _ _ Hj) as (yj & Hyj & Ej). destruct (Hget _ _ Hk) as (yk & Hyk & Ek).
  rewrite Ej, Ek in Heq. eapply Hd; eassumption.
Qed.

Lemma table_step_distinct (rows rows' : list row) :
  table_step rows rows' -> distinct_on "slug" rows -> distinct_on "slug" rows'.
Proof.
  intros [-> | [(r & -> & Hnone) | (i & old & r & Hi & -> & Hsame)]] Hd.
  - exact Hd.
  - apply distinct_on_app; assumption.
  - eapply distinct_on_insert; eassumption.
Qed.

Section Distinct.
Context `{Runtime}.

Lemma upsert_product_step (now : Z) (data : gmap string value) (db : database) :
  table_step (products db) (products (fst (upsert_product now data db))).
Proof.
  destruct (upsert_product now data db) as [db' [[r [|]]|e]] eqn:Hup; cbn [fst].
  - destruct (upsert_product_created _ _ _ _ _ Hup)
      as (slug & url & _ & _ & Hfind & Hrows & Ls & _).
    right. left. exists r. split; [exact Hrows|].
    rewrite (dict_get_lookup _ _ _ Ls). apply find_row_none. intros x Hx.
    pose proof (proj1 (find_row_none _ _) Hfind x Hx) as Hno.
    unfold slug_or_url in Hno. apply orb_false_iff in Hno. apply Hno.
  - destruct (upsert_product_found _ _ _ _ _ Hup)
      as (i & old & slug & url & Hslug & _ & Hfind & Hrows & Hlook).
    right. right. exists i, old, r. apply find_row_some in Hfind as [Hi _].
    repeat split; auto.
    rewrite Hlook. unfold product_stored_over, assigned.
    cbn [String.eqb Ascii.eqb Bool.eqb]. rewrite Hslug. reflexivity.
  - left. eapply upsert_product_raises. exact Hup.
Qed.

Lemma upsert_product_distinct (now : Z) (data : gmap string value) (db : database) :
  slugs_distinct db -> slugs_distinct (fst (upsert_product now data db)).
Proof.
  intros (Hc & Hb & Hp).
  pose proof (upsert_product_references now data db) as Hrefs. cbv zeta in Hrefs.
  pose proof (resolve_category_step now data db) as Sc.
  pose proof (resolve_category_frame now data db) as (_ & _ & Hcb).
  pose proof (resolve_brand_step now data (fst (resolve_category now data db))) as Sb.
  pose proof (upsert_product_step now data db) as Sp.
  rewrite Hcb in Sb.
  split; [|split].
  - destruct Hrefs as [[-> _]|[-> _]]; [exact Hc|].
    eapply table_step_distinct; eassumption.
  - destruct Hrefs as [[_ ->]|[_ ->]]; [exact Hb|].
    eapply table_step_distinct; eassumption.
  - eapply table_step_distinct; eassumption.
Qed.

Lemma bulk_loop_distinct (clock : nat -> Z) (data : list (gmap string value)) :
  forall n stats db,
    slugs_distinct db -> slugs_distinct (fst (bulk_loop clock n data stats db)).
Proof.
  induction data as [|pd rest IH]; intros n stats db Hd; simpl; [exact Hd|].
  pose proof (upsert_product_distinct (clock n) pd db Hd) as Hd1.
  destruct (upsert_product (clock n) pd db) as [db1 [[r [|]]|e]]; apply IH; exact Hd1.
Qed.

End Distinct.

(** X15. If no two categories, no two brands and no two products share a
    slug, this is still so after [upsert_category], [upsert_brand],
    [upsert_product] and [bulk_upsert_products], whatever the payloads. *)
Theorem upserts_keep_slugs_distinct `{Runtime} (now : Z) (data : gmap string value)
    (clock : nat -> Z) (batch : list (gmap string value)) (db : database) :
  slugs_distinct db ->
  slugs_distinct (fst (upsert_category now data db))
  /\ slugs_distinct (fst (upsert_brand now data db))
  /\ slugs_distinct (fst (upsert_product now data db))
  /\ slugs_distinct (fst (bulk_upsert_products clock batch db)).
Proof.
  intros Hd. pose proof Hd as (Hc & Hb & Hp). split; [|split; [|split]].
  - split; [|split].
    + eapply table_step_distinct; [apply upsert_category_step | exact Hc].
    + rewrite (proj2 (proj2 (upsert_category_frame now data db))). exact Hb.
    + rewrite (proj1 (proj2 (upsert_category_frame now data db))). exact Hp.
  - split; [|split].
    + rewrite (proj2 (proj2 (upsert_brand_frame now data db))). exact Hc.
    + eapply table_step_distinct; [apply upsert_brand_step | exact Hb].
    + rewrite (proj1 (proj2 (upsert_brand_frame now data db))). exact Hp.
  - apply upsert_product_distinct. exact Hd.
  - unfold bulk_upsert_products. apply bulk_loop_distinct. exact Hd.
Qed.

(** ** String literals of an export file *)

Lemma read_doubled (s rest : ustring) :
  starts_with (u "'") rest = false ->
  read_sql_chars (double_quotes s ++ 39 :: rest) = Some (s, rest).
Proof.
  intros Hrest. induction s as [|c s IH].
  - cbn [double_quotes flat_map app read_sql_chars]. rewrite Z.eqb_refl.
    destruct rest as [|d t]; [reflexivity|].
    change (u "'") with [39] in Hrest. cbn [starts_with] in Hrest.
    rewrite andb_true_r, Z.eqb_sym in Hrest. rewrite Hrest. reflexivity.
  - unfold double_quotes in *. cbn [flat_map]. destruct (c =? 39) eqn:Hc.
    + apply Z.eqb_eq in Hc. subst c. cbn [app read_sql_chars].
      rewrite !Z.eqb_refl, IH. reflexivity.
    + cbn [app read_sql_chars]. rewrite Hc, IH. reflexivity.
Qed.

(** X16. The literal that [_escape_sql_string] writes for a string reads
    back as that string: read as SQL reads a literal, with a doubled quote
    standing for one quote, it gives the string and stops where the
    literal ends, provided no quote follows it directly. *)
Theorem escaped_string_reads_back (s rest : ustring) :
  starts_with (u "'") rest = false ->
  exists literal,
    escape_sql_string (VStr s) = Returns literal
    /\ read_sql_string (literal ++ rest) = Some (s, rest).
Proof.
  intros Hrest. unfold escape_sql_string. destruct s as [|c s].
  - exists (u "''"). split; [reflexivity|].
    change (u "''") with [39; 39]. cbn [app read_sql_string]. rewrite Z.eqb_refl.
    apply (read_doubled [] rest Hrest).
  - cbn [truthy negb]. eexists. split; [reflexivity|].
    cbn [app read_sql_string]. rewrite Z.eqb_refl, <- app_assoc.
    apply (read_doubled (c :: s) rest Hrest).
Qed.

Lemma escaped_string_reads_back_witness :
  exists literal,
    escape_sql_string (VStr (u "L'Oreal")) = Returns literal
    /\ read_sql_string (literal ++ u ", 'x'") = Some (u "L'Oreal", u ", 'x'").
Proof. apply (escaped_string_reads_back (u "L'Oreal") (u ", 'x'")). reflexivity. Defined.

(** ** The order of the statements *)

Lemma brands_of_seen (db : database) (products : list row) :
  forall seen x, In x seen -> In x (brands_of db products seen).
Proof.
  induction products as [|p products IH]; intros seen x Hx; simpl.
  - apply in_rev in Hx. exact Hx.
  - destruct (brand_of db p) as [b|]; [|apply IH; exact Hx].
    destruct (existsb _ seen); apply IH; [exact Hx | right; exact Hx].
Qed.

Lemma brands_of_covers (db : database) (products : list row) (p b : row) :
  In p products -> brand_of db p = Some b ->
  forall seen, exists b',
    In b' (brands_of db products seen)
    /\ value_eqb (dict_get b' "id") (dict_get b "id") = true.
Proof.
  induction products as [|p0 products IH]; intros Hin Hb seen; [destruct Hin|].
  destruct Hin as [->|Hin].
  - simpl. rewrite Hb.
    destruct (existsb _ seen) eqn:Hseen.
    + apply existsb_exists in Hseen as (x & Hx & Hid).
      exists x. split; [apply brands_of_seen; exact Hx | exact Hid].
    + exists b. split; [apply brands_of_seen; left; reflexivity | apply value_eqb_refl].
  - simpl. destruct (brand_of db p0) as [b0|]; [|apply IH; assumption].
    destruct (existsb _ seen); apply IH; assumption.
Qed.

(** X17. In every file that [_write_products_sql_file] writes, the
    statement of each product comes after the statement of the category of
    the file and after a statement that inserts a brand with the key of
    the product's brand. *)
Theorem statements_precede_products (fuel : nat) (db : database)
    (products : list row) (category : row) (file : list sql_item) (p : row) :
  write_products_sql_file fuel db products category = Some file ->
  In p products ->
  (exists before between after,
     file = before ++ category_statement db category :: between
            ++ InsertProduct p :: after)
  /\ (forall b, brand_of db p = Some b ->
        exists b' before between after,
          value_eqb (dict_get b' "id") (dict_get b "id") = true
          /\ file = before ++ InsertBrand b' :: between ++ InsertProduct p :: after).
Proof.
  intros Hfile Hp.
  unfold write_products_sql_file, generate_category_insert_sql in Hfile.
  destruct (collect_categories fuel db (Some category) []) as [cats|] eqn:Hcats;
    [|discriminate].
  apply collect_inv in Hcats as (l & _ & ->).
  destruct (in_split _ _ Hp) as (p1 & p2 & Hsplit).
  injection Hfile as <-.
  set (head := [ Header category (length products);
                 Comment (u "Create tables if they don't exist"); CreateTables;
                 Comment (u "Insert category data") ]).
  set (brand_part := match brands_of db products [] with
                     | [] => []
                     | _ => Comment (u "Insert brand data")
                            :: map InsertBrand (brands_of db products [])
                     end).
  assert (Hproducts : map InsertProduct products
                      = map InsertProduct p1 ++ InsertProduct p :: map InsertProduct p2).
  { rewrite Hsplit, map_app. reflexivity. }
  split.
  - exists (head ++ map (category_statement db) l),
           (brand_part ++ Comment (u "Insert product data") :: map InsertProduct p1),
           (map InsertProduct p2 ++ [Comment (u "End of export")]).
    rewrite Hproducts, map_app. cbn [map].
    repeat (rewrite <- app_assoc; cbn [app]). reflexivity.
  - intros b Hb.
    destruct (brands_of_covers db products p b Hp Hb []) as (b' & Hin & Hid).
    destruct (in_split _ _ Hin) as (b1 & b2 & Hbs).
    exists b',
      (head ++ map (category_statement db) (l ++ [category])
       ++ Comment (u "Insert brand data") :: map InsertBrand b1),
      (map InsertBrand b2 ++ Comment (u "Insert product data") :: map InsertProduct p1),
      (map InsertProduct p2 ++ [Comment (u "End of export")]).
    split; [exact Hid|].
    unfold brand_part. rewrite Hproducts, Hbs.
    destruct b1; cbn [app map]; rewrite ?map_app; cbn [map];
      repeat (rewrite <- app_assoc; cbn [app]); reflexivity.
Qed.

(** ** The products below a category *)

Lemma extend_all_some (subs : list (option (list row))) :
  forall products r,
    extend_all products subs = Some r ->
    exists ls, subs = map Some ls /\ r = products ++ concat ls.
Proof.
  induction subs as [|[l|] subs IH]; intros products r Hr; simpl in Hr.
  - injection Hr as <-. exists []. simpl. rewrite app_nil_r. auto.
  - apply IH in Hr as (ls & -> & ->). exists (l :: ls). simpl.
    rewrite app_assoc. auto.
  - discriminate.
Qed.

Lemma extend_all_map (products : list row) (ls : list (list row)) :
  extend_all products (map Some ls) = Some (products ++ concat ls).
Proof.
  revert products. induction ls as [|l ls IH]; intros products; simpl.
  - rewrite app_nil_r. reflexivity.
  - rewrite IH, app_assoc. reflexivity.
Qed.

Lemma map_some_inv {A B} (f : A -> option B) (xs : list A) (ls : list B) :
  map f xs = map Some ls -> Forall2 (fun x l => f x = Some l) xs ls.
Proof.
  revert ls. induction xs as [|x xs IH]; intros [|l ls] Heq; simpl in Heq;
    try discriminate; [constructor|].
  injection Heq as Hx Hrest. constructor; [exact Hx | apply IH, Hrest].
Qed.

Lemma Forall2_In_r {A B} (P : A -> B -> Prop) (xs : list A) (ls : list B) (l : B) :
  Forall2 P xs ls -> In l ls -> exists x, In x xs /\ P x l.
Proof.
  induction 1 as [|x l0 xs ls Hx _ IH]; intros Hin; [destruct Hin|].
  destruct Hin as [->|Hin]; [exists x; split; [left; reflexivity | exact Hx]|].
  destruct (IH Hin) as (x' & Hx' & HP). exists x'. split; [right; exact Hx' | exact HP].
Qed.

Lemma Forall2_In_l {A B} (P : A -> B -> Prop) (xs : list A) (ls : list B) (x : A) :
  Forall2 P xs ls -> In x xs -> exists l, In l ls /\ P x l.
Proof.
  induction 1 as [|x0 l xs ls Hx _ IH]; intros Hin; [destruct Hin|].
  destruct Hin as [->|Hin]; [exists l; split; [left; reflexivity | exact Hx]|].
  destruct (IH Hin) as (l' & Hl' & HP). exists l'. split; [right; exact Hl' | exact HP].
Qed.

Lemma recursive_products_returns (db : database) (n : nat) :
  forall c fuel, levels db c n -> (n <= fuel)%nat ->
    exists ps, get_category_products_recursive fuel db c = Some ps.
Proof.
  induction n as [|n IH]; intros c fuel Hl Hfuel; [inversion Hl|].
  inversion Hl as [c' n' Hsubs]; subst.
  destruct fuel as [|fuel]; [lia|]. cbn [get_category_products_recursive].
  assert (Hall : exists ls, map (get_category_products_recursive fuel db)
                              (children_of db c) = map Some ls).
  { clear Hl. induction (children_of db c) as [|sub subs IHs].
    - exists []. reflexivity.
    - destruct (IH sub fuel (Hsubs sub (or_introl eq_refl)) ltac:(lia)) as [l Hl].
      destruct IHs as [ls Hls]; [intros x Hx; apply Hsubs; right; exact Hx|].
      exists (l :: ls). simpl. rewrite Hl, Hls. reflexivity. }
  destruct Hall as [ls ->]. rewrite extend_all_map. eauto.
Qed.

Lemma recursive_products_spec (db : database) (fuel : nat) :
  forall c ps,
    get_category_products_recursive fuel db c = Some ps ->
    forall p, In p ps <->
              exists d, in_subtree db d c /\ In p (get_category_products_direct db d).
Proof.
  induction fuel as [|fuel IH]; intros c ps Hps p; [discriminate|].
  cbn [get_category_products_recursive] in Hps.
  apply extend_all_some in Hps as (ls & Hmap & ->).
  apply map_some_inv in Hmap.
  split.
  - intros Hin. apply in_app_or in Hin as [Hin|Hin].
    + exists c. split; [constructor | exact Hin].
    + apply in_concat in Hin as (l & Hl & Hin).
      destruct (Forall2_In_r _ _ _ _ Hmap Hl) as (sub & Hsub & Hres).
      destruct (proj1 (IH sub l Hres p) Hin) as (d & Hd & Hp).
      exists d. split; [|exact Hp].
      eapply in_subtree_child; [exact Hsub | exact Hd].
  - intros (d & Hd & Hp). apply in_or_app.
    inversion Hd as [|d' sub c' Hsub Hdsub]; subst; [left; exact Hp|].
    right.
    destruct (Forall2_In_l _ _ _ _ Hmap Hsub) as (l & Hl & Hres).
    apply in_concat. exists l. split; [exact Hl|].
    apply (IH sub l Hres p). eauto.
Qed.

(** X18. [_get_category_products_recursive] returns when the tree below
    the category is finite, and its answer holds exactly the products
    whose category is the given one or a category below it. *)
Theorem recursive_products_are_the_subtree (db : database) (c : row) :
  (forall n fuel, levels db c n -> (n <= fuel)%nat ->
     exists ps, get_category_products_recursive fuel db c = Some ps)
  /\ (forall fuel ps, get_category_products_recursive fuel db c = Some ps ->
        forall p, In p ps <->
                  exists d, in_subtree db d c
                            /\ In p (get_category_products_direct db d)).
Proof.
  split.
  - intros n fuel. apply recursive_products_returns.
  - intros fuel. apply recursive_products_spec.
Qed.

(** ** A batch of the crawler *)

Section BatchFacts.
Context `{Runtime} `{Library}.

Lemma batch_counts (N : field_normalizers) (clock : nat -> Z)
    (data : list (gmap string value)) :
  forall n errors db,
    let '(db', errors', processed) := process_products_batch N clock n data errors db in
    crawl_sessions db' = crawl_sessions db
    /\ 0 <= errors' - errors
    /\ Z.of_nat (length processed) + (errors' - errors) <= Z.of_nat (length data)
    /\ length (products db')
       = (length (products db) + length (List.filter snd processed))%nat.
Proof.
  induction data as [|pd rest IH]; intros n errors db.
  - cbn [process_products_batch length List.filter]. repeat split; lia.
  - cbn [process_products_batch].
    destruct (normalize_product N (with_category_name pd)) as [d|e].
    + destruct (negb (is_valid (validate_normalized_product d))).
      * specialize (IH (S n) errors db).
        destruct (process_products_batch N clock (S n) rest errors db) as [[db2 e2] l2].
        destruct IH as (Hs & He & Hl & Hp). cbn [length]. repeat split; auto; lia.
      * pose proof (upsert_product_rows (clock n) d db) as Hrows.
        pose proof (upsert_product_sessions (clock n) d db) as Hsess.
        destruct (upsert_product (clock n) d db) as [db1 [[r created]|e]].
        -- specialize (IH (S n) errors db1).
           destruct (process_products_batch N clock (S n) rest errors db1)
             as [[db2 e2] l2].
           destruct IH as (Hs & He & Hl & Hp). cbn [fst] in Hsess.
           cbn [length List.filter snd].
           repeat split; [congruence | lia | lia |].
           destruct created; cbn [length]; lia.
        -- specialize (IH (S n) (errors + 1) db1).
           destruct (process_products_batch N clock (S n) rest (errors + 1) db1)
             as [[db2 e2] l2].
           destruct IH as (Hs & He & Hl & Hp). cbn [fst] in Hsess. cbn [length].
           repeat split; [congruence | lia | lia | lia].
    + specialize (IH (S n) (errors + 1) db).
      destruct (process_products_batch N clock (S n) rest (errors + 1) db)
        as [[db2 e2] l2].
      destruct IH as (Hs & He & Hl & Hp). cbn [length]. repeat split; auto; lia.
Qed.

(** X19. The accounts of [_process_products_batch]: the products it
    returns and the errors it counts are together at most the records of
    the batch, the error counter never decreases, the products table grows
    by the number of returned products that were created, and the crawl
    sessions are left alone. *)
Theorem batch_accounting (N : field_normalizers) (clock : nat -> Z)
    (data : list (gmap string value)) (errors : Z) (db : database) :
  let '(db', errors', processed) := process_products_batch N clock 0 data errors db in
  crawl_sessions db' = crawl_sessions db
  /\ 0 <= errors' - errors
  /\ Z.of_nat (length processed) + (errors' - errors) <= Z.of_nat (length data)
  /\ length (products db')
     = (length (products db) + length (List.filter snd processed))%nat.
Proof. apply batch_counts. Qed.

Lemma failed_normalization_rejected (N : field_normalizers)
    (product_data : gmap string value) (e : exn) :
  normalize_product_body N (with_category_name product_data) = Raises e ->
  rejected N product_data.
Proof.
  intros Hbody. exists ∅. unfold normalize_product. rewrite Hbody.
  split; reflexivity.
Qed.

Lemma rejected_batch (N : field_normalizers) (clock : nat -> Z)
    (data : list (gmap string value)) :
  Forall (rejected N) data ->
  forall n errors db, process_products_batch N clock n data errors db = (db, errors, []).
Proof.
  induction 1 as [|pd rest (d & Hd & Hv) _ IH]; intros n errors db; [reflexivity|].
  cbn [process_products_batch]. rewrite Hd, Hv. cbn [negb]. apply IH.
Qed.

(** X20. [_process_products_batch] drops in silence the records that do
    not pass the validation, among them every record whose normalization
    fails: for a batch of such records nothing is stored, nothing is
    returned and the error counter stays as it is. *)
Theorem batch_skips_rejected_records (N : field_normalizers) (clock : nat -> Z)
    (data : list (gmap string value)) (errors : Z) (db : database) :
  Forall (fun product_data =>
            (exists e, normalize_product_body N (with_category_name product_data)
                       = Raises e)
            \/ rejected N product_data) data ->
  process_products_batch N clock 0 data errors db = (db, errors, []).
Proof.
  intros Hall. apply rejected_batch.
  eapply Forall_impl; [exact Hall|].
  intros pd [[e He]|Hr]; [eapply failed_normalization_rejected; exact He | exact Hr].
Qed.

End BatchFacts.

(** ** The pages of a category *)

Section PageFacts.
Context `{Runtime}.

Lemma parse_pages_bounded (s : site) (category_url : ustring) (m : Z) :
  forall fuel page products,
    (1 <= page)%nat -> Z.of_nat page <= m ->
    (Z.to_nat m - page < fuel)%nat ->
    exists k result,
      parse_pages fuel s category_url (Some m) (Z.of_nat page) products = Some result
      /\ (page + k <= S (Z.to_nat m))%nat
      /\ result = products ++ flat_map (page_products s category_url) (seq page k).
Proof.
  induction fuel as [|fuel IH]; intros page products Hpage Hm Hfuel; [lia|].
  cbn [parse_pages].
  destruct (parse_single_page s (Z.of_nat page)
              (get_page_url category_url (Z.of_nat page))) as [[|p ps]|e] eqn:Hparse.
  - exists 0%nat, products. cbn. rewrite app_nil_r. repeat split; auto; lia.
  - assert (Hone : flat_map (page_products s category_url) (seq page 1) = p :: ps).
    { cbn. unfold page_products. rewrite Hparse. apply app_nil_r. }
    unfold reached_max_pages.
    destruct (m <=? Z.of_nat page) eqn:Hlast.
    + replace (m =? 0) with false by (symmetry; apply Z.eqb_neq; lia). cbn [negb andb].
      exists 1%nat. eexists. split; [reflexivity|]. rewrite Hone. split; [lia|reflexivity].
    + rewrite andb_false_r.
      destruct (has_next_page s (Z.of_nat page) _); cbn [negb].
      * apply Z.leb_gt in Hlast.
        destruct (IH (S page) (products ++ p :: ps)) as (k & result & Hres & Hk & Heq);
          [lia | lia | lia |].
        exists (S k), result. split; [|split].
        -- rewrite <- Hres. f_equal. lia.
        -- lia.
        -- rewrite Heq, <- app_assoc. f_equal.
           change (seq page (S k)) with ([page] ++ seq (S page) k).
           rewrite flat_map_app. f_equal. exact (eq_sym Hone).
      * exists 1%nat. eexists. split; [reflexivity|]. rewrite Hone.
        split; [lia|reflexivity].
  - exists 0%nat, products. cbn. rewrite app_nil_r. repeat split; auto; lia.
Qed.

Lemma parse_pages_no_limit (s : site) (category_url : ustring) :
  forall fuel page products,
    parse_pages fuel s category_url (Some 0) page products
    = parse_pages fuel s category_url None page products.
Proof.
  induction fuel as [|fuel IH]; intros page products; [reflexivity|].
  cbn [parse_pages reached_max_pages Z.eqb negb andb].
  destruct (parse_single_page s page _) as [[|p ps]|e]; try reflexivity.
  destruct (negb _); [reflexivity|]. apply IH.
Qed.

(** X21. With [max_pages] set to m, m at least 1, [parse_category_page]
    returns, and its answer is the products of the pages 1 to k, in this
    order, for some k that is at most m. *)
Theorem max_pages_bounds_the_pages (s : site) (category_url : ustring)
    (m : Z) (fuel : nat) :
  1 <= m -> (Z.to_nat m <= fuel)%nat ->
  exists k result,
    parse_category_page fuel s category_url (Some m) = Some result
    /\ (k <= Z.to_nat m)%nat
    /\ result = flat_map (page_products s category_url) (seq 1 k).
Proof.
  intros Hm Hfuel. unfold parse_category_page.
  destruct (parse_pages_bounded s category_url m fuel 1 []) as (k & result & Hres & Hk & Heq);
    [lia | lia | lia |].
  exists k, result. split; [exact Hres|]. split; [lia | exact Heq].
Qed.

(** X22. A [max_pages] of 0 is no limit: [parse_category_page] does with
    it what it does with [None]. *)
Theorem zero_max_pages_is_no_limit (s : site) (category_url : ustring) (fuel : nat) :
  parse_category_page fuel s category_url (Some 0)
  = parse_category_page fuel s category_url None.
Proof. apply parse_pages_no_limit. Qed.

End PageFacts.

(** ** The categories of the navigation *)

Section LinkFacts.
Context `{Runtime}.
Variable urljoin : ustring -> ustring -> option ustring.

Lemma category_of_link_fields (base_url : ustring) (l : link) (c : gmap string value) :
  category_of_link urljoin base_url l = Some c ->
  exists text,
    text <> [] /\ (length text <= 200)%nat /\ href l <> []
    /\ c !! "name" = Some (VStr text)
    /\ c !! "slug" = Some (VStr (generate_slug text))
    /\ c !! "url" = Some (VStr (href l)).
Proof.
  unfold category_of_link. cbn [truthy].
  destruct (href l) as [|h hs] eqn:Hhref; [discriminate|].
  destruct (py_strip (get_text l)) as [|t ts] eqn:Htext; [discriminate|].
  cbn [negb orb].
  destruct (200 <? Z.of_nat (length (t :: ts))) eqn:Hlen; [discriminate|].
  destruct (existsb _ skip_patterns); [discriminate|].
  destruct (urljoin base_url (h :: hs)) as [full|]; [|discriminate].
  intros [= <-]. exists (t :: ts). apply Z.ltb_ge in Hlen.
  repeat split; try discriminate; try lia; reflexivity.
Qed.

Lemma unique_categories_spec (categories : list (gmap string value)) :
  Forall (fun c => is_Some (c !! "slug")) categories ->
  forall seen, exists unique,
    unique_categories seen categories = Returns unique
    /\ sublist unique categories
    /\ Forall (fun c => existsb (value_eqb (dict_get c "slug")) seen = false) unique
    /\ distinct_on "slug" unique
    /\ Forall (fun c => existsb (value_eqb (dict_get c "slug")) seen = true
                        \/ exists c', In c' unique
                             /\ value_eqb (dict_get c "slug") (dict_get c' "slug") = true)
         categories.
Proof.
  induction 1 as [|cat rest [key Hkey] _ IH]; intros seen.
  - exists []. split; [reflexivity|]. split; [constructor|]. split; [constructor|].
    split; [|constructor].
    intros i j ri rj Hi. rewrite lookup_nil in Hi. discriminate.
  - cbn [unique_categories]. unfold dict_item. rewrite Hkey. cbn [bind].
    assert (Hget : dict_get cat "slug" = key) by (unfold dict_get; rewrite Hkey; reflexivity).
    destruct (existsb (value_eqb key) seen) eqn:Hseen.
    + destruct (IH seen) as (unique & Hu & Hsub & Hnot & Hd & Hcov).
      exists unique. split; [exact Hu|]. split; [apply sublist_cons, Hsub|].
      split; [exact Hnot|]. split; [exact Hd|].
      constructor; [left; rewrite Hget; exact Hseen | exact Hcov].
    + destruct (IH (key :: seen)) as (unique & Hu & Hsub & Hnot & Hd & Hcov).
      exists (cat :: unique). rewrite Hu. cbn [bind]. split; [reflexivity|].
      split; [apply sublist_skip, Hsub|].
      assert (Hnot' : Forall (fun c => value_eqb (dict_get c "slug") key = false
                                       /\ existsb (value_eqb (dict_get c "slug")) seen
                                          = false) unique).
      { eapply Forall_impl; [exact Hnot|]. intros c Hc. cbn [existsb] in Hc.
        apply orb_false_iff in Hc. exact Hc. }
      split; [|split].
      * constructor; [rewrite Hget; exact Hseen|].
        eapply Forall_impl; [exact Hnot'|]. intros c Hc. apply Hc.
      * intros i j ri rj Hi Hj Heq.
        destruct i as [|i], j as [|j]; [reflexivity| | |].
        -- exfalso. cbn in Hi, Hj. injection Hi as <-.
           apply list_elem_of_lookup_2, (proj1 (Forall_forall _ _) Hnot') in Hj.
           rewrite Hget, value_eqb_sym in Heq. destruct Hj as [Hj _]. congruence.
        -- exfalso. cbn in Hi, Hj. injection Hj as <-.
           apply list_elem_of_lookup_2, (proj1 (Forall_forall _ _) Hnot') in Hi.
           rewrite Hget in Heq. destruct Hi as [Hi _]. congruence.
        -- f_equal. cbn in Hi, Hj. eapply Hd; eassumption.
      * constructor.
        -- right. exists cat. split; [left; reflexivity | apply value_eqb_refl].
        -- eapply Forall_impl; [exact Hcov|]. intros c [Hc|(c' & Hin & Hc)].
           ++ cbn [existsb] in Hc. apply orb_true_iff in Hc as [Hc|Hc].
              ** right. exists cat. split; [left; reflexivity|]. rewrite Hget. exact Hc.
              ** left. exact Hc.
           ++ right. exists c'. split; [right; exact Hin | exact Hc].
Qed.

Lemma extracted_have_slugs (base_url : ustring) (links : list link) :
  Forall (fun c => exists text,
            text <> [] /\ (length text <= 200)%nat
            /\ c !! "name" = Some (VStr text)
            /\ c !! "slug" = Some (VStr (generate_slug text))
            /\ exists href, href <> [] /\ c !! "url" = Some (VStr href))
    (extract_categories_from_links urljoin base_url links).
Proof.
  apply Forall_forall. intros c Hc. unfold extract_categories_from_links in Hc.
  apply list_elem_of_omap in Hc as (l & _ & Hl).
  destruct (category_of_link_fields _ _ _ Hl) as (text & ? & ? & ? & ? & ? & ?).
  exists text. repeat split; auto. exists (href l). auto.
Qed.

(** X23. The categories that [_get_main_navigation_categories] keeps of
    the links of a page: removing the duplicates never fails, the
    categories kept are a sublist of the categories extracted, no two of
    them share a slug, every extracted slug is kept, and each category
    has a non-empty name of at most 200 characters, a non-empty url and
    the non-empty slug that [_generate_slug] makes of its name. *)
Theorem navigation_categories_are_distinct (base_url : ustring) (links : list link) :
  let found := extract_categories_from_links urljoin base_url links in
  exists unique,
    unique_categories [] found = Returns unique
    /\ sublist unique found
    /\ distinct_on "slug" unique
    /\ (forall c, In c found ->
          exists c', In c' unique
                     /\ value_eqb (dict_get c "slug") (dict_get c' "slug") = true)
    /\ (forall c, In c unique ->
          exists text href,
            text <> [] /\ (length text <= 200)%nat /\ href <> []
            /\ c !! "name" = Some (VStr text)
            /\ c !! "slug" = Some (VStr (generate_slug text))
            /\ generate_slug text <> []
            /\ c !! "url" = Some (VStr href)).
Proof.
  cbv zeta. pose proof (extracted_have_slugs base_url links) as Hfields.
  destruct (unique_categories_spec (extract_categories_from_links urljoin base_url links))
    with (seen := @nil value) as (unique & Hu & Hsub & _ & Hd & Hcov).
  { eapply Forall_impl; [exact Hfields|]. intros c (text & _ & _ & _ & Hs & _). eauto. }
  exists unique. split; [exact Hu|]. split; [exact Hsub|]. split; [exact Hd|]. split.
  - intros c Hc. apply list_elem_of_In in Hc.
    destruct (proj1 (Forall_forall _ _) Hcov c Hc) as [Hseen|Hc']; [discriminate|exact Hc'].
  - intros c Hc. apply list_elem_of_In in Hc.
    destruct (proj1 (Forall_forall _ _) Hfields c (elem_of_sublist _ _ _ Hc Hsub))
      as (text & Ht & Hlen & Hn & Hs & href & Hh & Hurl).
    exists text, href. repeat split; auto.
    unfold generate_slug. destruct (py_strip_chars _ _); discriminate.
Qed.

End LinkFacts.

(** ** The parent of a category *)

Lemma created_category_parent (now : Z) (data : gmap string value)
    (db db' : database) (c : row) :
  upsert_category now data db = (db', Returns (c, true)) ->
  categories db' = categories db ++ [c]
  /\ dict_get c "parent_id" =
       match (if truthy (dict_get data "parent_slug")
              then find_row (col_is "slug" (dict_get data "parent_slug")) (categories db)
              else None) with
       | Some (_, p) => dict_get p "id"
       | None => VNone
       end.
Proof.
  unfold upsert_category, dict_item. intros Hup.
  destruct (data !! "slug") as [slug|] eqn:Hslug; [|discriminate].
  destruct (find_row _ _) as [[i old]|] eqn:Hfind.
  - destruct (setattrs _ _ _ _); [|discriminate].
    destruct (update_ok _ _ _ _ _); discriminate.
  - destruct (data !! "name") as [name|] eqn:Hname; [|discriminate].
    destruct (data !! "url") as [url|] eqn:Hurl; [|discriminate].
    destruct (insert_ok _ _ _); [|discriminate].
    injection Hup as <- <-. split; [reflexivity|].
    unfold new_category, dict_get. row_lookup. reflexivity.
Qed.

(** X24. The parent of a category is fixed when [upsert_category]
    creates it: with a [parent_slug] that names a stored category the new
    row refers to that category and is one of its children; with a
    [parent_slug] that names none the row is a root, and no error is
    raised; and the upsert of a category that exists leaves its parent as
    it is when the payload has no [parent_id]. *)
Theorem parent_slug_links_a_new_category (now : Z) (data : gmap string value)
    (db db' : database) (c : row) (created : bool) (parent_slug : ustring) :
  upsert_category now data db = (db', Returns (c, created)) ->
  data !! "parent_slug" = Some (VStr parent_slug) -> parent_slug <> [] ->
  (created = true ->
     match get_category_by_slug parent_slug db with
     | Some p => dict_get c "parent_id" = dict_get p "id"
                 /\ (dict_get p "id" <> VNone -> In c (children_of db' p))
     | None => dict_get c "parent_id" = VNone /\ parent_of db' c = None
     end)
  /\ (created = false -> data !! "parent_id" = None ->
      forall slug old, data !! "slug" = Some (VStr slug) ->
        get_category_by_slug slug db = Some old ->
        c !! "parent_id" = old !! "parent_id").
Proof.
  intros Hup Hparent Hne. split.
  - intros ->. apply created_category_parent in Hup as [Hrows Hpid].
    unfold dict_get at 2 3 in Hpid. rewrite Hparent in Hpid. cbn [default truthy] in Hpid.
    destruct parent_slug as [|a s]; [congruence|].
    unfold get_category_by_slug.
    destruct (find_row _ (categories db)) as [[i p]|]; cbn [fmap option_fmap option_map snd].
    + split; [exact Hpid|]. intros Hid. unfold children_of.
      assert (Hin : In c (List.filter (col_is "parent_id" (dict_get p "id")) (categories db'))).
      { apply filter_In. split.
        - rewrite Hrows. apply in_or_app. right. left. reflexivity.
        - unfold col_is. rewrite Hpid. apply value_eqb_refl. }
      destruct (dict_get p "id"); [congruence | exact Hin ..].
    + split; [exact Hpid|]. unfold parent_of. rewrite Hpid. reflexivity.
  - intros -> Hno slug old Hslug Hold.
    apply upsert_category_found in Hup as (i & old' & slug' & Hslug' & Hfind & _ & Hcols).
    assert (E : slug' = VStr slug) by congruence. rewrite E in *. clear E.
    unfold get_category_by_slug in Hold. rewrite Hfind in Hold.
    injection Hold as <-. rewrite Hcols. unfold stored_over, assigned.
    cbn [String.eqb Ascii.eqb Bool.eqb]. rewrite Hno. reflexivity.
Qed.

(** ** The properties on the example data *)

Lemma validation_verdict_witness : has_required_fields (normalized_son son_moi).
Proof.
  apply (proj2 (proj2 (@validation_verdict latin latin_library (normalized_son son_moi)))).
  vm_compute. reflexivity.
Defined.

Lemma latin_digits_are_naturals : @digits_are_naturals latin.
Proof.
  intros c d. cbn [digit_val latin]. unfold latin_digit, ascii_digit.
  destruct (_ && _) eqn:Hc; [|discriminate]. intros [= <-]. lia.
Qed.

Lemma normalized_product_has_no_warnings_witness :
  exists d,
    normalize_product (@data_normalizer latin latin_library Returns Returns) product_son
      = Returns d
    /\ validation_warnings (@validate_normalized_product latin latin_library d) = [].
Proof.
  apply (@normalized_product_has_no_warnings latin latin_library Returns Returns product_son).
  exact latin_digits_are_naturals.
Defined.

Lemma upsert_then_lookup_witness :
  exists i,
    find_row (slug_or_url (VStr (u "son-maybelline")) (VStr (u "/san-pham/son-maybelline")))
      (products (fst blank_upsert)) = Some (i, blanked_son).
Proof.
  assert (Hslug : product_son_blank !! "slug" = Some (VStr (u "son-maybelline")))
    by (vm_compute; reflexivity).
  assert (Hurl : product_son_blank !! "url" = Some (VStr (u "/san-pham/son-maybelline")))
    by (vm_compute; reflexivity).
  exact (proj1 (proj2 (proj2 (@upsert_then_lookup latin 2 product_son_blank one_product
                                (fst blank_upsert) blanked_son false
                                (u "son-maybelline") Hslug))
                  blank_upsert_eq) _ Hurl).
Defined.

Lemma upserted_product_is_modified_witness :
  In blanked_son (get_products_modified_since 2 (fst blank_upsert)).
Proof.
  apply (@upserted_product_is_modified latin 2 2 product_son_blank one_product
           (fst blank_upsert) blanked_son false blank_upsert_eq).
  lia.
Defined.

Lemma get_or_create_by_name_is_stable_witness :
  (exists db' c,
     @get_or_create_category_by_name latin 1 (VStr son_moi) empty_database = (db', Some c)
     /\ col_is "name" (VStr son_moi) c = true
     /\ @get_or_create_category_by_name latin 2 (VStr son_moi) db' = (db', Some c))
  /\ (exists db' b,
        @get_or_create_brand_by_name latin 1 (VStr son_moi) empty_database = (db', Some b)
        /\ col_is "name" (VStr son_moi) b = true
        /\ @get_or_create_brand_by_name latin 2 (VStr son_moi) db' = (db', Some b)).
Proof.
  apply (@get_or_create_by_name_is_stable latin 1 2 (VStr son_moi) empty_database).
  reflexivity.
Defined.

Lemma empty_database_distinct : slugs_distinct empty_database.
Proof.
  repeat split; intros i j ri rj Hi; cbn in Hi; rewrite lookup_nil in Hi; discriminate.
Qed.

Lemma upserts_keep_slugs_distinct_witness :
  slugs_distinct (fst (upsert_category 10 category_son_moi empty_database))
  /\ slugs_distinct (fst (upsert_brand 10 category_son_moi empty_database))
  /\ slugs_distinct (fst (@upsert_product latin 10 category_son_moi empty_database))
  /\ slugs_distinct
       (fst (@bulk_upsert_products latin (fun _ => 1) [product_without_slug; product_son]
               empty_database)).
Proof.
  apply (@upserts_keep_slugs_distinct latin 10 category_son_moi (fun _ => 1)
           [product_without_slug; product_son] empty_database).
  exact empty_database_distinct.
Defined.

Lemma statements_precede_products_witness :
  (exists before between after,
     branded_file = before ++ category_statement branded_product branded_category
                    :: between ++ InsertProduct stored_branded :: after)
  /\ exists b' before between after,
       value_eqb (dict_get b' "id") (dict_get branded_brand "id") = true
       /\ branded_file = before ++ InsertBrand b' :: between
                         ++ InsertProduct stored_branded :: after.
Proof.
  assert (Hfile : write_products_sql_file 1 branded_product [stored_branded] branded_category
                  = Some branded_file)
    by (vm_cast_no_check (eq_refl (Some branded_file))).
  assert (Hbrand : brand_of branded_product stored_branded = Some branded_brand)
    by (vm_cast_no_check (eq_refl (Some branded_brand))).
  destruct (statements_precede_products 1 branded_product [stored_branded] branded_category
              branded_file stored_branded Hfile (or_introl eq_refl)) as [Hc Hb].
  split; [exact Hc | exact (Hb branded_brand Hbrand)].
Defined.

Lemma no_children_of_son_li : children_of two_categories row_son_li = [].
Proof. vm_cast_no_check (eq_refl (@nil row)). Qed.

Lemma children_of_son_moi : children_of two_categories row_son_moi = [row_son_li].
Proof. vm_cast_no_check (eq_refl [row_son_li]). Qed.

Lemma recursive_products_are_the_subtree_witness :
  exists ps, get_category_products_recursive 2 two_categories row_son_moi = Some ps.
Proof.
  apply (proj1 (recursive_products_are_the_subtree two_categories row_son_moi) 2%nat 2%nat);
    [|lia].
  constructor. intros sub Hsub. rewrite children_of_son_moi in Hsub.
  destruct Hsub as [<-|[]]. constructor. intros sub Hsub.
  rewrite no_children_of_son_li in Hsub. destruct Hsub.
Defined.

Lemma batch_skips_rejected_records_witness :
  @process_products_batch latin latin_library echo_normalizers (fun _ => 1) 0
    [product_son] 0 empty_database
  = (empty_database, 0, []).
Proof.
  apply (@batch_skips_rejected_records latin latin_library echo_normalizers (fun _ => 1)
           [product_son] 0 empty_database).
  constructor; [|constructor]. left. eexists. vm_compute. reflexivity.
Defined.

Lemma max_pages_bounds_the_pages_witness :
  exists k result,
    @parse_category_page latin 3 endless_site (u "/danh-muc/son-moi") (Some 2) = Some result
    /\ (k <= Z.to_nat 2)%nat
    /\ result = flat_map (@page_products latin endless_site (u "/danh-muc/son-moi"))
                  (seq 1 k).
Proof.
  apply (@max_pages_bounds_the_pages latin endless_site (u "/danh-muc/son-moi") 2 3); lia.
Defined.

Lemma parent_slug_links_a_new_category_witness :
  dict_get row_son_li "parent_id" = dict_get row_son_moi "id"
  /\ (dict_get row_son_moi "id" <> VNone -> In row_son_li (children_of two_categories row_son_moi)).
Proof.
  assert (Hup : upsert_category 20 category_son_li root_category
                = (two_categories, Returns (row_son_li, true)))
    by (vm_cast_no_check
          (@eq_refl (database * result (row * bool))
             (two_categories, Returns (row_son_li, true)))).
  assert (Hparent : category_son_li !! "parent_slug" = Some (VStr (u "son-moi")))
    by (vm_compute; reflexivity).
  assert (Hp : get_category_by_slug (u "son-moi") root_category = Some row_son_moi)
    by (vm_cast_no_check (eq_refl (Some row_son_moi))).
  pose proof (proj1 (parent_slug_links_a_new_category 20 category_son_li root_category
                       two_categories row_son_li true (u "son-moi") Hup Hparent
                       ltac:(discriminate)) eq_refl) as Hlink.
  rewrite Hp in Hlink. exact Hlink.
Defined.

(** The two links with the text "Son moi" give one category; the link to
    the contact page gives none. *)
Example navigation_links_unique :
  match unique_categories []
          (@extract_categories_from_links latin (fun base href => Some (base ++ href))
             (u "https://bestmua.vn") navigation_links) with
  | Returns unique => map (fun c => (dict_get c "slug", dict_get c "url")) unique
  | Raises _ => []
  end
  = [(VStr (u "son-moi"), VStr (u "/danh-muc/son-moi"))].
Proof. vm_compute. reflexivity. Qed.

Example page_urls :
  @get_page_url latin (u "/c/son") 1 = u "/c/son"
  /\ @get_page_url latin (u "/c/son") 2 = u "/c/son?page=2"
  /\ @get_page_url latin (u "/c/son?sort=new") 3 = u "/c/son?sort=new&page=3".
Proof. vm_compute. repeat split. Qed.
